(** * thpoker: the combination engine of [thpoker/core.py]

    A shallow embedding of the card primitives, the repetition and
    sequence analysers, the combination selector, the comparator and the
    hand-contribution pass, followed by the properties proved about them. *)

From Stdlib Require Import Ascii String.
From stdpp Require Import gmap list strings sorting.

(** ** Exceptions and the error monad

    Every Python exception the modelled code can raise is a constructor of
    [Exc]; a computation that may raise has type [Res A]. *)

Inductive Exc : Type :=
| CardWeightSymbolError | CardSuitSymbolError | CardEmptySymbolError
| CardsStringTypeError | ComboCardsTypeError | ComboArgumentsError
| AttributeError | TypeError | ValueError | IndexError | KeyError.

Inductive Res (A : Type) : Type :=
| Ok (a : A)
| Raise (e : Exc).
Arguments Ok {A} a.
Arguments Raise {A} e.

Definition res_bind {A B : Type} (f : A → Res B) (m : Res A) : Res B :=
  match m with
  | Ok a => f a
  | Raise e => Raise e
  end.

#[global] Instance Res_ret : MRet Res := λ A a, Ok a.
#[global] Instance Res_bind : MBind Res := λ A B f m, res_bind f m.

Definition is_Ok {A : Type} (m : Res A) : bool :=
  match m with Ok _ => true | Raise _ => false end.

(** ** Card primitives *)

(** [Card.Weight]: one value per symbol of ['123456789TJQKA']. *)
Inductive Weight : Type :=
| W1 | W2 | W3 | W4 | W5 | W6 | W7 | W8 | W9 | WT | WJ | WQ | WK | WA.

Inductive Suit : Type := Sc | Sd | Sh | Ss.

#[global] Instance Weight_eq_dec : EqDecision Weight.
Proof. solve_decision. Defined.
#[global] Instance Suit_eq_dec : EqDecision Suit.
Proof. solve_decision. Defined.

Module WeightM.

Definition symbols : string := "123456789TJQKA".

Definition all : list Weight :=
  [W1; W2; W3; W4; W5; W6; W7; W8; W9; WT; WJ; WQ; WK; WA].

Definition symbol (w : Weight) : ascii :=
  match w with
  | W1 => "1" | W2 => "2" | W3 => "3" | W4 => "4" | W5 => "5"
  | W6 => "6" | W7 => "7" | W8 => "8" | W9 => "9" | WT => "T"
  | WJ => "J" | WQ => "Q" | WK => "K" | WA => "A"
  end%char.

(** [numbers()]: [{symbols[i]: i for i in range(14)}]. *)
Fixpoint index_from (i : nat) (a : ascii) (s : string) : option nat :=
  match s with
  | EmptyString => None
  | String b s' => if Ascii.eqb a b then Some i else index_from (S i) a s'
  end.

Definition numbers (a : ascii) : option nat := index_from 0 a symbols.

(** [self.number = self.numbers()[symbol]]. *)
Definition number (w : Weight) : nat :=
  match w with
  | W1 => 0 | W2 => 1 | W3 => 2 | W4 => 3 | W5 => 4 | W6 => 5 | W7 => 6
  | W8 => 7 | W9 => 8 | WT => 9 | WJ => 10 | WQ => 11 | WK => 12 | WA => 13
  end.

Definition names (w : Weight) : string :=
  match w with
  | W1 => "Ace" | W2 => "Two" | W3 => "Three" | W4 => "Four"
  | W5 => "Five" | W6 => "Six" | W7 => "Seven" | W8 => "Eight"
  | W9 => "Nine" | WT => "Ten" | WJ => "Jack" | WQ => "Queen"
  | WK => "King" | WA => "Ace"
  end%string.

Definition of_symbol (a : ascii) : option Weight :=
  List.find (λ w, Ascii.eqb (symbol w) a) all.

(** Modelled from the spec: [CardSymbolValidator] lives in
    [thpoker.validators], which is not among the sources. It rejects an
    empty card specification and any symbol outside [symbols]. *)
Definition init (sym : string) : Res Weight :=
  match sym with
  | EmptyString => Raise CardEmptySymbolError
  | String a EmptyString =>
      match of_symbol a with
      | Some w => Ok w
      | None => Raise CardWeightSymbolError
      end
  | _ => Raise CardWeightSymbolError
  end.

Definition lt (self other : Weight) : bool := number self <? number other.
Definition gt (self other : Weight) : bool := number other <? number self.
Definition eq (self other : Weight) : bool := number self =? number other.
Definition ne (self other : Weight) : bool := negb (number self =? number other).

End WeightM.

Module SuitM.

Definition symbols : string := "cdhs".

Definition all : list Suit := [Sc; Sd; Sh; Ss].

Definition symbol (s : Suit) : ascii :=
  match s with Sc => "c" | Sd => "d" | Sh => "h" | Ss => "s" end%char.

Definition names (s : Suit) : string :=
  match s with
  | Sc => "clubs" | Sd => "diamonds" | Sh => "hearts" | Ss => "spades"
  end%string.

Definition of_symbol (a : ascii) : option Suit :=
  List.find (λ s, Ascii.eqb (symbol s) a) all.

(** Modelled from the spec: the same validator as for weights, over
    ['cdhs']. *)
Definition init (sym : string) : Res Suit :=
  match sym with
  | EmptyString => Raise CardEmptySymbolError
  | String a EmptyString =>
      match of_symbol a with
      | Some s => Ok s
      | None => Raise CardSuitSymbolError
      end
  | _ => Raise CardSuitSymbolError
  end.

Definition eq (self other : Suit) : bool := Ascii.eqb (symbol self) (symbol other).
Definition ne (self other : Suit) : bool := negb (Ascii.eqb (symbol self) (symbol other)).

End SuitM.

(** [Card]: a weight and a suit, either of which is [None] for an abstract
    card, and the [in_hand] flag ([False] on the class). *)
Record Card : Type := mkCard {
  weight : option Weight;
  suit : option Suit;
  in_hand : bool
}.

#[global] Instance Card_eq_dec : EqDecision Card.
Proof. solve_decision. Defined.

Module CardM.

Definition str1 (a : ascii) : string := String a EmptyString.

(** [Card.__init__] on its first positional argument. *)
Definition init (arg : string) : Res Card :=
  match arg with
  | String a (String b _) =>
      w ← WeightM.init (str1 a);
      s ← SuitM.init (str1 b);
      Ok (mkCard (Some w) (Some s) false)
  | _ =>
      match WeightM.init arg with
      | Ok w => Ok (mkCard (Some w) None false)
      | Raise CardWeightSymbolError =>
          s ← SuitM.init arg;
          Ok (mkCard None (Some s) false)
      | Raise e => Raise e
      end
  end.

(** [self.weight < other.weight]; a missing weight makes Python raise. *)
Definition lt (self other : Card) : Res bool :=
  match weight self, weight other with
  | Some w1, Some w2 => Ok (WeightM.lt w1 w2)
  | None, None => Raise TypeError
  | _, _ => Raise AttributeError
  end.

Definition gt (self other : Card) : Res bool :=
  match weight self, weight other with
  | Some w1, Some w2 => Ok (WeightM.gt w1 w2)
  | None, None => Raise TypeError
  | _, _ => Raise AttributeError
  end.

(** [self.weight == other.weight if self.weight and other.weight
     else self.suit == other.suit]. Comparing a suit with [None] reaches
    [Suit.__eq__] with [None] as one side, which raises. *)
Definition eq (self other : Card) : Res bool :=
  match weight self, weight other with
  | Some w1, Some w2 => Ok (WeightM.eq w1 w2)
  | _, _ =>
      match suit self, suit other with
      | Some s1, Some s2 => Ok (SuitM.eq s1 s2)
      | None, None => Ok true
      | _, _ => Raise AttributeError
      end
  end.

Definition ne (self other : Card) : Res bool :=
  match weight self, weight other with
  | Some w1, Some w2 => Ok (WeightM.ne w1 w2)
  | _, _ =>
      match suit self, suit other with
      | Some s1, Some s2 => Ok (SuitM.ne s1 s2)
      | None, None => Ok false
      | _, _ => Raise AttributeError
      end
  end.

End CardM.


(** ** Python list operations on cards

    [in], [count] and [filter] call [Card.__eq__], so they can raise. *)

(** [item in l]: stops at the first element equal to [item]. *)
Fixpoint list_contains (item : Card) (l : list Card) : Res bool :=
  match l with
  | [] => Ok false
  | x :: l' =>
      b ← CardM.eq item x;
      if (b : bool) then Ok true else list_contains item l'
  end.

(** [l.count(value)]. *)
Fixpoint list_count (l : list Card) (value : Card) : Res nat :=
  match l with
  | [] => Ok 0
  | x :: l' =>
      b ← CardM.eq x value;
      n ← list_count l' value;
      Ok (if (b : bool) then S n else n)
  end.

(** [list(filter(f, l))]. *)
Fixpoint list_filter (f : Card → Res bool) (l : list Card) : Res (list Card) :=
  match l with
  | [] => Ok []
  | x :: l' =>
      b ← f x;
      r ← list_filter f l';
      Ok (if (b : bool) then x :: r else r)
  end.

(** [l[0]], [l[-1]] and [l[-2]]. *)
Definition py_first {A : Type} (l : list A) : Res A :=
  match l with
  | x :: _ => Ok x
  | [] => Raise IndexError
  end.

Definition py_last {A : Type} (l : list A) : Res A :=
  match last l with
  | Some x => Ok x
  | None => Raise IndexError
  end.

Definition py_last2 {A : Type} (l : list A) : Res A :=
  match reverse l with
  | _ :: x :: _ => Ok x
  | _ => Raise IndexError
  end.

(** [l[-n:]]. *)
Definition py_lastn {A : Type} (n : nat) (l : list A) : list A :=
  drop (length l - n) l.

(** [l[:n]] for an integer [n]: a negative [n] counts from the end. *)
Definition py_take {A : Type} (n : Z) (l : list A) : list A :=
  if (0 <=? n)%Z then take (Z.to_nat n) l
  else take (length l - Z.to_nat (- n)) l.

(** [max(l)] of a list of numbers: [ValueError] on the empty list. *)
Definition py_max (l : list nat) : Res nat :=
  match l with
  | [] => Raise ValueError
  | _ => Ok (max_list l)
  end.

(** [l.sort()]. Python's sort is stable and compares with [__lt__] only.
    It is modelled by the stable insertion sort; like Python's, it makes no
    comparison on a list of at most one element and otherwise compares
    every element at least once, so it raises on the same inputs. Python
    makes its comparisons in another order: on a list in which a card has
    no weight both raise, but not always the same exception
    ([TypeError] or [AttributeError]). On cards that all carry a weight
    the result is the same list. *)
Fixpoint sort_insert (x : Card) (s : list Card) : Res (list Card) :=
  match s with
  | [] => Ok [x]
  | y :: s' =>
      b ← CardM.lt y x;
      if (b : bool) then r ← sort_insert x s'; Ok (y :: r) else Ok (x :: s)
  end.

Fixpoint list_sort (l : list Card) : Res (list Card) :=
  match l with
  | [] => Ok []
  | x :: l' => s ← list_sort l'; sort_insert x s
  end.

(** [s.split('/')]. *)
Fixpoint split_slash (cur : string) (s : string) : list string :=
  match s with
  | EmptyString => [cur]
  | String a s' =>
      if Ascii.eqb a "/"%char then cur :: split_slash EmptyString s'
      else split_slash (cur +:+ CardM.str1 a) s'
  end.

(** [[f(x) for x in l]] with an [f] that may raise. *)
Fixpoint list_mapM {A B : Type} (f : A → Res B) (l : list A) : Res (list B) :=
  match l with
  | [] => Ok []
  | x :: l' => y ← f x; r ← list_mapM f l'; Ok (y :: r)
  end.

(** ** Card groups and the store

    [Cards], [Table] and [Hand] objects hold their cards in a Python list
    that the engine may alias. The store maps the address of each such
    list to its contents. Card objects themselves are values: the engine
    writes [in_hand] only on the low ace it creates itself. *)

Abbreviation loc := nat (only parsing).
Abbreviation store := (gmap nat (list Card)) (only parsing).

Inductive Class : Type := ClsCards | ClsTable | ClsHand.

#[global] Instance Class_eq_dec : EqDecision Class.
Proof. solve_decision. Defined.

Record CardsObj : Type := mkCardsObj {
  cls : Class;
  items : loc
}.

Definition alloc (l : list Card) (σ : store) : loc * store :=
  let a := fresh (dom σ) in (a, <[a := l]> σ).

Definition load (a : loc) (σ : store) : list Card := default [] (σ !! a).

Module CardsM.

(** [Cards.__init__]: the item list built from [cards_string]. *)
Definition parse (cards_string : option string) (max_cards_count : nat)
  : Res (list Card) :=
  match cards_string with
  | None | Some EmptyString => Ok []
  | Some s => list_mapM CardM.init (take max_cards_count (split_slash EmptyString s))
  end.

Definition init (cards_string : option string) (σ : store) : Res (CardsObj * store) :=
  l ← parse cards_string 7;
  let '(a, σ') := alloc l σ in
  Ok (mkCardsObj ClsCards a, σ').

End CardsM.

Module TableM.

Definition init (cards_string : option string) (σ : store) : Res (CardsObj * store) :=
  l ← CardsM.parse cards_string 5;
  let '(a, σ') := alloc l σ in
  Ok (mkCardsObj ClsTable a, σ').

End TableM.

Module HandM.

(** [post_get_cards] then [typing], as far as the items are concerned:
    [in_hand] is set on every card, the list is sorted and reversed,
    [items[0].weight.symbol] and [items[1].weight.symbol] are read in that
    order, the two cards are compared and, unless their weights are
    equal, so are their suits. *)
Definition post_get_cards (l : list Card) : Res (list Card) :=
  let l1 := (λ c, mkCard (weight c) (suit c) true) <$> l in
  s ← list_sort l1;
  let r := reverse s in
  match r with
  | [] => Raise IndexError
  | c0 :: rest =>
      match weight c0 with
      | None => Raise AttributeError
      | Some w0 =>
          match rest with
          | [] => Raise IndexError
          | c1 :: _ =>
              match weight c1 with
              | None => Raise AttributeError
              | Some w1 =>
                  if WeightM.eq w0 w1 then Ok r
                  else
                    match suit c0, suit c1 with
                    | Some _, Some _ | None, None => Ok r
                    | _, _ => Raise AttributeError
                    end
              end
          end
      end
  end.

Definition init (cards_string : option string) (σ : store) : Res (CardsObj * store) :=
  l ← CardsM.parse cards_string 2;
  l' ← match l with [] => Ok [] | _ => post_get_cards l end;
  let '(a, σ') := alloc l' σ in
  Ok (mkCardsObj ClsHand a, σ').

End HandM.


(** ** The sequence analyser: [Combo.Sequence] *)

Record Sequence : Type := mkSequence {
  order_cards : option (list Card);
  five_in_a_row : bool;
  max_in_a_row : nat;
  seq_cards : list Card
}.

Module SequenceM.

(** The abstract card [Card('A')]. *)
Definition abstract_ace : Card := mkCard (Some WA) None false.

(** [one_more_ace]: a ['1'] card of the suit of the last ace is inserted at
    the front and takes the [in_hand] flag of that ace. *)
Definition one_more_ace (cards : list Card) : Res (list Card) :=
  aces ← list_filter (λ card, CardM.eq card abstract_ace) cards;
  ace ← py_last aces;
  match suit ace with
  | None => Raise AttributeError
  | Some s =>
      c ← CardM.init (CardM.str1 "1" +:+ CardM.str1 (SuitM.symbol s));
      Ok (mkCard (weight c) (suit c) (in_hand ace) :: cards)
  end.

(** [get_rank]: 14 abstract cards, overwritten by the real ones at the
    index of their weight, then reversed. *)
Fixpoint fill_rank (rank : list Card) (cards : list Card) : Res (list Card) :=
  match cards with
  | [] => Ok rank
  | card :: cards' =>
      match weight card with
      | None => Raise AttributeError
      | Some w => fill_rank (<[WeightM.number w := card]> rank) cards'
      end
  end.

Definition get_rank (cards : list Card) : Res (list Card) :=
  rank ← fill_rank ((λ w, mkCard (Some w) None false) <$> WeightM.all) cards;
  Ok (reverse rank).

(** The loop of [find_order] over the indices still to visit. It returns
    [order_cards] (set exactly when five in a row were found, where the
    loop breaks) and [history]. *)
Fixpoint find_order_loop (rank : list Card) (idx : list nat)
    (base cards_in_a_row : nat) (history : list nat)
  : Res (option (list Card) * list nat) :=
  match idx with
  | [] => Ok (None, history)
  | i :: idx' =>
      match rank !! i with
      | None => Raise IndexError
      | Some c =>
          match suit c with
          | Some _ =>
              let cards_in_a_row := S cards_in_a_row in
              let history := history ++ [cards_in_a_row] in
              if cards_in_a_row =? 5
              then Ok (Some (take 5 (drop base rank)), history)
              else find_order_loop rank idx' base cards_in_a_row history
          | None => find_order_loop rank idx' (i + 1) 0 history
          end
      end
  end.

Definition find_order (cards : list Card) : Res Sequence :=
  rank ← get_rank cards;
  '(order, history) ← find_order_loop rank (seq 0 14) 0 0 [];
  m ← py_max history;
  Ok (mkSequence order (match order with Some _ => true | None => false end) m cards).

(** [Sequence.__init__]. *)
Definition init (cards : list Card) : Res Sequence :=
  has_ace ← list_contains abstract_ace cards;
  cards' ← (if (has_ace : bool) then one_more_ace cards else Ok cards);
  find_order cards'.

End SequenceM.

(** ** The repetition analyser: [Combo.Repeats] *)

Record BaseRepeats : Type := mkBaseRepeats {
  rep_cards : list Card;
  rep_all : gmap nat (list Card)
}.

Record WeightRepeats : Type := mkWeightRepeats {
  w_base : BaseRepeats;
  four : option Card;
  three : option Card;
  double_three : bool;
  two : option Card;
  double_two : option (list Card);
  triple_two : bool
}.

Record SuitRepeats : Type := mkSuitRepeats {
  s_base : BaseRepeats;
  max_repeats : nat;
  five_or_more : bool;
  flush_card : option Card
}.

Record Repeats : Type := mkRepeats {
  rweight : WeightRepeats;
  rsuit : SuitRepeats
}.

Module RepeatsM.

Definition empty_base : BaseRepeats := mkBaseRepeats [] ∅.

(** The body of the inner loop of [get_all_repeats] for one key. *)
Definition add_repeat (cards : list Card) (card : Card) (repeats : BaseRepeats)
  : Res BaseRepeats :=
  seen ← list_contains card (rep_cards repeats);
  if (seen : bool) then Ok repeats
  else
    cnt ← list_count cards card;
    let all' :=
      match rep_all repeats !! cnt with
      | Some l => <[cnt := l ++ [card]]> (rep_all repeats)
      | None => <[cnt := [card]]> (rep_all repeats)
      end in
    Ok (mkBaseRepeats (rep_cards repeats ++ [card]) all').

Fixpoint get_all_repeats (cards rest : list Card) (w s : BaseRepeats)
  : Res (BaseRepeats * BaseRepeats) :=
  match rest with
  | [] => Ok (w, s)
  | card :: rest' =>
      match weight card, suit card with
      | None, _ | _, None => Raise AttributeError
      | Some cw, Some cs =>
          w_card ← CardM.init (CardM.str1 (WeightM.symbol cw));
          s_card ← CardM.init (CardM.str1 (SuitM.symbol cs));
          w' ← add_repeat cards w_card w;
          s' ← add_repeat cards s_card s;
          get_all_repeats cards rest' w' s'
      end
  end.

(** [WeightRepeats.get_repeat_kind]. *)
Definition get_repeat_kind (b : BaseRepeats) : Res WeightRepeats :=
  let all := rep_all b in
  match all !! 4 with
  | Some l4 =>
      c ← py_first l4;
      Ok (mkWeightRepeats b (Some c) None false None None false)
  | None =>
      match all !! 3 with
      | Some l3 =>
          c3 ← py_last l3;
          two1 ← match all !! 2 with
                 | Some l2 => c ← py_last l2; Ok (Some c)
                 | None => Ok None
                 end;
          if length l3 =? 2
          then c ← py_last2 l3;
               Ok (mkWeightRepeats b None (Some c3) true (Some c) None false)
          else Ok (mkWeightRepeats b None (Some c3) false two1 None false)
      | None =>
          match all !! 2 with
          | Some l2 =>
              if 1 <? length l2
              then Ok (mkWeightRepeats b None None false None
                         (Some (py_lastn 2 l2)) (length l2 =? 3))
              else c ← py_last l2;
                   Ok (mkWeightRepeats b None None false (Some c) None false)
          | None => Ok (mkWeightRepeats b None None false None None false)
          end
      end
  end.

(** [SuitRepeats.flush_or_not]. *)
Definition flush_or_not (b : BaseRepeats) : Res SuitRepeats :=
  let all := rep_all b in
  m ← py_max (map_to_list all).*1;
  match all !! m with
  | None => Raise KeyError
  | Some l =>
      c ← py_first l;
      Ok (mkSuitRepeats b m (5 <=? m) (Some c))
  end.

(** [Repeats.__init__]. *)
Definition init (cards : list Card) : Res Repeats :=
  '(w, s) ← get_all_repeats cards cards empty_base empty_base;
  wr ← get_repeat_kind w;
  sr ← flush_or_not s;
  Ok (mkRepeats wr sr).

End RepeatsM.


(** ** Combinations: [Combo] *)

Definition HIGH_CARD : nat := 1.
Definition ONE_PAIR : nat := 2.
Definition TWO_PAIRS : nat := 3.
Definition THREE_OF_A_KIND : nat := 4.
Definition STRAIGHT : nat := 5.
Definition FLUSH : nat := 6.
Definition FULL_HOUSE : nat := 7.
Definition FOUR_OF_A_KIND : nat := 8.
Definition STRAIGHT_FLUSH : nat := 9.

(** A [Combo] object. [cards] is the item list of its [Combo.Cards];
    [init_cards] is the address of the list it analyses; [type], [repeats]
    and [sequence] are [None] until [find_combo] has run. *)
Record Combo : Type := mkCombo {
  cards : list Card;
  init_cards : loc;
  repeats : option Repeats;
  sequence : option Sequence;
  type : option nat;
  is_real : bool;
  is_nominal : bool;
  is_half_nominal : bool
}.

Module ComboCards.

(** [Combo.Cards.compare]: the first pair of cards that differ decides. *)
Fixpoint compare (condition : Card → Card → Res bool) (even : bool)
    (self other : list Card) : Res bool :=
  match self, other with
  | card1 :: self', card2 :: other' =>
      d ← CardM.ne card1 card2;
      if (d : bool) then condition card1 card2
      else compare condition even self' other'
  | _, _ => Ok even
  end.

Definition lt (self other : list Card) : Res bool := compare CardM.lt false self other.
Definition gt (self other : list Card) : Res bool := compare CardM.gt false self other.
Definition eq (self other : list Card) : Res bool := compare CardM.eq true self other.
Definition ne (self other : list Card) : Res bool := compare CardM.ne false self other.

(** [get_other_cards]: the cards of [all_cards] whose like is not yet in
    the combination, highest first, as many as there are free places.
    [free_places] is an integer: when the combination holds more than five
    cards the slice [cards_to_add[:free_places]] has a negative bound. *)
Definition get_other_cards (self all_cards : list Card) : Res (list Card) :=
  cards_to_add ← list_filter (λ card, b ← list_contains card self; Ok (negb b)) all_cards;
  match cards_to_add with
  | [] => Ok self
  | _ =>
      let free_places := (5 - Z.of_nat (length self))%Z in
      Ok (self ++ py_take free_places (reverse cards_to_add))
  end.

End ComboCards.

Module ComboM.

Definition new (init : loc) : Combo :=
  mkCombo [] init None None None false false false.

Definition set_combo (self : Combo) (r : Repeats) (s : Sequence) (t : nat)
    (items : list Card) : Combo :=
  mkCombo (cards self ++ items) (init_cards self) (Some r) (Some s) (Some t)
    (is_real self) (is_nominal self) (is_half_nominal self).

(** Truth value of a field holding a card or [None], and of one holding a
    list or [None]. *)
Definition truthy {A : Type} (o : option A) : bool :=
  match o with Some _ => true | None => false end.

Definition truthy_list {A : Type} (o : option (list A)) : bool :=
  match o with Some (_ :: _) => true | _ => false end.

(** A field that must hold a card. *)
Definition the {A : Type} (o : option A) : Res A :=
  match o with
  | Some a => Ok a
  | None => Raise AttributeError
  end.

(** The [get_*] methods. [init] is the content of [self.init_cards]; each
    returns the combination type and the items added to [self.cards]. *)

Definition get_straight_flush (s : Sequence) : Res (nat * list Card) :=
  match order_cards s with
  | Some oc => Ok (STRAIGHT_FLUSH, oc)
  | None => Raise TypeError
  end.

Definition get_four_of_a_kind (init : list Card) (r : Repeats) : Res (nat * list Card) :=
  k ← the (four (rweight r));
  four ← list_filter (λ card, CardM.eq card k) init;
  items ← ComboCards.get_other_cards four init;
  Ok (FOUR_OF_A_KIND, items).

Definition get_full_house (init : list Card) (r : Repeats) : Res (nat * list Card) :=
  k3 ← the (three (rweight r));
  k2 ← the (two (rweight r));
  the_set ← list_filter (λ card, CardM.eq card k3) init;
  pair ← list_filter (λ card, CardM.eq card k2) init;
  Ok (FULL_HOUSE, the_set ++ take 2 pair).

Definition get_flush (s : Sequence) : Res (nat * list Card) :=
  Ok (FLUSH, reverse (py_lastn 5 (seq_cards s))).

Definition get_straight (s : Sequence) : Res (nat * list Card) :=
  match order_cards s with
  | Some oc => Ok (STRAIGHT, oc)
  | None => Raise TypeError
  end.

Definition get_three_of_a_kind (init : list Card) (r : Repeats) : Res (nat * list Card) :=
  k ← the (three (rweight r));
  three ← list_filter (λ card, CardM.eq card k) init;
  items ← ComboCards.get_other_cards three init;
  Ok (THREE_OF_A_KIND, items).

Definition get_two_pairs (init : list Card) (r : Repeats) : Res (nat * list Card) :=
  ks ← the (double_two (rweight r));
  pairs ← list_filter (λ card, list_contains card ks) init;
  items ← ComboCards.get_other_cards (drop 2 pairs ++ take 2 pairs) init;
  Ok (TWO_PAIRS, items).

Definition get_one_pair (init : list Card) (r : Repeats) : Res (nat * list Card) :=
  k ← the (two (rweight r));
  pair ← list_filter (λ card, CardM.eq card k) init;
  items ← ComboCards.get_other_cards pair init;
  Ok (ONE_PAIR, items).

Definition get_high_card (init : list Card) : Res (nat * list Card) :=
  Ok (HIGH_CARD, reverse (py_lastn 5 init)).

(** [find_combo] after [self.init_cards.sort()]: [init] is the sorted
    content of [self.init_cards]. *)
Definition find_combo_sorted (self : Combo) (init : list Card) : Res Combo :=
  r ← RepeatsM.init init;
  if five_or_more (rsuit r)
  then
    fc ← the (flush_card (rsuit r));
    cards ← list_filter (λ card, CardM.eq card fc) init;
    s ← SequenceM.init cards;
    '(t, items) ← (if five_in_a_row s then get_straight_flush s else get_flush s);
    Ok (set_combo self r s t items)
  else
    s ← SequenceM.init init;
    '(t, items) ←
      (if truthy (four (rweight r)) then get_four_of_a_kind init r
       else if truthy (three (rweight r)) && truthy (two (rweight r))
       then get_full_house init r
       else if five_in_a_row s then get_straight s
       else if truthy (three (rweight r)) then get_three_of_a_kind init r
       else if truthy_list (double_two (rweight r)) then get_two_pairs init r
       else if truthy (two (rweight r)) then get_one_pair init r
       else get_high_card init);
    Ok (set_combo self r s t items).

(** [find_combo]: the list at [self.init_cards] is sorted in place. *)
Definition find_combo (self : Combo) (σ : store) : Res (Combo * store) :=
  s ← list_sort (load (init_cards self) σ);
  let σ' := <[init_cards self := s]> σ in
  c ← find_combo_sorted self s;
  Ok (c, σ').

Definition any_in_hand (cards : list Card) : bool := existsb in_hand cards.

(** [half_nominal_finder]. *)
Definition half_nominal_finder (self : Combo) (card_set : list Card * list Card) : Combo :=
  let combo_cards_in_hand :=
    (if any_in_hand (fst card_set) then 1 else 0)
    + (if any_in_hand (snd card_set) then 1 else 0) in
  if combo_cards_in_hand =? 2
  then mkCombo (cards self) (init_cards self) (repeats self) (sequence self)
         (type self) true (is_nominal self) (is_half_nominal self)
  else if combo_cards_in_hand =? 1
  then mkCombo (cards self) (init_cards self) (repeats self) (sequence self)
         (type self) (is_real self) (is_nominal self) true
  else mkCombo (cards self) (init_cards self) (repeats self) (sequence self)
         (type self) (is_real self) true (is_half_nominal self).

(** [check_nominal_combo]. *)
Definition check_nominal_combo (self : Combo) (σ : store) : Res Combo :=
  let init := load (init_cards self) σ in
  if bool_decide (type self = Some FULL_HOUSE) then
    r ← the (repeats self);
    k3 ← the (three (rweight r));
    three ← list_filter (λ card, CardM.eq card k3) init;
    k2 ← the (two (rweight r));
    two ← list_filter (λ card, CardM.eq card k2) init;
    Ok (half_nominal_finder self (three, two))
  else if bool_decide (type self = Some TWO_PAIRS) then
    Ok (half_nominal_finder self (take 2 (cards self), take 2 (drop 2 (cards self))))
  else
    let cs :=
      if bool_decide (type self = Some FOUR_OF_A_KIND) then take 4 (cards self)
      else if bool_decide (type self = Some THREE_OF_A_KIND) then take 3 (cards self)
      else if bool_decide (type self = Some ONE_PAIR) then take 2 (cards self)
      else cards self in
    if any_in_hand cs
    then Ok (mkCombo (cards self) (init_cards self) (repeats self) (sequence self)
               (type self) true (is_nominal self) (is_half_nominal self))
    else Ok (mkCombo (cards self) (init_cards self) (repeats self) (sequence self)
               (type self) (is_real self) true (is_half_nominal self)).

(** [Combo.__init__]. An argument that is absent or falsy is [None]; an
    empty [cards_string] is falsy. *)
Definition init (cards_string : option string) (cards table hand : option CardsObj)
    (nominal_check : bool) (σ : store) : Res (Combo * store) :=
  '(a, σ1, nominal_check_needed) ←
    match cards_string, cards, table, hand with
    | Some (String c s), _, _, _ =>
        '(o, σ1) ← CardsM.init (Some (String c s)) σ;
        Ok (items o, σ1, false)
    | _, Some o, _, _ =>
        if bool_decide (cls o = ClsCards) then Ok (items o, σ, false)
        else Raise ComboCardsTypeError
    | _, _, Some t, Some h =>
        if bool_decide (cls t = ClsTable) then
          if bool_decide (cls h = ClsHand) then
            let '(a, σ1) := alloc (load (items t) σ ++ load (items h) σ) σ in
            Ok (a, σ1, nominal_check)
          else Raise ComboCardsTypeError
        else Raise ComboCardsTypeError
    | _, _, _, _ => Raise ComboArgumentsError
    end;
  '(c, σ2) ← find_combo (new a) σ1;
  if (nominal_check_needed : bool)
  then c' ← check_nominal_combo c σ2; Ok (c', σ2)
  else Ok (c, σ2).

(** The comparison of [(self.type, self.cards)] with
    [(other.type, other.cards)] as Python compares tuples: the first
    component that is not [==] decides. *)
Definition lt (self other : Combo) : Res bool :=
  if bool_decide (type self = type other) then
    e ← ComboCards.eq (cards self) (cards other);
    if (e : bool) then Ok false else ComboCards.lt (cards self) (cards other)
  else
    match type self, type other with
    | Some t1, Some t2 => Ok (t1 <? t2)
    | _, _ => Raise TypeError
    end.

Definition gt (self other : Combo) : Res bool :=
  if bool_decide (type self = type other) then
    e ← ComboCards.eq (cards self) (cards other);
    if (e : bool) then Ok false else ComboCards.gt (cards self) (cards other)
  else
    match type self, type other with
    | Some t1, Some t2 => Ok (t2 <? t1)
    | _, _ => Raise TypeError
    end.

Definition eq (self other : Combo) : Res bool :=
  if bool_decide (type self = type other) then
    ComboCards.eq (cards self) (cards other)
  else Ok false.

Definition ne (self other : Combo) : Res bool :=
  if bool_decide (type self = type other) then
    e ← ComboCards.eq (cards self) (cards other);
    Ok (negb e)
  else Ok true.

End ComboM.


(** ** Pure views used by the statements

    On cards that carry what the engine reads, every comparison succeeds;
    the definitions below are the values those comparisons compute. *)

Definition has_weight (c : Card) : Prop := is_Some (weight c).
Definition concrete (c : Card) : Prop := is_Some (weight c) ∧ is_Some (suit c).

(** The numeric value of a card's weight. *)
Definition wnum (c : Card) : nat := from_option WeightM.number 0 (weight c).

(** The abstract cards the repetition analyser uses as keys. *)
Definition wkey (w : Weight) : Card := mkCard (Some w) None false.
Definition skey (s : Suit) : Card := mkCard None (Some s) false.

(** The cards of [l] with the weight number [n], with the suit [s]. *)
Definition of_weight (n : nat) (l : list Card) : list Card :=
  filter (λ c, wnum c = n) l.
Definition not_of_weight (n : nat) (l : list Card) : list Card :=
  filter (λ c, wnum c ≠ n) l.
Definition of_suit (s : Suit) (l : list Card) : list Card :=
  filter (λ c, suit c = Some s) l.

(** The stable insertion sort by weight number. *)
Fixpoint psort_insert (x : Card) (s : list Card) : list Card :=
  match s with
  | [] => [x]
  | y :: s' => if wnum y <? wnum x then y :: psort_insert x s' else x :: s
  end.

Fixpoint psort (l : list Card) : list Card :=
  match l with
  | [] => []
  | x :: l' => psort_insert x (psort l')
  end.

(** Ascending and descending by weight. *)
Definition ascending (l : list Card) : Prop :=
  StronglySorted (λ a b, wnum a ≤ wnum b) l.
Definition descending (l : list Card) : Prop :=
  StronglySorted (λ a b, wnum b ≤ wnum a) l.
Definition strictly_descending (l : list Card) : Prop :=
  StronglySorted (λ a b, wnum b < wnum a) l.

(** What distinguishes two cards of a deck. *)
Definition card_key (c : Card) : option Weight * option Suit := (weight c, suit c).

(** A valid card group: 5 to 7 distinct cards, each with a weight and a
    suit. *)
Definition valid_group (l : list Card) : Prop :=
  5 ≤ length l ≤ 7 ∧ Forall concrete l ∧ NoDup (card_key <$> l).

#[global] Instance has_weight_dec c : Decision (has_weight c).
Proof. unfold has_weight. apply _. Defined.
#[global] Instance concrete_dec c : Decision (concrete c).
Proof. unfold concrete. apply _. Defined.
#[global] Instance valid_group_dec l : Decision (valid_group l).
Proof. unfold valid_group. apply _. Defined.

(** [Combo(cards=cs)] for a [Cards] object [cs] whose items are [l]. *)
Definition combo_of_cards (l : list Card) : Res Combo :=
  r ← ComboM.init None (Some (mkCardsObj ClsCards 0)) None None false {[0 := l]};
  Ok r.1.

(** The keys of the repetition analyser: for a card, its abstract weight
    card and its abstract suit card. *)
Definition wkey_of (c : Card) : Card := mkCard (weight c) None false.
Definition skey_of (c : Card) : Card := mkCard None (suit c) false.

(** How many cards of [cards] have the key [k]. *)
Definition key_count (key_of : Card → Card) (cards : list Card) (k : Card) : nat :=
  length (filter (λ c, key_of c = k) cards).

(** The distinct keys of [cards], in the order of their first occurrence. *)
Definition nub_add (acc : list Card) (k : Card) : list Card :=
  if decide (k ∈ acc) then acc else acc ++ [k].

Definition keys_seen (key_of : Card → Card) (cards : list Card) : list Card :=
  foldl nub_add [] (key_of <$> cards).

(** The keys that occur exactly [n] times: the content of [all[n]]. *)
Definition with_count (key_of : Card → Card) (cards : list Card) (n : nat) : list Card :=
  filter (λ k, key_count key_of cards k = n) (keys_seen key_of cards).

(** A dictionary entry exists exactly for a non-empty list. *)
Definition nonempty {A : Type} (l : list A) : option (list A) :=
  match l with [] => None | _ => Some l end.

Definition is_wkey (k : Card) : Prop := ∃ w, k = wkey w.
Definition is_skey (k : Card) : Prop := ∃ s, k = skey s.

(** The invariant of one [BaseRepeats] during [get_all_repeats]: [cards]
    holds keys of one kind, and [all[n]] lists those of them that occur
    [n] times. *)
Definition rep_inv (cards : list Card) (isK : Card → Prop) (key_of : Card → Card)
    (b : BaseRepeats) : Prop :=
  Forall isK (rep_cards b) ∧
  ∀ n, rep_all b !! n
       = nonempty (filter (λ k, key_count key_of cards k = n) (rep_cards b)).

(** How many cards of [l] have the weight number [n], the suit [s]. *)
Definition wcount (l : list Card) (n : nat) : nat := length (of_weight n l).
Definition scount (l : list Card) (s : Suit) : nat := length (of_suit s l).

(** What [get_repeat_kind] leaves in the fields of a [WeightRepeats], given
    the lists [all[4]], [all[3]] and [all[2]] (empty when the key is
    absent). *)
Definition kind_spec (L4 L3 L2 : list Card) (wr : WeightRepeats) : Prop :=
  match L4 with
  | k :: _ =>
      four wr = Some k ∧ three wr = None ∧ two wr = None ∧ double_two wr = None
  | [] =>
      four wr = None ∧
      match L3 with
      | _ :: _ =>
          three wr = last L3 ∧ double_two wr = None ∧
          two wr = (if decide (length L3 = 2) then head L3 else last L2)
      | [] =>
          three wr = None ∧
          (if decide (1 < length L2)
           then two wr = None ∧ double_two wr = Some (py_lastn 2 L2)
           else two wr = last L2 ∧ double_two wr = None)
      end
  end.

(** What [flush_or_not] leaves in the fields of a [SuitRepeats]. *)
Definition flush_spec (cards : list Card) (sr : SuitRepeats) : Prop :=
  ∃ st, flush_card sr = Some (skey st) ∧
        scount cards st = max_repeats sr ∧
        (∀ st', scount cards st' ≤ max_repeats sr) ∧
        five_or_more sr = (5 <=? max_repeats sr).

(** ** Pure views of the sequence analyser *)

(** The ['1'] card [one_more_ace] creates from the ace [ace]. *)
Definition low_ace (ace : Card) : Card := mkCard (Some W1) (suit ace) (in_hand ace).

(** The card list of a [Sequence] after [__init__]: the low ace of the last
    ace, if there is an ace, then the cards. *)
Definition with_low_ace (cards : list Card) : list Card :=
  match last (of_weight 13 cards) with
  | Some ace => low_ace ace :: cards
  | None => cards
  end.

Definition abstract_rank : list Card :=
  (λ w, mkCard (Some w) None false) <$> WeightM.all.

Definition fill (rank cards : list Card) : list Card :=
  foldl (λ r c, <[wnum c := c]> r) rank cards.

(** The value of [get_rank()]. *)
Definition rank_of (cards : list Card) : list Card :=
  reverse (fill abstract_rank cards).

(** Which entries of a rank are real cards. *)
Definition mask_of (rank : list Card) : list bool :=
  (λ c, bool_decide (is_Some (suit c))) <$> rank.

(** The loop of [find_order] on the mask alone: the base of the five in a
    row it stops at. *)
Fixpoint scan (mask : list bool) (idx : list nat) (base row : nat) : option nat :=
  match idx with
  | [] => None
  | i :: idx' =>
      match mask !! i with
      | Some true => if S row =? 5 then Some base else scan mask idx' base (S row)
      | Some false => scan mask idx' (i + 1) 0
      | None => None
      end
  end.

(** The first index at which five consecutive entries are set. *)
Definition run_at (mask : list bool) (b : nat) : bool :=
  forallb (λ j, default false (mask !! (b + j))) (seq 0 5).

Definition first_run (mask : list bool) : option nat :=
  List.find (run_at mask) (seq 0 10).

(** [order_cards] for a sequence over [cards]. *)
Definition run_of (cards : list Card) : option (list Card) :=
  (λ b, take 5 (drop b (rank_of cards))) <$> first_run (mask_of (rank_of cards)).

Fixpoint all_masks (n : nat) : list (list bool) :=
  match n with
  | 0 => [[]]
  | S n' => (cons true <$> all_masks n') ++ (cons false <$> all_masks n')
  end.

(** ** Pure view of the selector *)

(** The cards of [all_cards] whose weight is not among those of [self]. *)
Definition others (self all_cards : list Card) : list Card :=
  filter (λ c, wnum c ∉ wnum <$> self) all_cards.

(** [self] after [get_other_cards(all_cards)]. *)
Definition with_kickers (self all_cards : list Card) : list Card :=
  self ++ py_take (5 - Z.of_nat (length self)) (reverse (others self all_cards)).

(** The cards of [l] whose weight is that of one of the keys [ks]. *)
Definition of_weights (ks l : list Card) : list Card :=
  filter (λ c, wnum c ∈ wnum <$> ks) l.

(** The type and the items [find_combo] chooses from the sorted cards
    [s], given the repetition and sequence analyses. *)
Definition selected (s : list Card) (r : Repeats) (sq : Sequence)
    (t : nat) (items : list Card) : Prop :=
  if five_or_more (rsuit r) then
    ∃ st, flush_card (rsuit r) = Some (skey st) ∧
      SequenceM.init (of_suit st s) = Ok sq ∧
      seq_cards sq = with_low_ace (of_suit st s) ∧
      order_cards sq = run_of (with_low_ace (of_suit st s)) ∧
      match run_of (with_low_ace (of_suit st s)) with
      | Some oc => t = STRAIGHT_FLUSH ∧ items = oc
      | None => t = FLUSH ∧ items = reverse (py_lastn 5 (with_low_ace (of_suit st s)))
      end
  else
    SequenceM.init s = Ok sq ∧
    seq_cards sq = with_low_ace s ∧
    order_cards sq = run_of (with_low_ace s) ∧
    match four (rweight r) with
    | Some k => t = FOUR_OF_A_KIND ∧ items = with_kickers (of_weight (wnum k) s) s
    | None =>
      match three (rweight r), two (rweight r) with
      | Some k3, Some k2 =>
          t = FULL_HOUSE ∧
          items = of_weight (wnum k3) s ++ take 2 (of_weight (wnum k2) s)
      | o3, o2 =>
        match run_of (with_low_ace s) with
        | Some oc => t = STRAIGHT ∧ items = oc
        | None =>
          match o3 with
          | Some k3 =>
              t = THREE_OF_A_KIND ∧ items = with_kickers (of_weight (wnum k3) s) s
          | None =>
            match double_two (rweight r) with
            | Some (k :: ks) =>
                t = TWO_PAIRS ∧
                items = with_kickers (drop 2 (of_weights (k :: ks) s)
                                      ++ take 2 (of_weights (k :: ks) s)) s
            | _ =>
              match o2 with
              | Some k2 =>
                  t = ONE_PAIR ∧ items = with_kickers (of_weight (wnum k2) s) s
              | None => t = HIGH_CARD ∧ items = reverse (py_lastn 5 s)
              end
            end
          end
        end
      end
    end.

(** ** The outcomes of the selector on a valid group

    [nf s t items]: on the sorted valid group [s] the selector answers the
    type [t] with the items [items]; each case records the conditions the
    selector has decided it by. *)

Definition no_flush (s : list Card) : Prop := ∀ st, scount s st < 5.

Inductive nf (s : list Card) : nat → list Card → Prop :=
| nf_straight_flush st items :
    5 ≤ scount s st →
    run_of (with_low_ace (of_suit st s)) = Some items →
    nf s STRAIGHT_FLUSH items
| nf_flush st :
    5 ≤ scount s st →
    run_of (with_low_ace (of_suit st s)) = None →
    nf s FLUSH (reverse (py_lastn 5 (of_suit st s)))
| nf_four a :
    no_flush s → wcount s a = 4 →
    nf s FOUR_OF_A_KIND (of_weight a s ++ take 1 (reverse (not_of_weight a s)))
| nf_full_house a b :
    no_flush s → (∀ n, wcount s n ≠ 4) →
    wcount s a = 3 → (∀ n, wcount s n = 3 → n ≤ a) →
    (wcount s b = 3 ∧ b < a ∨
     (∀ n, wcount s n = 3 → n = a) ∧ wcount s b = 2 ∧ ∀ n, wcount s n = 2 → n ≤ b) →
    nf s FULL_HOUSE (of_weight a s ++ take 2 (of_weight b s))
| nf_straight items :
    no_flush s → (∀ n, wcount s n ≠ 4) →
    (∀ x y, wcount s x = 3 → 2 ≤ wcount s y → x = y) →
    run_of (with_low_ace s) = Some items →
    nf s STRAIGHT items
| nf_three a :
    no_flush s → run_of (with_low_ace s) = None →
    wcount s a = 3 → (∀ n, n ≠ a → wcount s n ≤ 1) →
    nf s THREE_OF_A_KIND (of_weight a s ++ take 2 (reverse (not_of_weight a s)))
| nf_two_pairs lo hi :
    no_flush s → run_of (with_low_ace s) = None →
    (∀ n, wcount s n ≤ 2) → lo < hi →
    wcount s lo = 2 → wcount s hi = 2 →
    (∀ n, wcount s n = 2 → n = hi ∨ n ≤ lo) →
    nf s TWO_PAIRS
      (of_weight hi s ++ of_weight lo s
       ++ take 1 (reverse (filter (λ c, wnum c ≠ hi ∧ wnum c ≠ lo) s)))
| nf_one_pair a :
    no_flush s → run_of (with_low_ace s) = None →
    wcount s a = 2 → (∀ n, n ≠ a → wcount s n ≤ 1) →
    nf s ONE_PAIR (of_weight a s ++ take 3 (reverse (not_of_weight a s)))
| nf_high_card :
    no_flush s → run_of (with_low_ace s) = None →
    (∀ n, wcount s n ≤ 1) →
    nf s HIGH_CARD (reverse (py_lastn 5 s)).

(** ** The order of the cards of a combination *)

(** The sizes of the groups of combination-defining cards, by type: the
    cards the contribution pass inspects. *)
Definition defining_shape (t : nat) : list nat :=
  if decide (t = FOUR_OF_A_KIND) then [4]
  else if decide (t = FULL_HOUSE) then [3; 2]
  else if decide (t = THREE_OF_A_KIND) then [3]
  else if decide (t = TWO_PAIRS) then [2; 2]
  else if decide (t = ONE_PAIR) then [2]
  else [5].

Definition same_weight (g : list Card) : Prop :=
  ∃ n, Forall (λ c, wnum c = n) g.

(** [items] is the defining groups, each descending by weight, followed by
    the kickers, descending; the groups of a combination made of repeated
    weights each hold one weight. *)
Definition well_ordered (t : nat) (items : list Card) : Prop :=
  ∃ groups kickers,
    items = concat groups ++ kickers ∧
    length <$> groups = defining_shape t ∧
    Forall descending groups ∧
    descending kickers ∧
    (length (defining_shape t) = 1 ∧ defining_shape t = [5] ∨ Forall same_weight groups).

(** ** Concrete cards for the examples *)

(** A dealt card that is not in a hand. *)
Definition card (w : Weight) (s : Suit) : Card := mkCard (Some w) (Some s) false.

(** ['6s/Jc/Ah/9h/3d/Jd'], the group of the class documentation. *)
Definition doc_group : list Card :=
  [card W6 Ss; card WJ Sc; card WA Sh; card W9 Sh; card W3 Sd; card WJ Sd].

(** Two flushes of the same weights in different suits, as the selector
    reports them. *)
Definition flush_in (s : Suit) : Combo :=
  mkCombo [card WA s; card WJ s; card W9 s; card W6 s; card W3 s]
    0 None None (Some FLUSH) false false false.

(** [Combo(cards_string)] in an empty store: the type and the cards. *)
Definition classify_string (s : string) : Res (option nat * list Card) :=
  '(c, _) ← ComboM.init (Some s) None None None false ∅;
  Ok (type c, cards c).

(** [cs = Cards(cards_string); Combo(cards=cs)]: the items of [cs] before
    and after the combination is built. *)
Definition items_before_and_after (cards_string : string)
  : Res (list Card * list Card) :=
  '(o, σ) ← CardsM.init (Some cards_string) ∅;
  '(_, σ') ← ComboM.init None (Some o) None None false σ;
  Ok (load (items o) σ, load (items o) σ').

(** [Table(table_string)] and [Hand(hand_string)] in an empty store. *)
Definition deal (table_string hand_string : string)
  : Res (CardsObj * CardsObj * gmap nat (list Card)) :=
  '(t, σ1) ← TableM.init (Some table_string) ∅;
  '(h, σ2) ← HandM.init (Some hand_string) σ1;
  Ok (t, h, σ2).

(** ['As/As/As/As/As'] as a list of cards. *)
Definition five_aces : list Card := replicate 5 (card WA Ss).

(** ['3c/3d/3h/7c/7d/7h/2s']: two triples in seven cards. *)
Definition two_triples : list Card :=
  [card W3 Sc; card W3 Sd; card W3 Sh; card W7 Sc; card W7 Sd; card W7 Sh; card W2 Ss].

(** ** Runs and top cards, as the spec words them *)

(** The weight number [n] occurs among [cs]; an ace also counts as the
    lowest weight. *)
Definition present (cs : list Card) (n : nat) : bool :=
  bool_decide (n ∈ wnum <$> cs)
  || (bool_decide (n = 0) && bool_decide (13 ∈ wnum <$> cs)).

(** [cs] contains five consecutive weights. *)
Definition has_run (cs : list Card) : bool :=
  existsb (λ lo, forallb (λ j, present cs (lo + j)) (seq 0 5)) (seq 0 10).

(** [items] is the five highest cards of [pool], descending by weight. *)
Definition top_five (pool items : list Card) : Prop :=
  length items = 5 ∧ strictly_descending items ∧ items ⊆+ pool ∧
  ∀ x y, x ∈ pool → x ∉ items → y ∈ items → wnum x < wnum y.

(** ['2s/9s/Ks/5s/Jd/3s/7c']: five spades without a run. *)
Definition five_spades : list Card :=
  [card W2 Ss; card W9 Ss; card WK Ss; card W5 Ss; card WJ Sd; card W3 Ss; card W7 Sc].

(** ['5s/Kd/2c/As/9c/4h/3d'] with the ace dealt to the hand: the wheel. *)
Definition wheel_group : list Card :=
  [card W5 Ss; card WK Sd; card W2 Sc; mkCard (Some WA) (Some Ss) true;
   card W9 Sc; card W4 Sh; card W3 Sd].

(** A straight from six down, as the selector reports it. *)
Definition six_high_straight : Combo :=
  mkCombo [card W6 Sd; card W5 Sc; card W4 Sd; card W3 Sh; card W2 Ss]
    0 None None (Some STRAIGHT) false false false.

(** The three contribution flags of a combination. *)
Definition flags (c : Combo) : bool * bool * bool :=
  (is_real c, is_half_nominal c, is_nominal c).


(** * More of [thpoker/core.py] *)

(** ** [Deck] *)

(** The exceptions of [Deck.push_cards], and [IndexError] for a
    [list.pop] out of range. *)
Inductive DeckExc : Type :=
| DeckCountTypeError | DeckCountNumberError | DeckIndexError.

Inductive DRes (A : Type) : Type :=
| DOk (a : A)
| DRaise (e : DeckExc).
Arguments DOk {A} a.
Arguments DRaise {A} e.

Module DeckM.

(** [Card.Weight.symbols[1:]] and [Card.Suit.symbols], symbol by symbol. *)
Definition weight_symbols : list ascii :=
  drop 1 (list_ascii_of_string WeightM.symbols).
Definition suit_symbols : list ascii := list_ascii_of_string SuitM.symbols.

(** [refresh]: [[Card(w + s) for w in Card.Weight.symbols[1:]
    for s in Card.Suit.symbols]]. *)
Definition refresh : Res (list Card) :=
  list_mapM CardM.init
    (concat ((λ w, (λ s, String w (String s EmptyString)) <$> suit_symbols)
             <$> weight_symbols)).

(** The loop of [push_cards], run to its end as [list(...)] does:
    [choices] holds the values [random.choice(range(len(self.cards)))]
    takes, one for each card, and [self.cards.pop(i)] removes the card at
    [i]. The result is the cards yielded and the cards left. *)
Fixpoint pop_cards (choices : list nat) (cards : list Card)
  : DRes (list Card * list Card) :=
  match choices with
  | [] => DOk ([], cards)
  | i :: rest =>
      match cards !! i with
      | None => DRaise DeckIndexError
      | Some c =>
          match pop_cards rest (delete i cards) with
          | DOk (out, cards') => DOk (c :: out, cards')
          | DRaise e => DRaise e
          end
      end
  end.

(** [push_cards(count)] for an [int] count. *)
Definition push_cards (count : Z) (choices : list nat) (cards : list Card)
  : DRes (list Card * list Card) :=
  if ((count <? 1) || (Z.of_nat (length cards) <? count))%Z
  then DRaise DeckCountNumberError
  else pop_cards (take (Z.to_nat count) choices) cards.

End DeckM.

(** ** [Hand] with its [type] and [is_pair] *)

(** A [Hand] object: its items, [type], [is_pair], and the attribute
    [pair] that [clean] creates. *)
Record HandObj : Type := mkHand {
  h_items : list Card;
  h_type : string;
  h_is_pair : bool;
  h_pair : option bool
}.

Module HandS.

(** [x.suit == y.suit] for suits that may be [None]. *)
Definition suits_eq (s1 s2 : option Suit) : Res bool :=
  match s1, s2 with
  | Some a, Some b => Ok (SuitM.eq a b)
  | None, None => Ok true
  | _, _ => Raise AttributeError
  end.

(** [typing]. [self.items[0].weight.symbol] is read before
    [self.items[1]]. *)
Definition typing (self : HandObj) : Res HandObj :=
  s ← list_sort (h_items self);
  let items := reverse s in
  match items with
  | [] => Raise IndexError
  | c0 :: rest =>
      match weight c0 with
      | None => Raise AttributeError
      | Some w0 =>
          match rest with
          | [] => Raise IndexError
          | c1 :: _ =>
              match weight c1 with
              | None => Raise AttributeError
              | Some w1 =>
                  let t := String (WeightM.symbol w0)
                             (String (WeightM.symbol w1) EmptyString) in
                  if WeightM.eq w0 w1
                  then Ok (mkHand items t true (h_pair self))
                  else
                    e ← suits_eq (suit c0) (suit c1);
                    Ok (mkHand items (t +:+ (if (e : bool) then "s" else "o"))
                          (h_is_pair self) (h_pair self))
              end
          end
      end
  end.

(** [card.in_hand = True]. *)
Definition mark (c : Card) : Card := mkCard (weight c) (suit c) true.

(** [post_get_cards]. *)
Definition post_get_cards (self : HandObj) : Res HandObj :=
  typing (mkHand (mark <$> h_items self)
            (h_type self) (h_is_pair self) (h_pair self)).

(** [Hand.__init__]. *)
Definition init (cards_string : option string) : Res HandObj :=
  l ← CardsM.parse cards_string 2;
  let self := mkHand l EmptyString false None in
  match l with
  | [] => Ok self
  | _ => post_get_cards self
  end.

(** [get_cards(deck)]: two cards are taken from the deck, then
    [post_get_cards] runs. The deck has lost the two cards even when
    [post_get_cards] raises. *)
Definition get_cards (self : HandObj) (choices : list nat) (deck : list Card)
  : DRes (Res HandObj * list Card) :=
  match DeckM.push_cards 2 choices deck with
  | DOk (out, deck') =>
      DOk (post_get_cards (mkHand out (h_type self) (h_is_pair self) (h_pair self)),
           deck')
  | DRaise e => DRaise e
  end.

(** [clean]: the items and the type are emptied; [False] is written to
    [self.pair], not to [self.is_pair]. *)
Definition clean (self : HandObj) : HandObj :=
  mkHand [] EmptyString (h_is_pair self) (Some false).

End HandS.

(** ** [Combo.name] *)

Definition TYPE_NAMES : list (nat * string) :=
  [(HIGH_CARD, "high card"); (ONE_PAIR, "one pair"); (TWO_PAIRS, "two pairs");
   (THREE_OF_A_KIND, "three of a kind"); (STRAIGHT, "straight");
   (FLUSH, "flush"); (FULL_HOUSE, "full house");
   (FOUR_OF_A_KIND, "four of a kind"); (STRAIGHT_FLUSH, "straight flush")]%string.

Fixpoint assoc_lookup (k : nat) (d : list (nat * string)) : Res string :=
  match d with
  | [] => Raise KeyError
  | (k', v) :: d' => if k =? k' then Ok v else assoc_lookup k d'
  end.

(** [self.TYPE_NAMES[self.type]]. *)
Definition Combo_name (self : Combo) : Res string :=
  match type self with
  | Some t => assoc_lookup t TYPE_NAMES
  | None => Raise KeyError
  end.

(** ** Auxiliary definitions for the further properties *)

(** The weights at the first position where two lists differ. *)
Fixpoint first_diff (l1 l2 : list nat) : option (nat * nat) :=
  match l1, l2 with
  | x :: l1', y :: l2' => if decide (x = y) then first_diff l1' l2' else Some (x, y)
  | _, _ => None
  end.

(** The weight numbers of the cards of a combination. *)
Definition weights_of (c : Combo) : list nat := wnum <$> cards c.

(** Values [random.choice] can return during [count] pops from a list of
    [n] cards: each is an index into what is left. *)
Fixpoint in_range (choices : list nat) (n : nat) : Prop :=
  match choices with
  | [] => True
  | i :: rest => i < n ∧ in_range rest (n - 1)
  end.

(** Exactly one of three booleans holds. *)
Definition exactly_one (a b c : bool) : Prop :=
  (a, b, c) = (true, false, false) ∨ (a, b, c) = (false, true, false)
  ∨ (a, b, c) = (false, false, true).

(** The fifty-two cards: every weight but ['1'] with every suit. *)
Definition standard_deck : list Card :=
  concat ((λ w, (λ s, card w s) <$> [Sc; Sd; Sh; Ss])
          <$> [W2; W3; W4; W5; W6; W7; W8; W9; WT; WJ; WQ; WK; WA]).

(** ['2c/3d/4h/5s/6c/7d']: two overlapping runs. *)
Definition two_straights : list Card :=
  [card W2 Sc; card W3 Sd; card W4 Sh; card W5 Ss; card W6 Sc; card W7 Sd].

(** The symbol of the weight of a card, ['X'] if it has none. *)
Definition weight_symbol (c : Card) : ascii :=
  match weight c with Some w => WeightM.symbol w | None => "X"%char end.

(** The suffix of a hand type: nothing for a pair, ['s'] for two cards of
    one suit, ['o'] otherwise. *)
Definition type_suffix (hi lo : Card) : string :=
  if decide (wnum hi = wnum lo) then EmptyString
  else if decide (suit hi = suit lo) then "s"%string else "o"%string.

(** A card of the group, or the '1' copy the sequence analyser makes of
    an ace of the group. *)
Definition from_group (l : list Card) (x : Card) : Prop :=
  x ∈ l ∨ ∃ ace, ace ∈ l ∧ wnum ace = 13 ∧ x = low_ace ace.

(** An argument Python takes as false: absent or the empty string. *)
Definition falsy (cs : option string) : Prop := cs = None ∨ cs = Some EmptyString.

(** ['1s/2s/3s/4s/5s/6s/7s/8s']: more fields than any group keeps. *)
Definition eight_fields : string := "1s/2s/3s/4s/5s/6s/7s/8s".


(** * Proofs *)

(** ** The error monad *)

Lemma bind_Ok {A B : Type} (f : A → Res B) (a : A) : (Ok a ≫= f) = f a.
Proof. reflexivity. Qed.

Lemma bind_Raise {A B : Type} (f : A → Res B) (e : Exc) : (Raise e ≫= f) = Raise e.
Proof. reflexivity. Qed.

Lemma bind_Ok_inv {A B : Type} (f : A → Res B) (m : Res A) (b : B) :
  (m ≫= f) = Ok b → ∃ a, m = Ok a ∧ f a = Ok b.
Proof. destruct m as [a|e]; [eauto | discriminate]. Qed.

Ltac res_simpl := repeat (rewrite ?bind_Ok, ?bind_Raise; simpl).

(** ** Comparisons of cards that carry a weight or a suit *)

Lemma has_weight_wkey w : has_weight (wkey w).
Proof. by eexists. Qed.

Lemma wnum_wkey w : wnum (wkey w) = WeightM.number w.
Proof. reflexivity. Qed.

Lemma number_inj w1 w2 : WeightM.number w1 = WeightM.number w2 → w1 = w2.
Proof. by destruct w1, w2. Qed.

Lemma number_lt w : WeightM.number w < 14.
Proof. destruct w; simpl; lia. Qed.

Lemma wnum_lt c : wnum c < 14.
Proof.
  unfold wnum. destruct (weight c) as [w|]; simpl; [apply number_lt | lia].
Qed.

Lemma concrete_has_weight c : concrete c → has_weight c.
Proof. by intros [? _]. Qed.

Lemma Forall_concrete_has_weight l : Forall concrete l → Forall has_weight l.
Proof. intros H. eapply Forall_impl; [done|]. apply concrete_has_weight. Qed.

Lemma nat_eqb_decide (a b : nat) : (a =? b) = bool_decide (a = b).
Proof.
  destruct (Nat.eqb_spec a b); [by rewrite bool_decide_eq_true_2|by rewrite bool_decide_eq_false_2].
Qed.

Lemma nat_ltb_decide (a b : nat) : (a <? b) = bool_decide (a < b).
Proof.
  destruct (Nat.ltb_spec a b); [by rewrite bool_decide_eq_true_2|rewrite bool_decide_eq_false_2; [done|lia]].
Qed.

Lemma Card_eq_weight c k :
  has_weight c → has_weight k → CardM.eq c k = Ok (bool_decide (wnum c = wnum k)).
Proof.
  intros [w1 H1] [w2 H2]. unfold CardM.eq, wnum. rewrite H1, H2. simpl.
  unfold WeightM.eq. by rewrite nat_eqb_decide.
Qed.

Lemma Card_ne_weight c k :
  has_weight c → has_weight k → CardM.ne c k = Ok (bool_decide (wnum c ≠ wnum k)).
Proof.
  intros [w1 H1] [w2 H2]. unfold CardM.ne, wnum. rewrite H1, H2. simpl.
  unfold WeightM.ne. rewrite nat_eqb_decide. f_equal.
  by rewrite bool_decide_not.
Qed.

Lemma Card_lt_weight c k :
  has_weight c → has_weight k → CardM.lt c k = Ok (bool_decide (wnum c < wnum k)).
Proof.
  intros [w1 H1] [w2 H2]. unfold CardM.lt, wnum. rewrite H1, H2. simpl.
  unfold WeightM.lt. by rewrite nat_ltb_decide.
Qed.

Lemma Card_gt_weight c k :
  has_weight c → has_weight k → CardM.gt c k = Ok (bool_decide (wnum k < wnum c)).
Proof.
  intros [w1 H1] [w2 H2]. unfold CardM.gt, wnum. rewrite H1, H2. simpl.
  unfold WeightM.gt. by rewrite nat_ltb_decide.
Qed.

Lemma Suit_eq_decide s1 s2 : SuitM.eq s1 s2 = bool_decide (s1 = s2).
Proof. by destruct s1, s2. Qed.

Lemma Card_eq_skey c st :
  is_Some (suit c) → CardM.eq c (skey st) = Ok (bool_decide (suit c = Some st)).
Proof.
  intros [s Hs]. unfold CardM.eq. rewrite Hs. simpl.
  destruct (weight c); rewrite Suit_eq_decide; f_equal; apply bool_decide_ext; naive_solver.
Qed.

Lemma Card_eq_skey_skey s1 s2 :
  CardM.eq (skey s1) (skey s2) = Ok (bool_decide (skey s1 = skey s2)).
Proof. by destruct s1, s2. Qed.

Lemma Card_eq_wkey_wkey w1 w2 :
  CardM.eq (wkey w1) (wkey w2) = Ok (bool_decide (wkey w1 = wkey w2)).
Proof. by destruct w1, w2. Qed.

Lemma Card_init_weight_symbol w :
  CardM.init (CardM.str1 (WeightM.symbol w)) = Ok (wkey w).
Proof. by destruct w. Qed.

Lemma Card_init_suit_symbol s :
  CardM.init (CardM.str1 (SuitM.symbol s)) = Ok (skey s).
Proof. by destruct s. Qed.

Lemma Card_init_low_ace s :
  CardM.init (CardM.str1 "1" +:+ CardM.str1 (SuitM.symbol s))
  = Ok (mkCard (Some W1) (Some s) false).
Proof. by destruct s. Qed.

(** ** [filter], [count], [in] and [sort] on such cards *)

Lemma list_filter_pure (f : Card → Res bool) (P : Card → Prop)
    `{!∀ c, Decision (P c)} (Q : Card → Prop) l :
  (∀ c, Q c → f c = Ok (bool_decide (P c))) →
  Forall Q l →
  list_filter f l = Ok (filter P l).
Proof.
  intros Hf. induction 1 as [|c l Hc Hl IH]; [done|].
  simpl. rewrite (Hf c Hc), IH. res_simpl.
  rewrite filter_cons. by case_bool_decide; case_decide.
Qed.

Lemma list_filter_eq_weight k l :
  has_weight k → Forall has_weight l →
  list_filter (λ card, CardM.eq card k) l = Ok (of_weight (wnum k) l).
Proof.
  intros Hk Hl. apply (list_filter_pure _ _ has_weight); [|done].
  intros c Hc. by apply Card_eq_weight.
Qed.

Lemma list_filter_eq_suit st l :
  Forall concrete l →
  list_filter (λ card, CardM.eq card (skey st)) l = Ok (of_suit st l).
Proof.
  intros Hl. apply (list_filter_pure _ _ concrete); [|done].
  intros c [_ Hc]. by apply Card_eq_skey.
Qed.

Lemma list_count_pure (P : Card → Prop) `{!∀ c, Decision (P c)}
    (Q : Card → Prop) k l :
  (∀ c, Q c → CardM.eq c k = Ok (bool_decide (P c))) →
  Forall Q l →
  list_count l k = Ok (length (filter P l)).
Proof.
  intros Hf. induction 1 as [|c l Hc Hl IH]; [done|].
  simpl. rewrite (Hf c Hc), IH. res_simpl.
  rewrite filter_cons. by case_bool_decide; case_decide.
Qed.

Lemma list_contains_pure (Q : Card → Prop) k l :
  (∀ c, Q c → CardM.eq k c = Ok (bool_decide (k = c))) →
  Forall Q l →
  list_contains k l = Ok (bool_decide (k ∈ l)).
Proof.
  intros Hf. induction 1 as [|c l Hc Hl IH]; [done|].
  simpl. rewrite (Hf c Hc). res_simpl. destruct (decide (k = c)) as [E|E].
  - rewrite (bool_decide_eq_true_2 _ E). subst.
    by rewrite bool_decide_eq_true_2 by apply list_elem_of_here.
  - rewrite (bool_decide_eq_false_2 _ E), IH. f_equal.
    apply bool_decide_ext. set_solver.
Qed.

Lemma list_contains_weight k l :
  has_weight k → Forall has_weight l →
  list_contains k l = Ok (bool_decide (wnum k ∈ wnum <$> l)).
Proof.
  intros Hk. induction 1 as [|c l Hc Hl IH]; [done|].
  simpl. rewrite Card_eq_weight by done. res_simpl.
  destruct (decide (wnum k = wnum c)) as [E|E].
  - rewrite (bool_decide_eq_true_2 _ E).
    rewrite bool_decide_eq_true_2; [done|]. rewrite E. apply list_elem_of_here.
  - rewrite (bool_decide_eq_false_2 _ E), IH. f_equal.
    apply bool_decide_ext. set_solver.
Qed.

Lemma sort_insert_pure x s :
  has_weight x → Forall has_weight s → sort_insert x s = Ok (psort_insert x s).
Proof.
  intros Hx. induction 1 as [|c l Hc Hl IH]; [done|].
  simpl. rewrite Card_lt_weight by done. res_simpl.
  rewrite nat_ltb_decide. case_bool_decide; [|done]. by rewrite IH.
Qed.

Lemma psort_insert_perm x s : psort_insert x s ≡ₚ x :: s.
Proof.
  induction s as [|y s IH]; [done|]. simpl.
  destruct (wnum y <? wnum x); [|done]. rewrite IH. apply Permutation_swap.
Qed.

Lemma psort_perm l : psort l ≡ₚ l.
Proof.
  induction l as [|x l IH]; [done|]. simpl.
  by rewrite psort_insert_perm, IH.
Qed.

Lemma Forall_psort (P : Card → Prop) l : Forall P l → Forall P (psort l).
Proof. intros H. by rewrite psort_perm. Qed.

Lemma list_sort_pure l : Forall has_weight l → list_sort l = Ok (psort l).
Proof.
  induction 1 as [|c l Hc Hl IH]; [done|].
  simpl. rewrite IH. res_simpl. apply sort_insert_pure; [done|].
  by apply Forall_psort.
Qed.


(** ** The stable sort *)

Lemma Forall_filter_keep (P Q : Card → Prop) `{!∀ c, Decision (P c)} l :
  Forall Q l → Forall Q (filter P l).
Proof.
  rewrite !Forall_forall. intros HQ x Hx%list_elem_of_filter. apply HQ, Hx.
Qed.

Lemma Forall_filter_self (P : Card → Prop) `{!∀ c, Decision (P c)} l :
  Forall P (filter P l).
Proof. rewrite Forall_forall. intros x Hx%list_elem_of_filter. apply Hx. Qed.

Lemma ascending_cons x l :
  ascending (x :: l) ↔ Forall (λ y, wnum x ≤ wnum y) l ∧ ascending l.
Proof.
  unfold ascending. split.
  - intros H. apply StronglySorted_inv in H. tauto.
  - intros [??]. by constructor.
Qed.

Lemma psort_insert_ascending x s : ascending s → ascending (psort_insert x s).
Proof.
  induction s as [|y s IH]; intros Hs; simpl.
  - apply ascending_cons. split; [done|constructor].
  - apply ascending_cons in Hs as [Hy Hs].
    destruct (Nat.ltb_spec (wnum y) (wnum x)) as [Hlt|Hge].
    + apply ascending_cons. split; [|by apply IH].
      rewrite psort_insert_perm. constructor; [lia|done].
    + apply ascending_cons. split.
      * constructor; [done|]. eapply Forall_impl; [exact Hy|]. simpl. lia.
      * by apply ascending_cons.
Qed.

Lemma psort_ascending l : ascending (psort l).
Proof.
  induction l as [|x l IH]; simpl; [constructor|by apply psort_insert_ascending].
Qed.

Lemma psort_insert_le x s :
  Forall (λ y, wnum x ≤ wnum y) s → psort_insert x s = x :: s.
Proof.
  destruct 1 as [|y s Hy _]; [done|]. simpl.
  destruct (Nat.ltb_spec (wnum y) (wnum x)); [lia|done].
Qed.

Lemma psort_insert_gt x s :
  Forall (λ y, wnum y < wnum x) s → psort_insert x s = s ++ [x].
Proof.
  induction 1 as [|y s Hy _ IH]; [done|]. simpl.
  destruct (Nat.ltb_spec (wnum y) (wnum x)); [by rewrite IH|lia].
Qed.

Lemma psort_id l : ascending l → psort l = l.
Proof.
  induction l as [|x l IH]; [done|]. intros [Hx Hl]%ascending_cons. simpl.
  rewrite IH by done. by apply psort_insert_le.
Qed.

Lemma psort_strictly_descending l : strictly_descending l → psort l = reverse l.
Proof.
  induction l as [|x l IH]; [done|]. intros H.
  apply StronglySorted_inv in H as [Hl Hx]. simpl.
  rewrite IH by done. rewrite reverse_cons. apply psort_insert_gt.
  by rewrite Forall_reverse.
Qed.

Lemma filter_psort_insert (P : Card → Prop) `{!∀ c, Decision (P c)} x s :
  ascending s →
  filter P (psort_insert x s)
  = if decide (P x) then psort_insert x (filter P s) else filter P s.
Proof.
  induction s as [|y s IH]; intros Hs; simpl.
  - rewrite filter_cons. by case_decide.
  - apply ascending_cons in Hs as [Hy Hs].
    destruct (Nat.ltb_spec (wnum y) (wnum x)) as [Hlt|Hge].
    + rewrite !filter_cons, IH by done.
      destruct (decide (P x)), (decide (P y)); simpl; try done.
      destruct (Nat.ltb_spec (wnum y) (wnum x)); [done|lia].
    + rewrite (filter_cons _ x). destruct (decide (P x)); [|done].
      rewrite psort_insert_le; [done|].
      apply Forall_filter_keep. constructor; [done|].
      eapply Forall_impl; [exact Hy|]. simpl. lia.
Qed.

Lemma filter_psort (P : Card → Prop) `{!∀ c, Decision (P c)} l :
  filter P (psort l) = psort (filter P l).
Proof.
  induction l as [|x l IH]; [done|]. simpl.
  rewrite filter_psort_insert by apply psort_ascending.
  rewrite filter_cons. case_decide; simpl; by rewrite IH.
Qed.

Lemma ascending_same_weight n l : Forall (λ c, wnum c = n) l → ascending l.
Proof.
  induction 1 as [|x l Hx Hl IH]; [constructor|].
  apply ascending_cons. split; [|done].
  eapply Forall_impl; [exact Hl|]. simpl. lia.
Qed.

(** Stability: the cards of one weight keep their order. *)
Lemma of_weight_psort n l : of_weight n (psort l) = of_weight n l.
Proof.
  unfold of_weight. rewrite filter_psort. apply psort_id.
  apply (ascending_same_weight n). apply Forall_filter_self.
Qed.

Lemma ascending_filter (P : Card → Prop) `{!∀ c, Decision (P c)} l :
  ascending l → ascending (filter P l).
Proof.
  induction l as [|x l IH]; [done|]. intros [Hx Hl]%ascending_cons.
  rewrite filter_cons. case_decide; [|by apply IH].
  apply ascending_cons. split; [|by apply IH]. by apply Forall_filter_keep.
Qed.

Lemma length_psort l : length (psort l) = length l.
Proof. by rewrite psort_perm. Qed.


(** ** The repetition analyser *)

Lemma nonempty_app {A : Type} (l : list A) (x : A) :
  nonempty (l ++ [x]) = Some (l ++ [x]).
Proof. by destruct l. Qed.

Lemma nonempty_Some {A : Type} (l k : list A) :
  nonempty l = Some k → l = k ∧ l ≠ [].
Proof. destruct l; [done|]. by intros [= <-]. Qed.

Lemma nonempty_None {A : Type} (l : list A) : nonempty l = None → l = [].
Proof. by destruct l. Qed.

Section add_repeat.
Variable cards : list Card.
Variable isK : Card → Prop.
Variable key_of : Card → Card.
Hypothesis eqK : ∀ k1 k2, isK k1 → isK k2 →
  CardM.eq k1 k2 = Ok (bool_decide (k1 = k2)).
Hypothesis eqC : ∀ c k, c ∈ cards → isK k →
  CardM.eq c k = Ok (bool_decide (key_of c = k)).

Lemma rep_inv_empty : rep_inv cards isK key_of RepeatsM.empty_base.
Proof. split; [constructor|]. intros n. simpl. apply lookup_empty. Qed.

Lemma list_count_key k : isK k → list_count cards k = Ok (key_count key_of cards k).
Proof.
  intros Hk. unfold key_count.
  apply (list_count_pure (λ c, key_of c = k) (λ c, c ∈ cards)).
  - intros c Hc. by apply eqC.
  - by apply Forall_forall.
Qed.

Lemma add_repeat_spec k b :
  isK k → rep_inv cards isK key_of b →
  ∃ b', RepeatsM.add_repeat cards k b = Ok b' ∧ rep_inv cards isK key_of b' ∧
        rep_cards b' = nub_add (rep_cards b) k.
Proof.
  intros Hk [HK Hall]. unfold RepeatsM.add_repeat, nub_add.
  rewrite (list_contains_pure isK) by (try done; intros; by apply eqK).
  res_simpl. destruct (decide (k ∈ rep_cards b)) as [Hin|Hin].
  - rewrite (bool_decide_eq_true_2 _ Hin). by exists b.
  - rewrite (bool_decide_eq_false_2 _ Hin), list_count_key by done. res_simpl.
    eexists. split; [done|]. split; [|done]. split; simpl.
    + apply Forall_app. split; [done|]. by constructor.
    + intros n. rewrite filter_app, filter_cons, filter_nil.
      rewrite (Hall (key_count key_of cards k)).
      destruct (decide (key_count key_of cards k = n)) as [->|Hn].
      * rewrite nonempty_app.
        destruct (nonempty _) as [l|] eqn:E.
        -- rewrite lookup_insert_eq. by apply nonempty_Some in E as [-> _].
        -- rewrite lookup_insert_eq. by apply nonempty_None in E as ->.
      * rewrite app_nil_r.
        destruct (nonempty _) as [l|] eqn:E;
          rewrite lookup_insert_ne by done; apply Hall.
Qed.

End add_repeat.

Lemma wkey_of_wkey c w : weight c = Some w → wkey_of c = wkey w.
Proof. intros H. unfold wkey_of, wkey. by rewrite H. Qed.

Lemma skey_of_skey c s : suit c = Some s → skey_of c = skey s.
Proof. intros H. unfold skey_of, skey. by rewrite H. Qed.

Lemma eq_is_wkey k1 k2 :
  is_wkey k1 → is_wkey k2 → CardM.eq k1 k2 = Ok (bool_decide (k1 = k2)).
Proof. intros [w1 ->] [w2 ->]. apply Card_eq_wkey_wkey. Qed.

Lemma eq_is_skey k1 k2 :
  is_skey k1 → is_skey k2 → CardM.eq k1 k2 = Ok (bool_decide (k1 = k2)).
Proof. intros [w1 ->] [w2 ->]. apply Card_eq_skey_skey. Qed.

Lemma eq_card_wkey (cards : list Card) c k :
  Forall concrete cards → c ∈ cards → is_wkey k →
  CardM.eq c k = Ok (bool_decide (wkey_of c = k)).
Proof.
  intros Hall Hc [w ->]. rewrite Forall_forall in Hall.
  destruct (Hall c Hc) as [[w' Hw'] _].
  rewrite Card_eq_weight by (by eexists). f_equal.
  rewrite (wkey_of_wkey c w' Hw'). unfold wnum. rewrite Hw'. simpl.
  apply bool_decide_ext. split.
  - by intros ->%number_inj.
  - by intros [= ->].
Qed.

Lemma eq_card_skey (cards : list Card) c k :
  Forall concrete cards → c ∈ cards → is_skey k →
  CardM.eq c k = Ok (bool_decide (skey_of c = k)).
Proof.
  intros Hall Hc [s ->]. rewrite Forall_forall in Hall.
  destruct (Hall c Hc) as [_ [s' Hs']].
  rewrite Card_eq_skey by (by eexists). f_equal.
  rewrite (skey_of_skey c s' Hs'), Hs'.
  apply bool_decide_ext. split; by intros [= ->].
Qed.

Lemma get_all_repeats_spec cards rest w s :
  Forall concrete cards → rest ⊆ cards →
  rep_inv cards is_wkey wkey_of w → rep_inv cards is_skey skey_of s →
  ∃ w' s', RepeatsM.get_all_repeats cards rest w s = Ok (w', s') ∧
    rep_inv cards is_wkey wkey_of w' ∧ rep_inv cards is_skey skey_of s' ∧
    rep_cards w' = foldl nub_add (rep_cards w) (wkey_of <$> rest) ∧
    rep_cards s' = foldl nub_add (rep_cards s) (skey_of <$> rest).
Proof.
  intros Hall. revert w s. induction rest as [|c rest IH]; intros w s Hsub Hw Hs.
  - by exists w, s.
  - assert (Hc : c ∈ cards) by set_solver.
    assert (Hcc := proj1 (Forall_forall _ _) Hall c Hc).
    destruct Hcc as [[cw Hcw] [cs Hcs]].
    destruct (add_repeat_spec cards is_wkey wkey_of eq_is_wkey
                (λ c k, eq_card_wkey cards c k Hall) (wkey cw) w)
      as (w' & Ew' & Hw' & Ew); [by eexists|done|].
    destruct (add_repeat_spec cards is_skey skey_of eq_is_skey
                (λ c k, eq_card_skey cards c k Hall) (skey cs) s)
      as (s' & Es' & Hs' & Es); [by eexists|done|].
    destruct (IH w' s') as (w'' & s'' & E & ? & ? & ? & ?); [set_solver|done|done|].
    exists w'', s''. cbn [RepeatsM.get_all_repeats]. rewrite Hcw, Hcs.
    rewrite Card_init_weight_symbol, Card_init_suit_symbol.
    rewrite !bind_Ok, Ew', bind_Ok, Es', bind_Ok.
    rewrite !fmap_cons. cbn [foldl].
    rewrite (wkey_of_wkey c cw Hcw), (skey_of_skey c cs Hcs).
    rewrite <- Ew, <- Es. done.
Qed.

Lemma get_all_repeats_init cards :
  Forall concrete cards →
  ∃ w s, RepeatsM.get_all_repeats cards cards RepeatsM.empty_base RepeatsM.empty_base
         = Ok (w, s) ∧
    (∀ n, rep_all w !! n = nonempty (with_count wkey_of cards n)) ∧
    (∀ n, rep_all s !! n = nonempty (with_count skey_of cards n)).
Proof.
  intros Hall.
  destruct (get_all_repeats_spec cards cards RepeatsM.empty_base RepeatsM.empty_base)
    as (w & s & E & [_ Hw] & [_ Hs] & Ew & Es);
    [done|done|apply rep_inv_empty|apply rep_inv_empty|].
  exists w, s. split; [done|]. unfold with_count, keys_seen.
  simpl in Ew, Es. rewrite <- Ew, <- Es. done.
Qed.


(** ** The keys and their counts *)

Lemma filter_ext_in (P Q : Card → Prop) `{!∀ c, Decision (P c)}
    `{!∀ c, Decision (Q c)} (l : list Card) :
  (∀ c, c ∈ l → P c ↔ Q c) → filter P l = filter Q l.
Proof.
  induction l as [|x l IH]; intros HPQ; [done|].
  rewrite !filter_cons. destruct (decide (P x)) as [HP|HP], (decide (Q x)) as [HQ|HQ].
  - f_equal. apply IH. intros c Hc. apply HPQ. by right.
  - exfalso. apply HQ, HPQ; [left|done].
  - exfalso. apply HP, HPQ; [left|done].
  - apply IH. intros c Hc. apply HPQ. by right.
Qed.

Lemma wkey_of_eq_wkey c w :
  has_weight c → wkey_of c = wkey w ↔ wnum c = WeightM.number w.
Proof.
  intros [w' Hw]. rewrite (wkey_of_wkey c w' Hw). unfold wnum. rewrite Hw. simpl.
  split; [by intros [= ->]|by intros ->%number_inj].
Qed.

Lemma skey_of_eq_skey c s : skey_of c = skey s ↔ suit c = Some s.
Proof. unfold skey_of, skey. split; [by intros [= ->]|by intros ->]. Qed.

Lemma key_count_wkey l w :
  Forall has_weight l → key_count wkey_of l (wkey w) = wcount l (WeightM.number w).
Proof.
  intros Hl. unfold key_count, wcount, of_weight. f_equal.
  apply filter_ext_in. intros c Hc. apply wkey_of_eq_wkey.
  by apply (proj1 (Forall_forall _ _) Hl).
Qed.

Lemma key_count_skey l s : key_count skey_of l (skey s) = scount l s.
Proof.
  unfold key_count, scount, of_suit. f_equal.
  apply list_filter_iff. intros c. apply skey_of_eq_skey.
Qed.

Lemma elem_of_foldl_nub acc ks k :
  k ∈ foldl nub_add acc ks ↔ k ∈ acc ∨ k ∈ ks.
Proof.
  revert acc. induction ks as [|x ks IH]; intros acc; simpl.
  - set_solver.
  - rewrite IH. unfold nub_add. case_decide; set_solver.
Qed.

Lemma elem_of_keys_seen key_of l k :
  k ∈ keys_seen key_of l ↔ k ∈ key_of <$> l.
Proof. unfold keys_seen. rewrite elem_of_foldl_nub. set_solver. Qed.

Lemma NoDup_foldl_nub acc ks : NoDup acc → NoDup (foldl nub_add acc ks).
Proof.
  revert acc. induction ks as [|x ks IH]; intros acc Hacc; simpl; [done|].
  apply IH. unfold nub_add. case_decide; [done|].
  apply NoDup_app. split_and!; [done| |apply NoDup_singleton].
  intros y Hy ->%list_elem_of_singleton. done.
Qed.

Lemma NoDup_keys_seen key_of l : NoDup (keys_seen key_of l).
Proof. apply NoDup_foldl_nub. constructor. Qed.

Lemma wcount_pos l n : 0 < wcount l n ↔ ∃ c, c ∈ l ∧ wnum c = n.
Proof.
  unfold wcount, of_weight. split.
  - intros H. destruct (filter _ l) as [|c k] eqn:E; [simpl in H; lia|].
    assert (Hc : c ∈ filter (λ c, wnum c = n) l) by (rewrite E; left).
    apply list_elem_of_filter in Hc. naive_solver.
  - intros (c & Hc & Hn).
    assert (Hin : c ∈ filter (λ c, wnum c = n) l) by (by apply list_elem_of_filter).
    destruct (filter _ l); [by apply not_elem_of_nil in Hin|simpl; lia].
Qed.

Lemma scount_pos l s : 0 < scount l s ↔ ∃ c, c ∈ l ∧ suit c = Some s.
Proof.
  unfold scount, of_suit. split.
  - intros H. destruct (filter _ l) as [|c k] eqn:E; [simpl in H; lia|].
    assert (Hc : c ∈ filter (λ c, suit c = Some s) l) by (rewrite E; left).
    apply list_elem_of_filter in Hc. naive_solver.
  - intros (c & Hc & Hn).
    assert (Hin : c ∈ filter (λ c, suit c = Some s) l) by (by apply list_elem_of_filter).
    destruct (filter _ l); [by apply not_elem_of_nil in Hin|simpl; lia].
Qed.

Lemma elem_of_with_count_w l n k :
  Forall has_weight l →
  k ∈ with_count wkey_of l n
  ↔ ∃ w, k = wkey w ∧ wcount l (WeightM.number w) = n ∧ 0 < n.
Proof.
  intros Hl. unfold with_count.
  rewrite list_elem_of_filter, elem_of_keys_seen, list_elem_of_fmap. split.
  - intros [Hn (c & -> & Hc)].
    destruct (proj1 (Forall_forall _ _) Hl c Hc) as [w Hw].
    exists w. rewrite (wkey_of_wkey c w Hw) in *.
    rewrite key_count_wkey in Hn by done. split_and!; [done|done|].
    rewrite <- Hn. apply wcount_pos. exists c. split; [done|].
    unfold wnum. by rewrite Hw.
  - intros (w & -> & Hn & Hpos). rewrite key_count_wkey by done.
    split; [done|]. rewrite <- Hn in Hpos.
    apply wcount_pos in Hpos as (c & Hc & Hw). exists c. split; [|done].
    symmetry. apply wkey_of_eq_wkey; [|done].
    by apply (proj1 (Forall_forall _ _) Hl).
Qed.

Lemma elem_of_with_count_s l n k :
  Forall concrete l →
  k ∈ with_count skey_of l n ↔ ∃ s, k = skey s ∧ scount l s = n ∧ 0 < n.
Proof.
  intros Hl. unfold with_count.
  rewrite list_elem_of_filter, elem_of_keys_seen, list_elem_of_fmap. split.
  - intros [Hn (c & -> & Hc)].
    destruct (proj1 (Forall_forall _ _) Hl c Hc) as [_ [s Hs]].
    exists s. rewrite (skey_of_skey c s Hs) in *.
    rewrite key_count_skey in Hn. split_and!; [done|done|].
    rewrite <- Hn. apply scount_pos. by exists c.
  - intros (s & -> & Hn & Hpos). rewrite key_count_skey.
    split; [done|]. rewrite <- Hn in Hpos.
    apply scount_pos in Hpos as (c & Hc & Hs). exists c. split; [|done].
    symmetry. by apply skey_of_eq_skey.
Qed.

(** On a sorted list the weight keys come out in ascending order. *)
Lemma foldl_nub_ascending acc cs :
  Forall has_weight cs → ascending cs → Forall is_wkey acc →
  StronglySorted (λ a b, wnum a < wnum b) acc →
  (∀ k c, k ∈ acc → c ∈ cs → wnum k ≤ wnum c) →
  StronglySorted (λ a b, wnum a < wnum b) (foldl nub_add acc (wkey_of <$> cs)).
Proof.
  revert acc. induction cs as [|c cs IH]; intros acc Hw Hcs HK Hacc Hle; [done|].
  apply Forall_cons in Hw as [[w Hcw] Hw].
  apply ascending_cons in Hcs as [Hc Hcs].
  rewrite fmap_cons. cbn [foldl]. rewrite (wkey_of_wkey c w Hcw).
  assert (Hnum : wnum c = WeightM.number w) by (unfold wnum; by rewrite Hcw).
  unfold nub_add. destruct (decide (wkey w ∈ acc)) as [Hin|Hin].
  - apply IH; try done. intros k c' Hk Hc'. apply Hle; [done|by right].
  - apply IH; try done.
    + apply Forall_app. split; [done|]. constructor; [by eexists|done].
    + apply StronglySorted_app_2; [|done|repeat constructor].
      intros k1 k2 Hk1 ->%list_elem_of_singleton. rewrite wnum_wkey, <- Hnum.
      assert (wnum k1 ≤ wnum c) by (apply Hle; [done|left]).
      destruct (decide (wnum k1 = wnum c)) as [E|E]; [|lia].
      exfalso. apply Hin.
      destruct (proj1 (Forall_forall _ _) HK k1 Hk1) as [w1 ->].
      rewrite wnum_wkey, Hnum in E. by apply number_inj in E as ->.
    + intros k c' [Hk| ->%list_elem_of_singleton]%elem_of_app Hc'.
      * apply Hle; [done|by right].
      * rewrite wnum_wkey, <- Hnum.
        by apply (proj1 (Forall_forall _ _) Hc).
Qed.

Lemma StronglySorted_filter {A : Type} (R : relation A) (P : A → Prop)
    `{!∀ x, Decision (P x)} (l : list A) :
  StronglySorted R l → StronglySorted R (filter P l).
Proof.
  induction 1 as [|x l Hl IH Hx]; [constructor|].
  rewrite filter_cons. case_decide; [|done]. constructor; [done|].
  rewrite Forall_forall in *. intros y Hy%list_elem_of_filter. apply Hx, Hy.
Qed.

Lemma with_count_w_sorted l n :
  Forall has_weight l → ascending l →
  StronglySorted (λ a b, wnum a < wnum b) (with_count wkey_of l n).
Proof.
  intros Hw Hl. apply StronglySorted_filter. unfold keys_seen.
  apply foldl_nub_ascending; try done; [constructor|].
  intros k c Hk. by apply not_elem_of_nil in Hk.
Qed.



(** ** [get_repeat_kind] and [flush_or_not] *)

Lemma py_last_Some {A : Type} (l : list A) x : last l = Some x → py_last l = Ok x.
Proof. unfold py_last. by intros ->. Qed.

Lemma last_is_Some_cons {A : Type} (x : A) l : is_Some (last (x :: l)).
Proof.
  destruct (last (x :: l)) eqn:E; [by eexists|].
  by apply last_None in E.
Qed.

Lemma get_repeat_kind_spec b L4 L3 L2 :
  rep_all b !! 4 = nonempty L4 →
  rep_all b !! 3 = nonempty L3 →
  rep_all b !! 2 = nonempty L2 →
  ∃ wr, RepeatsM.get_repeat_kind b = Ok wr ∧ kind_spec L4 L3 L2 wr.
Proof.
  intros H4 H3 H2. unfold RepeatsM.get_repeat_kind, kind_spec.
  rewrite H4, H3, H2.
  destruct L4 as [|k4 L4]; simpl; [|by eexists].
  destruct L3 as [|k3 L3]; simpl.
  - destruct L2 as [|k2 [|k2' L2]]; simpl; by eexists.
  - destruct (last_is_Some_cons k3 L3) as [x3 E3].
    rewrite (py_last_Some _ _ E3). res_simpl.
    destruct L2 as [|k2 L2]; simpl.
    + res_simpl. destruct L3 as [|k3' [|k3'' L3]]; simpl;
        (eexists; split; [reflexivity|]; simpl; rewrite ?E3;
         repeat case_decide; try lia; done).
    + destruct (last_is_Some_cons k2 L2) as [x2 E2].
      rewrite (py_last_Some _ _ E2). res_simpl.
      destruct L3 as [|k3' [|k3'' L3]]; simpl;
        (eexists; split; [reflexivity|]; simpl; rewrite ?E3, ?E2;
         repeat case_decide; try lia; done).
Qed.

Lemma flush_or_not_spec cards b :
  Forall concrete cards → cards ≠ [] →
  (∀ n, rep_all b !! n = nonempty (with_count skey_of cards n)) →
  ∃ sr, RepeatsM.flush_or_not b = Ok sr ∧ flush_spec cards sr.
Proof.
  intros Hc Hne Hall. unfold RepeatsM.flush_or_not.
  set (keys := (map_to_list (rep_all b)).*1).
  assert (Hkey : ∀ st, 0 < scount cards st → scount cards st ∈ keys).
  { intros st Hpos. unfold keys. apply list_elem_of_fmap.
    assert (Hin : skey st ∈ with_count skey_of cards (scount cards st)).
    { apply elem_of_with_count_s; [done|]. by exists st. }
    specialize (Hall (scount cards st)).
    destruct (with_count skey_of cards (scount cards st)) as [|k l] eqn:E;
      [by apply not_elem_of_nil in Hin|].
    exists (scount cards st, k :: l). split; [done|].
    by apply elem_of_map_to_list. }
  assert (Hkne : keys ≠ []).
  { destruct cards as [|c cards]; [done|].
    apply Forall_cons in Hc as [[_ [st Hst]] _].
    assert (Hp : 0 < scount (c :: cards) st).
    { apply scount_pos. exists c. split; [left|done]. }
    apply Hkey in Hp. intros E. rewrite E in Hp. by apply not_elem_of_nil in Hp. }
  assert (Hmax := max_list_elem_of keys Hkne).
  unfold py_max. destruct keys as [|k0 keys'] eqn:Ek; [done|]. rewrite <- Ek in *.
  rewrite bind_Ok.
  unfold keys in Hmax. apply list_elem_of_fmap in Hmax as ([m l] & Em & Hml).
  simpl in Em. apply elem_of_map_to_list in Hml. rewrite <- Em in Hml.
  fold keys in Hml. rewrite Hml.
  rewrite Hall in Hml. apply nonempty_Some in Hml as [El Hl].
  destruct l as [|k l]; [done|]. simpl. res_simpl.
  eexists. split; [done|]. unfold flush_spec. simpl.
  assert (Hk : k ∈ with_count skey_of cards (max_list keys)) by (rewrite El; left).
  apply elem_of_with_count_s in Hk as (st & -> & Hst & Hpos); [|done].
  exists st. split_and!; [done|done| |done].
  intros st'. destruct (decide (0 < scount cards st')) as [Hp|Hp]; [|lia].
  by apply max_list_elem_of_le, Hkey.
Qed.

Lemma Repeats_init_spec cards :
  Forall concrete cards → cards ≠ [] →
  ∃ r, RepeatsM.init cards = Ok r ∧
    kind_spec (with_count wkey_of cards 4) (with_count wkey_of cards 3)
      (with_count wkey_of cards 2) (rweight r) ∧
    flush_spec cards (rsuit r).
Proof.
  intros Hc Hne. unfold RepeatsM.init.
  destruct (get_all_repeats_init cards Hc) as (w & s & -> & Hw & Hs).
  rewrite bind_Ok. cbn beta iota.
  destruct (get_repeat_kind_spec w _ _ _ (Hw 4) (Hw 3) (Hw 2)) as (wr & -> & Hwr).
  destruct (flush_or_not_spec cards s Hc Hne Hs) as (sr & -> & Hsr).
  res_simpl. by eexists.
Qed.


(** ** The sequence analyser *)

Lemma fill_rank_pure rank cards :
  Forall has_weight cards → SequenceM.fill_rank rank cards = Ok (fill rank cards).
Proof.
  intros H. revert rank. induction H as [|c cards [w Hw] _ IH]; intros rank; [done|].
  simpl. rewrite Hw. unfold fill in *. simpl.
  replace (wnum c) with (WeightM.number w) by (unfold wnum; by rewrite Hw).
  apply IH.
Qed.

Lemma length_fill rank cards : length (fill rank cards) = length rank.
Proof.
  revert rank. induction cards as [|c cards IH]; intros rank; [done|].
  unfold fill in *. simpl. by rewrite IH, length_insert.
Qed.

Lemma last_of_weight_cons n c cards :
  last (of_weight n (c :: cards))
  = match last (of_weight n cards) with
    | Some y => Some y
    | None => if decide (wnum c = n) then Some c else None
    end.
Proof.
  unfold of_weight. rewrite filter_cons. case_decide; [|by destruct (last _)].
  by rewrite last_cons.
Qed.

Lemma fill_lookup rank cards n :
  n < length rank →
  fill rank cards !! n
  = match last (of_weight n cards) with
    | Some c => Some c
    | None => rank !! n
    end.
Proof.
  revert rank. induction cards as [|c cards IH]; intros rank Hn; [done|].
  rewrite last_of_weight_cons. unfold fill in *. simpl.
  rewrite IH by (by rewrite length_insert).
  destruct (last (of_weight n cards)); [done|].
  case_decide as E.
  - subst n. by rewrite list_lookup_insert_eq.
  - by rewrite list_lookup_insert_ne.
Qed.

Lemma length_rank_of cards : length (rank_of cards) = 14.
Proof. unfold rank_of. by rewrite length_reverse, length_fill. Qed.

Lemma abstract_rank_lookup n c : abstract_rank !! n = Some c → suit c = None.
Proof.
  unfold abstract_rank. intros H. apply list_lookup_fmap_Some in H as (w & -> & _).
  done.
Qed.

Lemma rank_of_lookup cards i :
  i < 14 →
  rank_of cards !! i
  = match last (of_weight (13 - i) cards) with
    | Some c => Some c
    | None => abstract_rank !! (13 - i)
    end.
Proof.
  intros Hi. unfold rank_of. rewrite reverse_lookup by (rewrite length_fill; simpl; lia).
  rewrite length_fill. simpl length.
  replace (14 - S i) with (13 - i) by lia.
  apply fill_lookup. simpl. lia.
Qed.

Lemma last_of_weight_Some n cards c :
  last (of_weight n cards) = Some c → c ∈ cards ∧ wnum c = n.
Proof.
  intros H. apply last_Some in H as [l' E].
  assert (Hin : c ∈ of_weight n cards) by (rewrite E; set_solver).
  apply list_elem_of_filter in Hin. tauto.
Qed.

Lemma last_of_weight_None n cards :
  last (of_weight n cards) = None ↔ n ∉ wnum <$> cards.
Proof.
  rewrite last_None. unfold of_weight. split.
  - intros E Hin. apply list_elem_of_fmap in Hin as (c & -> & Hc).
    assert (c ∈ filter (λ c', wnum c' = wnum c) cards) by (by apply list_elem_of_filter).
    rewrite E in *. by eapply not_elem_of_nil.
  - intros Hn. destruct (filter _ cards) as [|c l] eqn:E; [done|].
    assert (Hin : c ∈ filter (λ c', wnum c' = n) cards) by (rewrite E; left).
    apply list_elem_of_filter in Hin as [<- Hc]. exfalso. apply Hn.
    apply list_elem_of_fmap. by exists c.
Qed.

(** The mask of a rank tells which weights are present. *)
Lemma mask_of_rank_lookup cards i :
  Forall concrete cards → i < 14 →
  mask_of (rank_of cards) !! i = Some (bool_decide (13 - i ∈ wnum <$> cards)).
Proof.
  intros Hc Hi. unfold mask_of. rewrite list_lookup_fmap, rank_of_lookup by done.
  destruct (last (of_weight (13 - i) cards)) as [c|] eqn:E.
  - apply last_of_weight_Some in E as [Hin Hw]. simpl.
    destruct (proj1 (Forall_forall _ _) Hc c Hin) as [_ Hs].
    rewrite (bool_decide_eq_true_2 _ Hs). f_equal. symmetry.
    apply bool_decide_eq_true_2. apply list_elem_of_fmap. by exists c.
  - apply last_of_weight_None in E.
    rewrite (bool_decide_eq_false_2 _ E).
    destruct (abstract_rank !! (13 - i)) as [c|] eqn:Ea.
    + simpl. apply abstract_rank_lookup in Ea. by rewrite Ea.
    + apply lookup_ge_None in Ea. simpl in Ea. lia.
Qed.

Lemma length_mask_of rank : length (mask_of rank) = length rank.
Proof. unfold mask_of. by rewrite length_fmap. Qed.

(** The loop of [find_order] computes [scan] on the mask. *)
Lemma find_order_loop_spec rank idx base row hist :
  (∀ i, i ∈ idx → i < length rank) →
  ∃ h', SequenceM.find_order_loop rank idx base row hist
        = Ok ((λ b, take 5 (drop b rank)) <$> scan (mask_of rank) idx base row, h') ∧
    (hist ≠ [] ∨ (∃ i, i ∈ idx ∧ mask_of rank !! i = Some true) → h' ≠ []).
Proof.
  revert base row hist. induction idx as [|i idx IH]; intros base row hist Hidx.
  - exists hist. split; [done|]. intros [?|(i & Hi & _)]; [done|].
    by apply not_elem_of_nil in Hi.
  - assert (Hi : i < length rank) by (apply Hidx; left).
    destruct (lookup_lt_is_Some_2 rank i Hi) as [c Hc].
    cbn [SequenceM.find_order_loop scan]. rewrite Hc.
    unfold mask_of at 1. rewrite list_lookup_fmap, Hc. simpl.
    destruct (suit c) as [s|] eqn:Es.
    + rewrite bool_decide_eq_true_2 by (by eexists).
      change (S row =? 5) with (row =? 4). destruct (row =? 4) eqn:E5.
      * eexists. split; [reflexivity|]. intros _ E. by apply app_eq_nil in E as [_ ?].
      * destruct (IH base (S row) (hist ++ [S row])) as (h' & -> & Hh');
          [intros; apply Hidx; by right|].
        exists h'. split; [done|]. intros _. apply Hh'. left.
        intros E. by apply app_eq_nil in E as [_ ?].
    + rewrite bool_decide_eq_false_2 by (by intros [? ?]).
      destruct (IH (i + 1) 0 hist) as (h' & -> & Hh');
        [intros; apply Hidx; by right|].
      exists h'. split; [done|]. intros [?|(j & Hj & Hm)]; apply Hh'; [by left|].
      right. exists j. split; [|done].
      apply elem_of_cons in Hj as [->|?]; [|done].
      unfold mask_of in Hm. rewrite list_lookup_fmap, Hc in Hm. simpl in Hm.
      rewrite Es in Hm. rewrite bool_decide_eq_false_2 in Hm by (by intros [? ?]).
      done.
Qed.

Lemma all_masks_complete m : m ∈ all_masks (length m).
Proof.
  induction m as [|b m IH]; simpl; [left|].
  apply elem_of_app. destruct b; [left|right]; apply list_elem_of_fmap; by exists m.
Qed.

Lemma scan_first_run_all :
  forallb (λ m, bool_decide (scan m (seq 0 14) 0 0 = first_run m)) (all_masks 14) = true.
Proof. vm_compute. reflexivity. Qed.

Lemma scan_first_run m :
  length m = 14 → scan m (seq 0 14) 0 0 = first_run m.
Proof.
  intros Hm. pose proof (all_masks_complete m) as Hin. rewrite Hm in Hin.
  pose proof scan_first_run_all as Hall.
  rewrite forallb_forall in Hall. apply list_elem_of_In in Hin.
  specialize (Hall m Hin). by apply bool_decide_eq_true in Hall.
Qed.


Lemma concrete_low_ace ace : concrete ace → concrete (low_ace ace).
Proof. intros [_ Hs]. split; [by eexists|done]. Qed.

Lemma Forall_concrete_with_low_ace cards :
  Forall concrete cards → Forall concrete (with_low_ace cards).
Proof.
  intros Hc. unfold with_low_ace.
  destruct (last (of_weight 13 cards)) as [ace|] eqn:E; [|done].
  constructor; [|done]. apply concrete_low_ace.
  apply last_of_weight_Some in E as [Hin _].
  by apply (proj1 (Forall_forall _ _) Hc).
Qed.

Lemma with_low_ace_nonempty cards : cards ≠ [] → with_low_ace cards ≠ [].
Proof. unfold with_low_ace. by destruct (last _). Qed.

Lemma one_more_ace_spec cards ace :
  Forall concrete cards → last (of_weight 13 cards) = Some ace →
  SequenceM.one_more_ace cards = Ok (low_ace ace :: cards).
Proof.
  intros Hc E. unfold SequenceM.one_more_ace.
  rewrite (list_filter_eq_weight SequenceM.abstract_ace)
    by (by eexists || by apply Forall_concrete_has_weight).
  change (wnum SequenceM.abstract_ace) with 13. rewrite bind_Ok.
  rewrite (py_last_Some _ _ E), bind_Ok.
  apply last_of_weight_Some in E as [Hin _].
  destruct (proj1 (Forall_forall _ _) Hc ace Hin) as [_ [st Hst]].
  rewrite Hst, Card_init_low_ace, bind_Ok. simpl. unfold low_ace. by rewrite Hst.
Qed.

Lemma find_order_spec cards :
  Forall concrete cards → cards ≠ [] →
  ∃ m, SequenceM.find_order cards
       = Ok (mkSequence (run_of cards)
               (match run_of cards with Some _ => true | None => false end) m cards).
Proof.
  intros Hc Hne. unfold SequenceM.find_order, SequenceM.get_rank.
  rewrite fill_rank_pure by (by apply Forall_concrete_has_weight).
  rewrite !bind_Ok. fold abstract_rank. fold (rank_of cards).
  destruct (find_order_loop_spec (rank_of cards) (seq 0 14) 0 0 [])
    as (h & -> & Hh).
  { intros i Hi%elem_of_seq. rewrite length_rank_of. lia. }
  rewrite bind_Ok. cbn beta iota.
  rewrite scan_first_run by (by rewrite length_mask_of, length_rank_of).
  fold (run_of cards).
  assert (h ≠ []) as Hhne.
  { apply Hh. right. destruct cards as [|c cards]; [done|].
    exists (13 - wnum c). pose proof (wnum_lt c). split.
    - apply elem_of_seq. lia.
    - rewrite mask_of_rank_lookup by (done || lia). f_equal.
      apply bool_decide_eq_true_2. replace (13 - (13 - wnum c)) with (wnum c) by lia.
      rewrite fmap_cons. left. }
  unfold py_max. destruct h as [|x h]; [done|]. rewrite bind_Ok. by eexists.
Qed.

(** [Sequence.__init__] on cards that have a weight and a suit. *)
Lemma Sequence_init_spec cards :
  Forall concrete cards → cards ≠ [] →
  ∃ m, SequenceM.init cards
       = Ok (mkSequence (run_of (with_low_ace cards))
               (match run_of (with_low_ace cards) with Some _ => true | None => false end)
               m (with_low_ace cards)).
Proof.
  intros Hc Hne. unfold SequenceM.init.
  rewrite (list_contains_weight SequenceM.abstract_ace)
    by (by eexists || by apply Forall_concrete_has_weight).
  change (wnum SequenceM.abstract_ace) with 13. rewrite bind_Ok.
  destruct (last (of_weight 13 cards)) as [ace|] eqn:E.
  - rewrite bool_decide_eq_true_2.
    2:{ apply last_of_weight_Some in E as [Hin Hw]. apply list_elem_of_fmap. by exists ace. }
    rewrite (one_more_ace_spec cards ace) by done. rewrite bind_Ok.
    replace (low_ace ace :: cards) with (with_low_ace cards)
      by (unfold with_low_ace; by rewrite E).
    apply find_order_spec; [by apply Forall_concrete_with_low_ace|].
    by apply with_low_ace_nonempty.
  - rewrite bool_decide_eq_false_2 by (by apply last_of_weight_None).
    rewrite bind_Ok.
    assert (Ew : with_low_ace cards = cards) by (unfold with_low_ace; by rewrite E).
    rewrite Ew. by apply find_order_spec.
Qed.


(** ** The selector *)

Lemma get_other_cards_pure self all_cards :
  Forall has_weight self → Forall has_weight all_cards →
  ComboCards.get_other_cards self all_cards = Ok (with_kickers self all_cards).
Proof.
  intros Hs Ha. unfold ComboCards.get_other_cards, with_kickers.
  rewrite (list_filter_pure _ (λ c, wnum c ∉ wnum <$> self) has_weight); [|intros c Hc|done].
  - fold (others self all_cards). rewrite bind_Ok.
    destruct (others self all_cards); [|done].
    rewrite reverse_nil. unfold py_take. by destruct (_ <=? _)%Z; rewrite take_nil, app_nil_r.
  - rewrite list_contains_weight by done. rewrite bind_Ok. f_equal.
    by rewrite bool_decide_not.
Qed.

(** With at most five cards held, the slice is a plain prefix. *)
Lemma py_take_nonneg {A : Type} (n : nat) (l : list A) :
  py_take (Z.of_nat n) l = take n l.
Proof.
  unfold py_take. destruct (Z.leb_spec 0 (Z.of_nat n)); [|lia]. by rewrite Nat2Z.id.
Qed.

Lemma with_kickers_le self all_cards :
  length self ≤ 5 →
  with_kickers self all_cards
  = self ++ take (5 - length self) (reverse (others self all_cards)).
Proof.
  intros Hlen. unfold with_kickers. f_equal.
  replace (5 - Z.of_nat (length self))%Z with (Z.of_nat (5 - length self)) by lia.
  apply py_take_nonneg.
Qed.

Lemma with_count_has_weight l n :
  Forall has_weight l → Forall has_weight (with_count wkey_of l n).
Proof.
  intros Hl. rewrite Forall_forall. intros k Hk.
  apply elem_of_with_count_w in Hk as (w & -> & _); [|done]. by eexists.
Qed.

Lemma head_elem_of {A : Type} (l : list A) x : head l = Some x → x ∈ l.
Proof. destruct l; [done|]. intros [= ->]. left. Qed.

Lemma last_elem_of {A : Type} (l : list A) x : last l = Some x → x ∈ l.
Proof. intros [l' ->]%last_Some. set_solver. Qed.

Lemma py_lastn_subseteq {A : Type} n (l : list A) x : x ∈ py_lastn n l → x ∈ l.
Proof. unfold py_lastn. apply subseteq_drop. Qed.

Lemma kind_spec_keys L4 L3 L2 wr (P : Card → Prop) :
  kind_spec L4 L3 L2 wr →
  Forall P L4 → Forall P L3 → Forall P L2 →
  (∀ k, four wr = Some k → P k) ∧ (∀ k, three wr = Some k → P k) ∧
  (∀ k, two wr = Some k → P k) ∧ (∀ ks, double_two wr = Some ks → Forall P ks).
Proof.
  unfold kind_spec. rewrite !Forall_forall. intros H H4 H3 H2.
  destruct L4 as [|k4 L4].
  - destruct H as [-> H]. destruct L3 as [|k3 L3].
    + destruct H as [-> H]. case_decide; destruct H as [-> ->].
      * split_and!; try done. intros ks [= <-]. apply Forall_forall.
        intros x Hx%py_lastn_subseteq. by apply H2.
      * split_and!; try done. intros k Hk%last_elem_of. by apply H2.
    + destruct H as (-> & -> & ->). split_and!; try done.
      * intros k Hk%last_elem_of. by apply H3.
      * case_decide; [intros k Hk%head_elem_of; by apply H3|].
        intros k Hk%last_elem_of. by apply H2.
  - destruct H as (-> & -> & -> & ->). split_and!; try done.
    intros k [= <-]. apply H4. left.
Qed.

Lemma the_Some {A : Type} (a : A) : ComboM.the (Some a) = Ok a.
Proof. reflexivity. Qed.

Lemma list_filter_contains_weight ks l :
  Forall has_weight ks → Forall has_weight l →
  list_filter (λ card, list_contains card ks) l = Ok (of_weights ks l).
Proof.
  intros Hk Hl. apply (list_filter_pure _ _ has_weight); [|done].
  intros c Hc. by apply list_contains_weight.
Qed.

Lemma Forall_has_weight_filter (P : Card → Prop) `{!∀ c, Decision (P c)} l :
  Forall has_weight l → Forall has_weight (filter P l).
Proof. apply Forall_filter_keep. Qed.

Lemma find_combo_sorted_spec self s :
  Forall concrete s → s ≠ [] →
  ∃ r sq t items,
    ComboM.find_combo_sorted self s = Ok (ComboM.set_combo self r sq t items) ∧
    kind_spec (with_count wkey_of s 4) (with_count wkey_of s 3)
      (with_count wkey_of s 2) (rweight r) ∧
    flush_spec s (rsuit r) ∧
    selected s r sq t items.
Proof.
  intros Hc Hne. pose proof (Forall_concrete_has_weight s Hc) as Hw.
  unfold ComboM.find_combo_sorted.
  destruct (Repeats_init_spec s Hc Hne) as (r & -> & Hk & Hf).
  rewrite bind_Ok. exists r.
  destruct (kind_spec_keys _ _ _ _ has_weight Hk) as (K4 & K3 & K2 & K22);
    try (by apply with_count_has_weight).
  unfold selected.
  pose proof Hf as (st & Hfc & Hcnt & Hmax & H5).
  destruct (five_or_more (rsuit r)) eqn:E5.
  - rewrite Hfc, the_Some, bind_Ok.
    rewrite list_filter_eq_suit by done. rewrite bind_Ok.
    assert (Hfcc : Forall concrete (of_suit st s)) by (by apply Forall_filter_keep).
    assert (Hfne : of_suit st s ≠ []).
    { intros E. unfold scount in Hcnt. rewrite E in Hcnt. simpl in Hcnt.
      rewrite <- Hcnt in H5. done. }
    destruct (Sequence_init_spec _ Hfcc Hfne) as (m & Hsq). rewrite Hsq, bind_Ok.
    cbn [five_in_a_row].
    destruct (run_of (with_low_ace (of_suit st s))) as [oc|] eqn:Er.
    + unfold ComboM.get_straight_flush. cbn [order_cards]. rewrite bind_Ok.
      cbn beta iota. eexists _, _, _. split; [reflexivity|].
      split; [done|]. split; [exact Hf|]. exists st.
      cbn [seq_cards order_cards]. rewrite ?Er. split; [try exact Hsq; congruence|done].
    + unfold ComboM.get_flush. rewrite bind_Ok. cbn beta iota.
      eexists _, _, _. split; [reflexivity|].
      split; [done|]. split; [exact Hf|]. exists st.
      cbn [seq_cards order_cards]. rewrite ?Er. split; [try exact Hsq; congruence|done].
  - destruct (Sequence_init_spec _ Hc Hne) as (m & Hsq). rewrite Hsq, bind_Ok.
    cbn [five_in_a_row order_cards seq_cards].
    destruct (four (rweight r)) as [k4|] eqn:E4.
    { cbn [ComboM.truthy]. unfold ComboM.get_four_of_a_kind. rewrite E4, the_Some, bind_Ok.
      rewrite list_filter_eq_weight by auto. rewrite bind_Ok.
      rewrite get_other_cards_pure by (try done; by apply Forall_has_weight_filter).
      rewrite !bind_Ok. cbn beta iota.
      eexists _, _, _. split; [reflexivity|].
      split; [done|]. split; [exact Hf|]. cbn [seq_cards order_cards]. split; [try exact Hsq; congruence|done]. }
    cbn [ComboM.truthy].
    destruct (three (rweight r)) as [k3|] eqn:E3, (two (rweight r)) as [k2|] eqn:E2;
      cbn [ComboM.truthy andb].
    { unfold ComboM.get_full_house. rewrite E3, E2, !the_Some, !bind_Ok.
      rewrite !list_filter_eq_weight by auto. rewrite !bind_Ok. cbn beta iota.
      eexists _, _, _. split; [reflexivity|].
      split; [done|]. split; [exact Hf|]. cbn [seq_cards order_cards]. split; [try exact Hsq; congruence|done]. }
    all: destruct (run_of (with_low_ace s)) as [oc|] eqn:Er; cbn beta iota.
    all: try (unfold ComboM.get_straight; cbn [order_cards]; cbn beta iota; rewrite bind_Ok;
      cbn beta iota; eexists _, _, _; split; [reflexivity|];
      split; [done|]; split; [exact Hf|]; cbn [seq_cards order_cards];
      rewrite ?Er; (split; [try exact Hsq; congruence|done])).
    + unfold ComboM.get_three_of_a_kind. rewrite E3, the_Some, bind_Ok.
      rewrite list_filter_eq_weight by auto. rewrite bind_Ok.
      rewrite get_other_cards_pure by (try done; by apply Forall_has_weight_filter).
      rewrite !bind_Ok. cbn beta iota.
      eexists _, _, _. split; [reflexivity|].
      split; [done|]. split; [exact Hf|]. cbn [seq_cards order_cards].
      rewrite ?Er. done.
    + destruct (double_two (rweight r)) as [[|k ks]|] eqn:E22; cbn [ComboM.truthy_list].
      2:{ unfold ComboM.get_two_pairs. rewrite E22, the_Some, bind_Ok.
          rewrite list_filter_contains_weight by auto. rewrite bind_Ok.
          rewrite get_other_cards_pure.
          2:{ apply Forall_app. split.
              - apply Forall_drop. by apply Forall_has_weight_filter.
              - apply Forall_take. by apply Forall_has_weight_filter. }
          2: done.
          rewrite !bind_Ok. cbn beta iota.
          eexists _, _, _. split; [reflexivity|].
          split; [done|]. split; [exact Hf|]. cbn [seq_cards order_cards].
          rewrite ?Er. done. }
      all: unfold ComboM.get_one_pair; rewrite E2, the_Some, bind_Ok;
        rewrite list_filter_eq_weight by auto; rewrite bind_Ok;
        rewrite get_other_cards_pure by (try done; by apply Forall_has_weight_filter);
        rewrite !bind_Ok; cbn beta iota;
        eexists _, _, _; (split; [reflexivity|]);
        (split; [done|]); (split; [exact Hf|]); cbn [seq_cards order_cards];
        rewrite ?Er; (split; [try exact Hsq; congruence|done]).
    + destruct (double_two (rweight r)) as [[|k ks]|] eqn:E22; cbn [ComboM.truthy_list].
      2:{ unfold ComboM.get_two_pairs. rewrite E22, the_Some, bind_Ok.
          rewrite list_filter_contains_weight by auto. rewrite bind_Ok.
          rewrite get_other_cards_pure.
          2:{ apply Forall_app. split.
              - apply Forall_drop. by apply Forall_has_weight_filter.
              - apply Forall_take. by apply Forall_has_weight_filter. }
          2: done.
          rewrite !bind_Ok. cbn beta iota.
          eexists _, _, _. split; [reflexivity|].
          split; [done|]. split; [exact Hf|]. cbn [seq_cards order_cards].
          rewrite ?Er. done. }
      all: unfold ComboM.get_high_card; rewrite !bind_Ok; cbn beta iota;
        eexists _, _, _; (split; [reflexivity|]);
        (split; [done|]); (split; [exact Hf|]); cbn [seq_cards order_cards];
        rewrite ?Er; (split; [try exact Hsq; congruence|done]).
Qed.


(** ** Runs of five consecutive weights *)

Lemma find_seq_Some (f : nat → bool) n k b :
  List.find f (seq k n) = Some b →
  k ≤ b < k + n ∧ f b = true ∧ ∀ b', k ≤ b' < b → f b' = false.
Proof.
  revert k. induction n as [|n IH]; intros k; [done|]. simpl.
  destruct (f k) eqn:E.
  - intros [= <-]. split_and!; [lia|lia|done|lia].
  - intros H. apply IH in H as (? & ? & Hlt). split_and!; [lia|lia|done|].
    intros b' Hb'. destruct (decide (b' = k)) as [->|]; [done|]. apply Hlt. lia.
Qed.

Lemma find_seq_None (f : nat → bool) n k :
  List.find f (seq k n) = None → ∀ b, k ≤ b < k + n → f b = false.
Proof.
  revert k. induction n as [|n IH]; intros k; simpl; [lia|].
  destruct (f k) eqn:E; [done|]. intros H b Hb.
  destruct (decide (b = k)) as [->|]; [done|]. apply (IH _ H). lia.
Qed.

Lemma find_seq_intro (f : nat → bool) n k b :
  k ≤ b < k + n → f b = true → (∀ b', k ≤ b' < b → f b' = false) →
  List.find f (seq k n) = Some b.
Proof.
  revert k. induction n as [|n IH]; intros k Hb Hf Hlt; [lia|]. simpl.
  destruct (decide (b = k)) as [->|Hne].
  - by rewrite Hf.
  - rewrite Hlt by lia. apply IH; [lia|done|]. intros. apply Hlt. lia.
Qed.

Lemma find_seq_None_intro (f : nat → bool) n k :
  (∀ b, k ≤ b < k + n → f b = false) → List.find f (seq k n) = None.
Proof.
  revert k. induction n as [|n IH]; intros k H; [done|]. simpl.
  rewrite H by lia. apply IH. intros. apply H. lia.
Qed.

Lemma run_at_true m b :
  run_at m b = true ↔ ∀ j, j < 5 → m !! (b + j) = Some true.
Proof.
  unfold run_at. rewrite forallb_forall. split.
  - intros H j Hj. specialize (H j). rewrite <- list_elem_of_In, elem_of_seq in H.
    specialize (H ltac:(lia)). destruct (m !! (b + j)) as [[]|]; done.
  - intros H j Hj. rewrite <- list_elem_of_In, elem_of_seq in Hj.
    by rewrite H by lia.
Qed.

Lemma run_at_rank cards b :
  Forall concrete cards → b < 10 →
  run_at (mask_of (rank_of cards)) b = true
  ↔ ∀ j, j < 5 → 13 - (b + j) ∈ wnum <$> cards.
Proof.
  intros Hc Hb. rewrite run_at_true. split; intros H j Hj; specialize (H j Hj).
  - rewrite mask_of_rank_lookup in H by (done || lia).
    injection H as H. by apply bool_decide_eq_true in H.
  - rewrite mask_of_rank_lookup by (done || lia). f_equal.
    by apply bool_decide_eq_true_2.
Qed.

(** Fewer weights, no new run. *)
Lemma run_of_None_mono X Y :
  Forall concrete X → Forall concrete Y →
  (∀ n, n ∈ wnum <$> Y → n ∈ wnum <$> X) →
  run_of X = None → run_of Y = None.
Proof.
  intros HX HY Hsub. unfold run_of. 
  destruct (first_run (mask_of (rank_of X))) as [b|] eqn:EX; [done|]. intros _.
  destruct (first_run (mask_of (rank_of Y))) as [b|] eqn:EY; [|done]. exfalso.
  unfold first_run in *. apply find_seq_Some in EY as (Hb & Hrun & _).
  pose proof (find_seq_None _ _ _ EX b Hb) as Hno.
  rewrite run_at_rank in Hrun by (done || lia).
  assert (run_at (mask_of (rank_of X)) b = true); [|congruence].
  apply run_at_rank; [done|lia|]. intros j Hj. by apply Hsub, Hrun.
Qed.

Lemma elem_of_wnum_with_low_ace cards n :
  n ∈ wnum <$> with_low_ace cards
  ↔ n ∈ wnum <$> cards ∨ (n = 0 ∧ 13 ∈ wnum <$> cards).
Proof.
  unfold with_low_ace. destruct (last (of_weight 13 cards)) as [ace|] eqn:E.
  - apply last_of_weight_Some in E as [Hin Hw].
    assert (13 ∈ wnum <$> cards) by (apply list_elem_of_fmap; by exists ace).
    rewrite fmap_cons, elem_of_cons. change (wnum (low_ace ace)) with 0. naive_solver.
  - apply last_of_weight_None in E. naive_solver.
Qed.

(** The shape of [order_cards]. *)
Lemma run_of_Some cards oc :
  Forall concrete cards → run_of cards = Some oc →
  ∃ b, b < 10 ∧ first_run (mask_of (rank_of cards)) = Some b ∧
    oc = take 5 (drop b (rank_of cards)) ∧ length oc = 5 ∧
    ∀ j, j < 5 → ∃ c, oc !! j = Some c ∧
      last (of_weight (13 - (b + j)) cards) = Some c.
Proof.
  intros Hc. unfold run_of.
  destruct (first_run (mask_of (rank_of cards))) as [b|] eqn:E; [|done].
  intros [= <-]. exists b. pose proof E as E'.
  unfold first_run in E'. apply find_seq_Some in E' as (Hb & Hrun & _).
  rewrite run_at_rank in Hrun by (done || lia).
  split_and!; [lia|done|done| |].
  - rewrite length_take, length_drop, length_rank_of. lia.
  - intros j Hj. specialize (Hrun j Hj).
    rewrite lookup_take_lt by done. rewrite lookup_drop.
    rewrite rank_of_lookup by lia.
    destruct (last (of_weight (13 - (b + j)) cards)) as [c|] eqn:El; [by exists c|].
    by apply last_of_weight_None in El.
Qed.

Lemma list5 {A : Type} (l : list A) :
  length l = 5 → ∃ a b c d e, l = [a; b; c; d; e].
Proof.
  destruct l as [|a [|b [|c [|d [|e [|]]]]]]; try done. by eexists _, _, _, _, _.
Qed.


(** ** Re-running the sequence analyser on its own result *)

Lemma of_weight_cons n c l :
  of_weight n (c :: l) = if decide (wnum c = n) then c :: of_weight n l else of_weight n l.
Proof. unfold of_weight. by rewrite filter_cons. Qed.

Lemma of_weight_nil n : of_weight n [] = [].
Proof. done. Qed.

(** The five cards of a run, with their weights. *)
Lemma run_of_cards cards oc :
  Forall concrete cards → run_of cards = Some oc →
  ∃ b c0 c1 c2 c3 c4, b < 10 ∧
    first_run (mask_of (rank_of cards)) = Some b ∧
    oc = [c0; c1; c2; c3; c4] ∧
    Forall (λ c, c ∈ cards) oc ∧
    wnum c0 = 13 - b ∧ wnum c1 = 12 - b ∧ wnum c2 = 11 - b ∧
    wnum c3 = 10 - b ∧ wnum c4 = 9 - b ∧
    last (of_weight (13 - b) cards) = Some c0 ∧
    last (of_weight (12 - b) cards) = Some c1 ∧
    last (of_weight (11 - b) cards) = Some c2 ∧
    last (of_weight (10 - b) cards) = Some c3 ∧
    last (of_weight (9 - b) cards) = Some c4.
Proof.
  intros Hc Hr. destruct (run_of_Some cards oc Hc Hr) as (b & Hb & Hf & _ & Hlen & Hj).
  destruct (list5 oc Hlen) as (c0 & c1 & c2 & c3 & c4 & ->).
  exists b, c0, c1, c2, c3, c4.
  destruct (Hj 0 ltac:(lia)) as (x0 & [= <-] & L0).
  destruct (Hj 1 ltac:(lia)) as (x1 & [= <-] & L1).
  destruct (Hj 2 ltac:(lia)) as (x2 & [= <-] & L2).
  destruct (Hj 3 ltac:(lia)) as (x3 & [= <-] & L3).
  destruct (Hj 4 ltac:(lia)) as (x4 & [= <-] & L4).
  replace (13 - (b + 0)) with (13 - b) in L0 by lia.
  replace (13 - (b + 1)) with (12 - b) in L1 by lia.
  replace (13 - (b + 2)) with (11 - b) in L2 by lia.
  replace (13 - (b + 3)) with (10 - b) in L3 by lia.
  replace (13 - (b + 4)) with (9 - b) in L4 by lia.
  pose proof (last_of_weight_Some _ _ _ L0) as [? ?].
  pose proof (last_of_weight_Some _ _ _ L1) as [? ?].
  pose proof (last_of_weight_Some _ _ _ L2) as [? ?].
  pose proof (last_of_weight_Some _ _ _ L3) as [? ?].
  pose proof (last_of_weight_Some _ _ _ L4) as [? ?].
  split_and!; try done. repeat constructor; done.
Qed.

Lemma strictly_descending_5 c0 c1 c2 c3 c4 :
  wnum c1 < wnum c0 → wnum c2 < wnum c1 → wnum c3 < wnum c2 → wnum c4 < wnum c3 →
  strictly_descending [c0; c1; c2; c3; c4].
Proof.
  intros. unfold strictly_descending.
  repeat (constructor; [|repeat (constructor; [lia|]); constructor]).
  constructor.
Qed.

Lemma run_of_fixpoint X oc :
  Forall concrete X → run_of X = Some oc →
  (13 ∈ wnum <$> oc → 0 ∈ wnum <$> X) →
  run_of (with_low_ace (psort oc)) = Some oc.
Proof.
  intros HX Hr Hace.
  destruct (run_of_cards X oc HX Hr)
    as (b & c0 & c1 & c2 & c3 & c4 & Hb & Hf & -> & Hin & W0 & W1 & W2 & W3 & W4 & _).
  set (oc := [c0; c1; c2; c3; c4]) in *.
  assert (Hoc : Forall concrete oc).
  { eapply Forall_impl; [exact Hin|]. intros c Hc. by apply (proj1 (Forall_forall _ _) HX). }
  assert (HY : Forall concrete (with_low_ace (psort oc))).
  { apply Forall_concrete_with_low_ace. by apply Forall_psort. }
  assert (Hsort : psort oc = [c4; c3; c2; c1; c0]).
  { rewrite psort_strictly_descending; [done|]. apply strictly_descending_5; lia. }
  assert (Hw : wnum <$> psort oc = [9 - b; 10 - b; 11 - b; 12 - b; 13 - b]).
  { rewrite Hsort. simpl. by rewrite W0, W1, W2, W3, W4. }
  assert (Hsub : ∀ n, n ∈ wnum <$> with_low_ace (psort oc) → n ∈ wnum <$> X).
  { intros n [Hn|[-> Hn]]%elem_of_wnum_with_low_ace.
    - rewrite psort_perm in Hn. apply list_elem_of_fmap in Hn as (c & -> & Hc).
      apply list_elem_of_fmap. exists c. split; [done|].
      by apply (proj1 (Forall_forall _ _) Hin).
    - apply Hace. by rewrite psort_perm in Hn. }
  assert (Hfirst : first_run (mask_of (rank_of (with_low_ace (psort oc)))) = Some b).
  { unfold first_run in *. apply find_seq_Some in Hf as (_ & Hrun & Hlt).
    apply find_seq_intro; [lia| |].
    - apply run_at_rank; [done|lia|]. intros j Hj.
      apply elem_of_wnum_with_low_ace. left. rewrite Hw.
      destruct j as [|[|[|[|[|]]]]]; try lia; set_solver by lia.
    - intros b' Hb'. destruct (run_at _ b') eqn:E; [|done].
      rewrite run_at_rank in E by (done || lia).
      rewrite <- (Hlt b' Hb'). symmetry. apply run_at_rank; [done|lia|].
      intros j Hj. by apply Hsub, E. }
  unfold run_of. rewrite Hfirst. cbn [fmap option_fmap option_map]. f_equal.
  assert (Hlow : ∀ n, 9 - b ≤ n → 0 < n →
    of_weight n (with_low_ace (psort oc)) = of_weight n (psort oc)).
  { intros n Hn Hpos. unfold with_low_ace.
    destruct (last (of_weight 13 (psort oc))) as [ace|] eqn:E; [|done].
    rewrite of_weight_cons. change (wnum (low_ace ace)) with 0.
    rewrite decide_False by lia. done. }
  assert (Hlow0 : b = 9 →
    of_weight 0 (with_low_ace (psort oc)) = of_weight 0 (psort oc)).
  { intros ->. unfold with_low_ace.
    destruct (last (of_weight 13 (psort oc))) as [ace|] eqn:E; [|done].
    apply last_of_weight_Some in E as [Hin' Hw'].
    rewrite Hsort in Hin'. set_solver by lia. }
  assert (Hone : ∀ j c, j < 5 → oc !! j = Some c →
    last (of_weight (13 - (b + j)) (with_low_ace (psort oc))) = Some c).
  { intros j c Hj Hc.
    assert (E : of_weight (13 - (b + j)) (with_low_ace (psort oc))
                = of_weight (13 - (b + j)) oc).
    { destruct (decide (13 - (b + j) = 0)) as [E0|E0].
      - rewrite E0. assert (b = 9) by lia. rewrite Hlow0 by done.
        apply of_weight_psort.
      - rewrite Hlow by lia. apply of_weight_psort. }
    rewrite E. unfold oc. rewrite !of_weight_cons, of_weight_nil.
    destruct j as [|[|[|[|[|]]]]]; try lia; simpl in Hc; injection Hc as <-;
      repeat case_decide; try lia; done. }
  apply list_eq. intros j. destruct (decide (j < 5)) as [Hj|Hj].
  - rewrite lookup_take_lt by done. rewrite lookup_drop, rank_of_lookup by lia.
    destruct (lookup_lt_is_Some_2 oc j ltac:(simpl; lia)) as [c Hc].
    rewrite (Hone j c Hj Hc). done.
  - rewrite lookup_take_ge by lia. symmetry. apply lookup_ge_None. simpl. lia.
Qed.


(** ** Counting cards *)

Lemma wcount_perm l1 l2 n : l1 ≡ₚ l2 → wcount l1 n = wcount l2 n.
Proof. intros H. unfold wcount, of_weight. by rewrite H. Qed.

Lemma scount_perm l1 l2 st : l1 ≡ₚ l2 → scount l1 st = scount l2 st.
Proof. intros H. unfold scount, of_suit. by rewrite H. Qed.

Lemma wcount_psort l n : wcount (psort l) n = wcount l n.
Proof. apply wcount_perm, psort_perm. Qed.

Lemma scount_psort l st : scount (psort l) st = scount l st.
Proof. apply scount_perm, psort_perm. Qed.

Lemma valid_group_psort l : valid_group l → valid_group (psort l).
Proof.
  intros (Hlen & Hc & Hnd). split; [|split].
  - by rewrite length_psort.
  - by apply Forall_psort.
  - by rewrite psort_perm.
Qed.

Lemma length_split_weight a l :
  length l = wcount l a + length (not_of_weight a l).
Proof.
  unfold wcount, of_weight, not_of_weight. rewrite <- length_app.
  by rewrite filter_app_complement.
Qed.

Lemma wcount_not_of_weight a b l :
  a ≠ b → wcount (not_of_weight a l) b = wcount l b.
Proof.
  intros Hab. unfold wcount, of_weight, not_of_weight. f_equal.
  rewrite list_filter_filter. apply list_filter_iff. intros c. naive_solver.
Qed.

Lemma wcount_sum2 l a b : a ≠ b → wcount l a + wcount l b ≤ length l.
Proof.
  intros Hab. rewrite (length_split_weight a l).
  rewrite <- (wcount_not_of_weight a b l Hab).
  unfold wcount at 2. pose proof (length_filter (λ c, wnum c = b) (not_of_weight a l)).
  unfold of_weight. lia.
Qed.

Lemma wcount_sum3 l a b c :
  a ≠ b → a ≠ c → b ≠ c → wcount l a + wcount l b + wcount l c ≤ length l.
Proof.
  intros Hab Hac Hbc. rewrite (length_split_weight a l).
  rewrite <- (wcount_not_of_weight a b l Hab), <- (wcount_not_of_weight a c l Hac).
  pose proof (wcount_sum2 (not_of_weight a l) b c Hbc). lia.
Qed.

Lemma length_split_suit st l :
  length l = scount l st + length (filter (λ c, suit c ≠ Some st) l).
Proof.
  unfold scount, of_suit. rewrite <- length_app.
  by rewrite filter_app_complement.
Qed.

Lemma scount_sum2 l s1 s2 : s1 ≠ s2 → scount l s1 + scount l s2 ≤ length l.
Proof.
  intros Hne. rewrite (length_split_suit s1 l).
  assert (scount l s2 ≤ length (filter (λ c, suit c ≠ Some s1) l)); [|lia].
  unfold scount, of_suit.
  replace (filter (λ c, suit c = Some s2) l)
    with (filter (λ c, suit c = Some s2) (filter (λ c, suit c ≠ Some s1) l)).
  { apply length_filter. }
  rewrite list_filter_filter. apply list_filter_iff. intros c. naive_solver.
Qed.

(** Cards of one weight in a group of distinct cards have distinct suits. *)
Lemma NoDup_suits_of_weight l n :
  Forall has_weight l → NoDup (card_key <$> l) → NoDup (suit <$> of_weight n l).
Proof.
  intros Hw Hnd.
  assert (Hsub : NoDup (card_key <$> of_weight n l)).
  { eapply sublist_NoDup; [exact Hnd|]. apply fmap_sublist, sublist_filter. }
  replace (suit <$> of_weight n l) with (snd <$> (card_key <$> of_weight n l))
    by (rewrite <- list_fmap_compose; done).
  apply NoDup_fmap_2_strong; [|done].
  intros [w1 s1] [w2 s2] H1 H2. simpl. intros ->.
  apply list_elem_of_fmap in H1 as (c1 & E1 & H1), H2 as (c2 & E2 & H2).
  apply list_elem_of_filter in H1 as [N1 H1], H2 as [N2 H2].
  injection E1 as -> ->. injection E2 as -> E2. f_equal.
  destruct (proj1 (Forall_forall _ _) Hw c1 H1) as [x1 X1].
  destruct (proj1 (Forall_forall _ _) Hw c2 H2) as [x2 X2].
  unfold wnum in N1, N2. rewrite X1 in *. rewrite X2 in *. simpl in *.
  f_equal. apply number_inj. congruence.
Qed.

Lemma NoDup_option_suit_length (l : list (option Suit)) :
  NoDup l → Forall is_Some l → length l ≤ 4.
Proof.
  intros Hnd Hs.
  assert (l ⊆+ [Some Sc; Some Sd; Some Sh; Some Ss]) as Hsub.
  { apply NoDup_submseteq; [done|]. intros x Hx.
    destruct (proj1 (Forall_forall _ _) Hs x Hx) as [[] ->]; set_solver. }
  apply submseteq_length in Hsub. simpl in Hsub. lia.
Qed.

Lemma wcount_le_4 l n :
  Forall concrete l → NoDup (card_key <$> l) → wcount l n ≤ 4.
Proof.
  intros Hc Hnd. unfold wcount.
  rewrite <- (length_fmap suit). apply NoDup_option_suit_length.
  - apply NoDup_suits_of_weight; [by apply Forall_concrete_has_weight|done].
  - apply Forall_fmap. apply Forall_filter_keep.
    eapply Forall_impl; [exact Hc|]. by intros c [_ ?].
Qed.

(** Cards of one suit in a group of distinct cards have distinct weights. *)
Lemma NoDup_wnum_of_suit l st :
  Forall has_weight l → NoDup (card_key <$> l) → NoDup (wnum <$> of_suit st l).
Proof.
  intros Hw Hnd.
  assert (Hsub : NoDup (card_key <$> of_suit st l)).
  { eapply sublist_NoDup; [exact Hnd|]. apply fmap_sublist, sublist_filter. }
  apply NoDup_fmap_1 in Hsub as Hnd'.
  apply NoDup_fmap_2_strong; [|done].
  intros c1 c2 H1 H2 E.
  assert (card_key c1 = card_key c2) as Ek.
  { apply list_elem_of_filter in H1 as [N1 H1], H2 as [N2 H2].
    destruct (proj1 (Forall_forall _ _) Hw c1 H1) as [x1 X1].
    destruct (proj1 (Forall_forall _ _) Hw c2 H2) as [x2 X2].
    unfold card_key, wnum in *. rewrite X1, X2 in *. simpl in E.
    apply number_inj in E as ->. by rewrite N1, N2. }
  clear -Ek H1 H2 Hsub.
  induction (of_suit st l) as [|x xs IH]; [by apply not_elem_of_nil in H1|].
  rewrite fmap_cons in Hsub. apply NoDup_cons in Hsub as [Hx Hxs].
  apply elem_of_cons in H1 as [->|H1], H2 as [->|H2]; try done.
  - exfalso. apply Hx. rewrite Ek. apply list_elem_of_fmap. by exists c2.
  - exfalso. apply Hx. rewrite <- Ek. apply list_elem_of_fmap. by exists c1.
  - by apply IH.
Qed.

Lemma wcount_pos_weight l n :
  Forall has_weight l → 0 < wcount l n → ∃ w, WeightM.number w = n.
Proof.
  intros Hw (c & Hc & Hn)%wcount_pos.
  destruct (proj1 (Forall_forall _ _) Hw c Hc) as [w Ew].
  exists w. unfold wnum in Hn. by rewrite Ew in Hn.
Qed.

(** Reading [all[c]] of the weight repeats. *)
Lemma with_count_nil_inv l c n :
  Forall has_weight l → 0 < c →
  with_count wkey_of l c = [] → wcount l n ≠ c.
Proof.
  intros Hw Hc E Hn.
  destruct (wcount_pos_weight l n Hw ltac:(lia)) as [w <-].
  assert (wkey w ∈ with_count wkey_of l c) as Hin.
  { apply elem_of_with_count_w; [done|]. by exists w. }
  rewrite E in Hin. by apply not_elem_of_nil in Hin.
Qed.

Lemma with_count_elem l c k :
  Forall has_weight l → k ∈ with_count wkey_of l c →
  has_weight k ∧ wcount l (wnum k) = c ∧ 0 < c.
Proof.
  intros Hw (w & -> & ? & ?)%elem_of_with_count_w; [|done].
  split; [by eexists|]. by rewrite wnum_wkey.
Qed.

Lemma with_count_mem l c n :
  Forall has_weight l → 0 < c → wcount l n = c →
  ∃ k, k ∈ with_count wkey_of l c ∧ wnum k = n.
Proof.
  intros Hw Hc Hn.
  destruct (wcount_pos_weight l n Hw ltac:(lia)) as [w <-].
  exists (wkey w). split; [|done].
  apply elem_of_with_count_w; [done|]. by exists w.
Qed.


(** ** [Combo(cards=...)] *)

Lemma combo_of_cards_sorted l :
  Forall has_weight l →
  combo_of_cards l
  = (c ← ComboM.find_combo_sorted (ComboM.new 0) (psort l); Ok c).
Proof.
  intros Hw. unfold combo_of_cards, ComboM.init. cbn [cls items].
  rewrite bool_decide_eq_true_2 by done. rewrite bind_Ok. cbn beta iota.
  unfold ComboM.find_combo. cbn [init_cards ComboM.new].
  unfold load. rewrite lookup_singleton_eq. cbn [default].
  rewrite list_sort_pure by done. rewrite bind_Ok.
  destruct (ComboM.find_combo_sorted _ _); reflexivity.
Qed.

Lemma combo_of_cards_spec l :
  Forall concrete l → l ≠ [] →
  ∃ r sq t items,
    combo_of_cards l = Ok (ComboM.set_combo (ComboM.new 0) r sq t items) ∧
    kind_spec (with_count wkey_of (psort l) 4) (with_count wkey_of (psort l) 3)
      (with_count wkey_of (psort l) 2) (rweight r) ∧
    flush_spec (psort l) (rsuit r) ∧
    selected (psort l) r sq t items.
Proof.
  intros Hc Hne. rewrite combo_of_cards_sorted by (by apply Forall_concrete_has_weight).
  destruct (find_combo_sorted_spec (ComboM.new 0) (psort l)) as (r & sq & t & items & -> & ?).
  - by apply Forall_psort.
  - intros E. apply (f_equal length) in E. rewrite length_psort in E.
    by destruct l.
  - by exists r, sq, t, items.
Qed.

(** ** Simplifying the kickers *)

Lemma others_of_weight a s :
  of_weight a s ≠ [] → others (of_weight a s) s = not_of_weight a s.
Proof.
  intros Hne. unfold others, not_of_weight. apply list_filter_iff. intros c.
  split.
  - intros Hn E. apply Hn. destruct (of_weight a s) as [|x xs] eqn:Ex; [done|].
    assert (x ∈ of_weight a s) as Hx by (rewrite Ex; left).
    apply list_elem_of_filter in Hx as [Hx _].
    rewrite fmap_cons, E, <- Hx. left.
  - intros Hn (x & E & Hx)%list_elem_of_fmap.
    apply list_elem_of_filter in Hx as [Hx _]. congruence.
Qed.

Lemma others_two_weights hi lo s :
  of_weight hi s ≠ [] → of_weight lo s ≠ [] →
  others (of_weight hi s ++ of_weight lo s) s
  = filter (λ c, wnum c ≠ hi ∧ wnum c ≠ lo) s.
Proof.
  intros Hh Hl. unfold others. apply list_filter_iff. intros c. split.
  - intros Hn. split; intros E; apply Hn; rewrite fmap_app, elem_of_app.
    + left. destruct (of_weight hi s) as [|x xs] eqn:Ex; [done|].
      assert (x ∈ of_weight hi s) as Hx by (rewrite Ex; left).
      apply list_elem_of_filter in Hx as [Hx _].
      rewrite fmap_cons, E, <- Hx. left.
    + right. destruct (of_weight lo s) as [|x xs] eqn:Ex; [done|].
      assert (x ∈ of_weight lo s) as Hx by (rewrite Ex; left).
      apply list_elem_of_filter in Hx as [Hx _].
      rewrite fmap_cons, E, <- Hx. left.
  - intros [H1 H2]. rewrite fmap_app, elem_of_app.
    intros [(x & E & Hx)%list_elem_of_fmap|(x & E & Hx)%list_elem_of_fmap];
      apply list_elem_of_filter in Hx as [Hx _]; congruence.
Qed.

Lemma of_weight_nonempty a s : 0 < wcount s a → of_weight a s ≠ [].
Proof. unfold wcount. destruct (of_weight a s); [simpl; lia|done]. Qed.

Lemma of_weight_none lo s :
  Forall (λ c, wnum c ≠ lo) s → of_weight lo s = [].
Proof.
  induction 1 as [|x s Hx _ IH]; [done|].
  rewrite of_weight_cons. by rewrite decide_False.
Qed.

Lemma of_weights_pair klo khi s :
  ascending s → wnum klo < wnum khi →
  of_weights [klo; khi] s = of_weight (wnum klo) s ++ of_weight (wnum khi) s.
Proof.
  intros Hs Hlt. induction s as [|x s IH]; [done|].
  apply ascending_cons in Hs as [Hx Hs]. specialize (IH Hs).
  unfold of_weights in *. rewrite filter_cons, !of_weight_cons.
  destruct (decide (wnum x = wnum klo)) as [E1|E1];
    destruct (decide (wnum x = wnum khi)) as [E2|E2]; try lia.
  - rewrite decide_True by (rewrite E1; set_solver). by rewrite IH.
  - rewrite decide_True by (rewrite E2; set_solver). rewrite IH.
    rewrite of_weight_none; [done|].
    eapply Forall_impl; [exact Hx|]. simpl. lia.
  - rewrite decide_False by set_solver. done.
Qed.

Lemma last_two {A : Type} (l : list A) :
  1 < length l → ∃ pre x y, l = pre ++ [x; y].
Proof.
  induction l as [|a l IH] using rev_ind; [simpl; lia|].
  destruct l as [|b l _] using rev_ind; [simpl; lia|].
  intros _. exists l, b, a. by rewrite <- app_assoc.
Qed.

Lemma py_lastn_2 {A : Type} (pre : list A) x y : py_lastn 2 (pre ++ [x; y]) = [x; y].
Proof.
  unfold py_lastn. rewrite length_app. simpl.
  replace (length pre + 2 - 2) with (length pre) by lia.
  by rewrite drop_app_length.
Qed.

Lemma py_lastn_with_low_ace n fc :
  n ≤ length fc → py_lastn n (with_low_ace fc) = py_lastn n fc.
Proof.
  intros Hn. unfold with_low_ace. destruct (last (of_weight 13 fc)); [|done].
  unfold py_lastn. simpl length.
  replace (S (length fc) - n) with (S (length fc - n)) by lia. done.
Qed.

Lemma sorted_last_max (L : list Card) x y :
  StronglySorted (λ a b, wnum a < wnum b) L → last L = Some x → y ∈ L →
  wnum y ≤ wnum x.
Proof.
  intros Hs [pre ->]%last_Some Hy.
  apply StronglySorted_app in Hs as (Hlt & _ & _).
  apply elem_of_app in Hy as [Hy| ->%list_elem_of_singleton]; [|done].
  specialize (Hlt y x Hy ltac:(left)). lia.
Qed.

Lemma sorted_NoDup (L : list Card) :
  StronglySorted (λ a b, wnum a < wnum b) L → NoDup (wnum <$> L).
Proof.
  induction 1 as [|x L _ IH Hx]; [constructor|].
  rewrite fmap_cons. constructor; [|done].
  intros (y & E & Hy)%list_elem_of_fmap.
  pose proof (proj1 (Forall_forall _ _) Hx y Hy) as Hlt. simpl in Hlt. lia.
Qed.


(** ** The outcome of the selector on a valid group *)

Lemma with_kickers_of_weight a s n :
  wcount s a = n → 0 < n ≤ 5 →
  with_kickers (of_weight a s) s
  = of_weight a s ++ take (5 - n) (reverse (not_of_weight a s)).
Proof.
  intros Hn Hpos. unfold wcount in Hn.
  rewrite with_kickers_le by lia.
  rewrite others_of_weight by (apply of_weight_nonempty; unfold wcount; lia).
  by rewrite Hn.
Qed.

Lemma normal_form l :
  valid_group l →
  ∃ r sq t items,
    combo_of_cards l = Ok (ComboM.set_combo (ComboM.new 0) r sq t items) ∧
    selected (psort l) r sq t items ∧
    nf (psort l) t items.
Proof.
  intros Hv. pose proof (valid_group_psort l Hv) as (Hlen & Hc & Hnd).
  destruct Hv as (_ & Hcl & _).
  assert (l ≠ []) as Hne.
  { intros ->. rewrite length_psort in Hlen. simpl in Hlen. lia. }
  destruct (combo_of_cards_spec l Hcl Hne) as (r & sq & t & items & Hcombo & Hk & Hf & Hsel).
  exists r, sq, t, items. split; [done|]. split; [done|].
  set (s := psort l) in *.
  pose proof (Forall_concrete_has_weight s Hc) as Hw.
  pose proof (psort_ascending l) as Hasc. fold s in Hasc.
  pose proof (λ n, wcount_le_4 s n Hc Hnd) as H4max.
  destruct Hf as (st & Hfc & Hcnt & Hmax & H5).
  unfold selected in Hsel. rewrite H5 in Hsel.
  destruct (Nat.leb_spec 5 (max_repeats (rsuit r))) as [Hfl|Hfl].
  { (* a flush suit *)
    destruct Hsel as (st' & Hfc' & _ & _ & _ & Hsel).
    rewrite Hfc in Hfc'. injection Hfc' as <-.
    destruct (run_of (with_low_ace (of_suit st s))) as [oc|] eqn:Er.
    - destruct Hsel as [-> ->]. apply (nf_straight_flush s st); [lia|done].
    - destruct Hsel as [-> ->]. rewrite py_lastn_with_low_ace by (unfold scount in Hcnt; lia).
      apply (nf_flush s st); [lia|done]. }
  assert (no_flush s) as Hnf.
  { intros st'. specialize (Hmax st'). lia. }
  destruct Hsel as (_ & _ & _ & Hsel).
  unfold kind_spec in Hk.
  destruct (with_count wkey_of s 4) as [|k4 L4] eqn:E4.
  2:{ (* four of a kind *)
    destruct Hk as (Hfour & _). rewrite Hfour in Hsel. destruct Hsel as [-> ->].
    assert (k4 ∈ with_count wkey_of s 4) as Hin by (rewrite E4; left).
    apply with_count_elem in Hin as (_ & Hcount & _); [|done].
    rewrite (with_kickers_of_weight _ _ 4) by (done || lia).
    by apply nf_four. }
  destruct Hk as (Hfour & Hk). rewrite Hfour in Hsel.
  assert (∀ n, wcount s n ≠ 4) as Hno4.
  { intros n. apply with_count_nil_inv; [done|lia|done]. }
  pose proof (with_count_w_sorted s 3 Hw Hasc) as Hs3.
  pose proof (with_count_w_sorted s 2 Hw Hasc) as Hs2.
  destruct (with_count wkey_of s 3) as [|k3 L3] eqn:E3.
  - (* no three of a kind *)
    destruct Hk as (Hthree & Hk). rewrite Hthree in Hsel.
    assert (∀ n, wcount s n ≠ 3) as Hno3.
    { intros n. apply with_count_nil_inv; [done|lia|done]. }
    assert (∀ n, wcount s n ≤ 2) as Hle2.
    { intros n. specialize (H4max n). specialize (Hno4 n). specialize (Hno3 n). lia. }
    assert (∀ x y, wcount s x = 3 → 2 ≤ wcount s y → x = y) as Hfh.
    { intros x y Hx. by destruct (Hno3 x). }
    destruct (decide (1 < length (with_count wkey_of s 2))) as [Hl2|Hl2].
    + (* at least two pairs *)
      destruct Hk as (Htwo & Hdt). rewrite Htwo, Hdt in Hsel.
      destruct (last_two _ Hl2) as (pre & klo & khi & E2).
      rewrite E2 in *. rewrite py_lastn_2 in Hsel.
      destruct (run_of (with_low_ace s)) as [oc|] eqn:Er.
      { destruct Hsel as [-> ->]. by apply nf_straight. }
      destruct Hsel as [-> ->].
      assert (klo ∈ with_count wkey_of s 2) as Hlo by (rewrite E2; set_solver).
      assert (khi ∈ with_count wkey_of s 2) as Hhi by (rewrite E2; set_solver).
      apply with_count_elem in Hlo as (_ & Hclo & _); [|done].
      apply with_count_elem in Hhi as (_ & Hchi & _); [|done].
      apply StronglySorted_app in Hs2 as (Hpre & _ & Hlh).
      apply StronglySorted_inv in Hlh as [_ Hlh].
      apply Forall_cons in Hlh as [Hlh _].
      rewrite of_weights_pair by done.
      assert (length (of_weight (wnum klo) s) = 2) as Llo by done.
      assert (length (of_weight (wnum khi) s) = 2) as Lhi by done.
      rewrite drop_app_length' by done.
      rewrite take_app_length' by done.
      rewrite with_kickers_le by (rewrite length_app, Llo, Lhi; lia).
      rewrite others_two_weights by (apply of_weight_nonempty; lia).
      rewrite length_app, Llo, Lhi. rewrite <- app_assoc.
      apply nf_two_pairs; try done.
      intros n Hn. destruct (with_count_mem s 2 n Hw ltac:(lia) Hn) as (k & Hk & <-).
      rewrite E2 in Hk. apply elem_of_app in Hk as [Hk|Hk].
      * right. specialize (Hpre k klo Hk ltac:(left)). simpl in Hpre. lia.
      * apply elem_of_cons in Hk as [->|Hk]; [right; lia|].
        apply list_elem_of_singleton in Hk as ->. by left.
    + destruct Hk as (Htwo & Hdt). rewrite Htwo, Hdt in Hsel.
      destruct (with_count wkey_of s 2) as [|k2 [|k2' L2]] eqn:E2; [| |simpl in Hl2; lia].
      * (* no pair *)
        simpl in Hsel.
        destruct (run_of (with_low_ace s)) as [oc|] eqn:Er.
        { destruct Hsel as [-> ->]. by apply nf_straight. }
        destruct Hsel as [-> ->]. apply nf_high_card; try done.
        intros n. specialize (Hle2 n).
        pose proof (with_count_nil_inv s 2 n Hw ltac:(lia) E2). lia.
      * (* one pair *)
        simpl in Hsel.
        destruct (run_of (with_low_ace s)) as [oc|] eqn:Er.
        { destruct Hsel as [-> ->]. by apply nf_straight. }
        destruct Hsel as [-> ->].
        assert (k2 ∈ with_count wkey_of s 2) as Hin by (rewrite E2; left).
        apply with_count_elem in Hin as (_ & Hcount & _); [|done].
        rewrite (with_kickers_of_weight _ _ 2) by (done || lia).
        apply nf_one_pair; try done.
        intros n Hn. specialize (Hle2 n).
        destruct (decide (wcount s n = 2)) as [E|E]; [|lia].
        destruct (with_count_mem s 2 n Hw ltac:(lia) E) as (k & Hk & <-).
        rewrite E2 in Hk. apply list_elem_of_singleton in Hk as ->. done.
  - (* a three of a kind *)
    destruct Hk as (Hthree & Hdt & Htwo). rewrite Hthree, Hdt in Hsel.
    destruct (last_is_Some_cons k3 L3) as [ka Ela]. rewrite Ela in Hsel, Hthree.
    assert (ka ∈ with_count wkey_of s 3) as Hka by (rewrite E3; by apply last_elem_of).
    apply with_count_elem in Hka as (_ & Hca & _); [|done].
    assert (∀ n, wcount s n = 3 → n ≤ wnum ka) as Hmax3.
    { intros n Hn. destruct (with_count_mem s 3 n Hw ltac:(lia) Hn) as (k & Hk & <-).
      rewrite E3 in Hk. by apply (sorted_last_max (k3 :: L3)). }
    destruct (decide (length (k3 :: L3) = 2)) as [Hl3|Hl3].
    + (* two threes *)
      destruct L3 as [|k3' [|]]; try done.
      simpl in Htwo, Ela. injection Ela as ->. rewrite Htwo in Hsel.
      destruct Hsel as [-> ->].
      assert (k3 ∈ with_count wkey_of s 3) as Hkb by (rewrite E3; left).
      apply with_count_elem in Hkb as (_ & Hcb & _); [|done].
      apply StronglySorted_inv in Hs3 as [_ Hlt]. apply Forall_cons in Hlt as [Hlt _].
      apply nf_full_house; try done. by left.
    + (* one three *)
      assert (L3 = []) as ->.
      { destruct L3 as [|x [|y L3]]; [done|done|exfalso].
        assert (Hin : ∀ k, k ∈ k3 :: x :: y :: L3 → wcount s (wnum k) = 3).
        { intros k Hin. rewrite <- E3 in Hin.
          by apply with_count_elem in Hin as (_ & ? & _). }
        pose proof (Hin k3 ltac:(set_solver)). pose proof (Hin x ltac:(set_solver)).
        pose proof (Hin y ltac:(set_solver)).
        apply sorted_NoDup in Hs3. rewrite !fmap_cons in Hs3.
        apply NoDup_cons in Hs3 as [N1 Hs3]. apply NoDup_cons in Hs3 as [N2 Hs3].
        pose proof (wcount_sum3 s (wnum k3) (wnum x) (wnum y)
          ltac:(set_solver) ltac:(set_solver) ltac:(set_solver)). lia. }
      simpl in Ela. injection Ela as <-.
      assert (∀ n, wcount s n = 3 → n = wnum k3) as Honly3.
      { intros n Hn. destruct (with_count_mem s 3 n Hw ltac:(lia) Hn) as (k & Hk & <-).
        rewrite E3 in Hk. by apply list_elem_of_singleton in Hk as ->. }
      destruct (with_count wkey_of s 2) as [|k2 L2] eqn:E2.
      * (* no pair *)
        simpl in Htwo. rewrite Htwo in Hsel.
        assert (∀ n, n ≠ wnum k3 → wcount s n ≤ 1) as Hrest.
        { intros n Hn. specialize (H4max n). specialize (Hno4 n).
          pose proof (with_count_nil_inv s 2 n Hw ltac:(lia) E2).
          destruct (decide (wcount s n = 3)) as [E|E]; [by apply Honly3 in E|lia]. }
        destruct (run_of (with_low_ace s)) as [oc|] eqn:Er.
        { destruct Hsel as [-> ->]. apply nf_straight; try done.
          intros x y Hx Hy. apply Honly3 in Hx as ->.
          destruct (decide (y = wnum k3)) as [->|Hne']; [done|].
          specialize (Hrest y Hne'). lia. }
        destruct Hsel as [-> ->].
        rewrite (with_kickers_of_weight _ _ 3) by (done || lia).
        by apply nf_three.
      * (* a pair *)
        destruct (last_is_Some_cons k2 L2) as [kb Elb].
        rewrite Elb in Htwo. rewrite Htwo in Hsel.
        destruct Hsel as [-> ->].
        assert (kb ∈ with_count wkey_of s 2) as Hkb by (rewrite E2; by apply last_elem_of).
        apply with_count_elem in Hkb as (_ & Hcb & _); [|done].
        apply nf_full_house; try done. right. split_and!; try done.
        intros n Hn. destruct (with_count_mem s 2 n Hw ltac:(lia) Hn) as (k & Hk & <-).
        rewrite E2 in Hk. by apply (sorted_last_max (k2 :: L2)).
Qed.


(** ** Parts of a group *)

Lemma submseteq_NoDup {A : Type} (l1 l2 : list A) : l1 ⊆+ l2 → NoDup l2 → NoDup l1.
Proof.
  intros [k Hk]%submseteq_Permutation Hnd. rewrite Hk in Hnd.
  by apply NoDup_app in Hnd as (? & _ & _).
Qed.

Lemma submseteq_filter_length (P : Card → Prop) `{!∀ c, Decision (P c)} l1 l2 :
  l1 ⊆+ l2 → length (filter P l1) ≤ length (filter P l2).
Proof.
  intros [k Hk]%submseteq_Permutation. rewrite Hk, filter_app, length_app. lia.
Qed.

Lemma submseteq_wcount l1 l2 n : l1 ⊆+ l2 → wcount l1 n ≤ wcount l2 n.
Proof. apply submseteq_filter_length. Qed.

Lemma submseteq_scount l1 l2 st : l1 ⊆+ l2 → scount l1 st ≤ scount l2 st.
Proof. apply submseteq_filter_length. Qed.

Lemma submseteq_Forall {A : Type} (P : A → Prop) (l1 l2 : list A) :
  l1 ⊆+ l2 → Forall P l2 → Forall P l1.
Proof.
  intros Hsub. rewrite !Forall_forall. intros H x Hx. apply H.
  by eapply elem_of_submseteq.
Qed.

Lemma valid_group_sub items s :
  items ⊆+ s → length items = 5 → valid_group s → valid_group items.
Proof.
  intros Hsub Hlen (_ & Hc & Hnd). split; [lia|]. split.
  - by eapply submseteq_Forall.
  - eapply submseteq_NoDup; [|exact Hnd]. by apply fmap_submseteq.
Qed.

Lemma no_flush_sub items s : items ⊆+ s → no_flush s → no_flush items.
Proof.
  intros Hsub Hnf st. specialize (Hnf st).
  pose proof (submseteq_scount _ _ st Hsub). lia.
Qed.

Lemma of_weight_sub a s : of_weight a s ⊆+ s.
Proof. apply sublist_submseteq, sublist_filter. Qed.

Lemma split_weight_perm a s : s ≡ₚ of_weight a s ++ not_of_weight a s.
Proof. unfold of_weight, not_of_weight. by rewrite filter_app_complement. Qed.

Lemma kickers_sub (n : nat) (N : list Card) : take n (reverse N) ⊆+ N.
Proof.
  etrans; [apply submseteq_take|]. apply Permutation_submseteq, reverse_Permutation.
Qed.

Lemma lastn_reverse_sub (n : nat) (l : list Card) : reverse (py_lastn n l) ⊆+ l.
Proof.
  rewrite reverse_Permutation. apply sublist_submseteq, sublist_drop.
Qed.

(** The weights seen by a sequence over a part of the cards. *)
Lemma wnum_with_low_ace_sub X Y n :
  (∀ c, c ∈ Y → c ∈ X) →
  n ∈ wnum <$> with_low_ace Y → n ∈ wnum <$> with_low_ace X.
Proof.
  intros Hsub. rewrite !elem_of_wnum_with_low_ace.
  assert (∀ m, m ∈ wnum <$> Y → m ∈ wnum <$> X) as Hm.
  { intros m (c & -> & Hc)%list_elem_of_fmap. apply list_elem_of_fmap.
    exists c. split; [done|]. by apply Hsub. }
  naive_solver.
Qed.

Lemma run_of_None_sub X Y :
  Forall concrete X → (∀ c, c ∈ Y → c ∈ X) →
  run_of (with_low_ace X) = None → run_of (with_low_ace (psort Y)) = None.
Proof.
  intros HX Hsub. apply run_of_None_mono.
  - by apply Forall_concrete_with_low_ace.
  - apply Forall_concrete_with_low_ace, Forall_psort.
    apply Forall_forall. intros c Hc. apply (proj1 (Forall_forall _ _) HX). by apply Hsub.
  - intros n. apply wnum_with_low_ace_sub. intros c Hc.
    rewrite psort_perm in Hc. by apply Hsub.
Qed.

(** ** Strict order *)

Lemma ascending_strict l :
  ascending l → (∀ n, wcount l n ≤ 1) →
  StronglySorted (λ a b, wnum a < wnum b) l.
Proof.
  induction l as [|x l IH]; [constructor|].
  intros [Hx Hl]%ascending_cons Hcnt. constructor.
  - apply IH; [done|]. intros n. specialize (Hcnt n). unfold wcount in *.
    rewrite of_weight_cons in Hcnt. destruct (decide (wnum x = n)); simpl in Hcnt; lia.
  - rewrite Forall_forall in *. intros y Hy. specialize (Hx y Hy). simpl in Hx.
    destruct (decide (wnum x = wnum y)) as [E|E]; [|lia]. exfalso.
    specialize (Hcnt (wnum x)). unfold wcount in Hcnt.
    rewrite of_weight_cons, decide_True in Hcnt by done. simpl in Hcnt.
    assert (y ∈ of_weight (wnum x) l) as Hin by (by apply list_elem_of_filter).
    destruct (of_weight (wnum x) l); [by apply not_elem_of_nil in Hin|simpl in Hcnt; lia].
Qed.

Lemma StronglySorted_reverse {A : Type} (R : relation A) l :
  StronglySorted R l → StronglySorted (flip R) (reverse l).
Proof.
  induction 1 as [|x l _ IH Hx]; [constructor|].
  rewrite reverse_cons. apply StronglySorted_app_2; [|done|repeat constructor].
  intros y z Hy ->%list_elem_of_singleton. unfold flip.
  apply (proj1 (Forall_forall _ _) Hx). by rewrite elem_of_reverse in Hy.
Qed.

Lemma StronglySorted_take {A : Type} (R : relation A) n l :
  StronglySorted R l → StronglySorted R (take n l).
Proof.
  intros H. rewrite <- (take_drop n l) in H.
  by apply StronglySorted_app in H as (_ & ? & _).
Qed.

Lemma StronglySorted_drop {A : Type} (R : relation A) n l :
  StronglySorted R l → StronglySorted R (drop n l).
Proof.
  intros H. rewrite <- (take_drop n l) in H.
  by apply StronglySorted_app in H as (_ & _ & ?).
Qed.

Lemma descending_reverse l : ascending l → descending (reverse l).
Proof. apply StronglySorted_reverse. Qed.

Lemma strictly_descending_reverse l :
  StronglySorted (λ a b, wnum a < wnum b) l → strictly_descending (reverse l).
Proof. apply StronglySorted_reverse. Qed.

Lemma strictly_descending_descending l : strictly_descending l → descending l.
Proof.
  induction 1 as [|x l _ IH Hx]; [constructor|]. constructor; [done|].
  eapply Forall_impl; [exact Hx|]. simpl. lia.
Qed.

Lemma filter_all (P : Card → Prop) `{!∀ c, Decision (P c)} l :
  Forall P l → filter P l = l.
Proof.
  induction 1 as [|x l Hx _ IH]; [done|].
  rewrite filter_cons, decide_True by done. by rewrite IH.
Qed.

Lemma filter_none (P : Card → Prop) `{!∀ c, Decision (P c)} l :
  Forall (λ c, ¬ P c) l → filter P l = [].
Proof.
  induction 1 as [|x l Hx _ IH]; [done|].
  rewrite filter_cons, decide_False by done. by rewrite IH.
Qed.

Lemma length_py_lastn {A : Type} n (l : list A) :
  n ≤ length l → length (py_lastn n l) = n.
Proof. intros H. unfold py_lastn. rewrite length_drop. lia. Qed.

Lemma length_kickers {A : Type} n (l : list A) :
  n ≤ length l → length (take n (reverse l)) = n.
Proof. intros H. rewrite length_take, length_reverse. lia. Qed.


(** ** The five cards of a combination and their order *)

Lemma same_weight_of_weight a s : same_weight (of_weight a s).
Proof. exists a. apply Forall_filter_self. Qed.

Lemma same_weight_take n g : same_weight g → same_weight (take n g).
Proof. intros [a H]. exists a. by apply Forall_take. Qed.

Lemma descending_same_weight g : same_weight g → descending g.
Proof.
  intros [n H]. induction H as [|x l Hx Hl IH]; [constructor|].
  constructor; [done|]. eapply Forall_impl; [exact Hl|]. simpl. lia.
Qed.

Lemma descending_kickers n N : ascending N → descending (take n (reverse N)).
Proof. intros H. by apply StronglySorted_take, descending_reverse. Qed.

Lemma well_ordered_five t items :
  defining_shape t = [5] → length items = 5 → descending items →
  well_ordered t items.
Proof.
  intros Hs Hlen Hd. exists [items], []. rewrite Hs. simpl. rewrite !app_nil_r.
  split_and!; try done; [by rewrite Hlen|repeat constructor; done|constructor|].
  by left.
Qed.

Lemma run_of_descending X items :
  Forall concrete X → run_of X = Some items →
  length items = 5 ∧ strictly_descending items.
Proof.
  intros HX Hr.
  destruct (run_of_cards X items HX Hr)
    as (b & c0 & c1 & c2 & c3 & c4 & Hb & _ & -> & _ & W0 & W1 & W2 & W3 & W4 & _).
  split; [done|]. apply strictly_descending_5; lia.
Qed.

Lemma well_ordered_nf s t items :
  Forall concrete s → ascending s → 5 ≤ length s →
  nf s t items → length items = 5 ∧ well_ordered t items.
Proof.
  intros Hc Hasc Hlen Hnf. destruct Hnf.
  - apply (run_of_descending (with_low_ace (of_suit st s))) in H0 as [? ?].
    2:{ by apply Forall_concrete_with_low_ace, Forall_filter_keep. }
    split; [done|]. apply well_ordered_five; [done|done|].
    by apply strictly_descending_descending.
  - assert (length (reverse (py_lastn 5 (of_suit st s))) = 5) as Hl.
    { rewrite length_reverse. by apply length_py_lastn. }
    split; [done|]. apply well_ordered_five; [done|done|].
    apply descending_reverse. apply StronglySorted_drop. by apply ascending_filter.
  - pose proof (length_split_weight a s) as Hsp.
    assert (length (take 1 (reverse (not_of_weight a s))) = 1) as Hk
      by (apply length_kickers; lia).
    split; [rewrite length_app; unfold wcount in *; lia|].
    exists [of_weight a s], (take 1 (reverse (not_of_weight a s))).
    simpl. rewrite app_nil_r. split_and!; try done.
    + unfold wcount in *. cbv [defining_shape]. simpl. congruence.
    + repeat constructor. apply descending_same_weight, same_weight_of_weight.
    + apply descending_kickers. by apply ascending_filter.
    + right. repeat constructor. apply same_weight_of_weight.
  - assert (2 ≤ wcount s b) as Hb by (destruct H3 as [[? _]|(_ & ? & _)]; lia).
    assert (length (take 2 (of_weight b s)) = 2) as Hk
      by (rewrite length_take; unfold wcount in Hb; lia).
    split; [rewrite length_app; unfold wcount in *; lia|].
    exists [of_weight a s; take 2 (of_weight b s)], [].
    simpl. rewrite !app_nil_r. split_and!; try done.
    + unfold wcount in *. cbv [defining_shape]. simpl. congruence.
    + repeat constructor; apply descending_same_weight;
        [|apply same_weight_take]; apply same_weight_of_weight.
    + constructor.
    + right. repeat constructor; [|apply same_weight_take]; apply same_weight_of_weight.
  - apply (run_of_descending (with_low_ace s)) in H2 as [? ?].
    2:{ by apply Forall_concrete_with_low_ace. }
    split; [done|]. apply well_ordered_five; [done|done|].
    by apply strictly_descending_descending.
  - pose proof (length_split_weight a s) as Hsp.
    assert (length (take 2 (reverse (not_of_weight a s))) = 2) as Hk
      by (apply length_kickers; lia).
    split; [rewrite length_app; unfold wcount in *; lia|].
    exists [of_weight a s], (take 2 (reverse (not_of_weight a s))).
    simpl. rewrite app_nil_r. split_and!; try done.
    + unfold wcount in *. cbv [defining_shape]. simpl. congruence.
    + repeat constructor. apply descending_same_weight, same_weight_of_weight.
    + apply descending_kickers. by apply ascending_filter.
    + right. repeat constructor. apply same_weight_of_weight.
  - set (F := filter (λ c, wnum c ≠ hi ∧ wnum c ≠ lo) s).
    assert (length s = wcount s hi + wcount s lo + length F) as Hsp.
    { rewrite (length_split_weight hi s), (length_split_weight lo (not_of_weight hi s)).
      rewrite wcount_not_of_weight by lia. unfold F, not_of_weight.
      rewrite list_filter_filter. rewrite Nat.add_assoc. f_equal. f_equal.
      apply list_filter_iff. intros c. tauto. }
    assert (length (take 1 (reverse F)) = 1) as Hk by (apply length_kickers; lia).
    split; [rewrite !length_app; unfold wcount in *; lia|].
    exists [of_weight hi s; of_weight lo s], (take 1 (reverse F)).
    simpl. rewrite app_nil_r, <- app_assoc. split_and!; try done.
    + unfold wcount in *. cbv [defining_shape]. simpl. congruence.
    + repeat constructor; apply descending_same_weight, same_weight_of_weight.
    + apply descending_kickers. by apply ascending_filter.
    + right. repeat constructor; apply same_weight_of_weight.
  - pose proof (length_split_weight a s) as Hsp.
    assert (length (take 3 (reverse (not_of_weight a s))) = 3) as Hk
      by (apply length_kickers; lia).
    split; [rewrite length_app; unfold wcount in *; lia|].
    exists [of_weight a s], (take 3 (reverse (not_of_weight a s))).
    simpl. rewrite app_nil_r. split_and!; try done.
    + unfold wcount in *. cbv [defining_shape]. simpl. congruence.
    + repeat constructor. apply descending_same_weight, same_weight_of_weight.
    + apply descending_kickers. by apply ascending_filter.
    + right. repeat constructor. apply same_weight_of_weight.
  - assert (length (reverse (py_lastn 5 s)) = 5) as Hl.
    { rewrite length_reverse. by apply length_py_lastn. }
    split; [done|]. apply well_ordered_five; [done|done|].
    apply descending_reverse. by apply StronglySorted_drop.
Qed.


(** ** The outcome is determined by the counts *)

(** Instantiate every counting hypothesis at every weight in sight. *)
Ltac inst_counts :=
  repeat match goal with
  | H : (∀ n : nat, @?P n), a : nat |- _ =>
      let T := eval cbv beta in (P a) in
      lazymatch goal with
      | _ : T |- _ => fail
      | _ => pose proof (H a : T)
      end
  end.

Ltac inst_suits :=
  repeat match goal with
  | H : no_flush _, st : Suit |- _ =>
      lazymatch goal with
      | _ : scount _ st < 5 |- _ => fail
      | _ => pose proof (H st)
      end
  end.

Ltac count_contra := exfalso; inst_suits; inst_counts; (lia || congruence).

Ltac split_eqs :=
  repeat match goal with
  | a : nat, b : nat |- _ =>
      lazymatch goal with
      | _ : a ≠ b |- _ => fail
      | _ : b ≠ a |- _ => fail
      | _ => destruct (decide (a = b)) as [->|?]
      end
  end.

Ltac nf_cases H :=
  destruct H; split_eqs;
  try done; try (split; [done|congruence]); try count_contra.

Lemma nf_five_distinct s oc t items :
  no_flush s → (∀ n, wcount s n ≤ 1) → run_of (with_low_ace s) = Some oc →
  nf s t items → t = STRAIGHT ∧ items = oc.
Proof. intros Hnf Hcnt Hrun H. nf_cases H. Qed.

Lemma nf_high s t items :
  no_flush s → (∀ n, wcount s n ≤ 1) → run_of (with_low_ace s) = None →
  nf s t items → t = HIGH_CARD ∧ items = reverse (py_lastn 5 s).
Proof. intros Hnf Hcnt Hrun H. nf_cases H. Qed.

Lemma nf_four_inv s a t items :
  no_flush s → wcount s a = 4 → (∀ n, n ≠ a → wcount s n ≤ 1) →
  nf s t items →
  t = FOUR_OF_A_KIND ∧ items = of_weight a s ++ take 1 (reverse (not_of_weight a s)).
Proof. intros Hnf Ha Hcnt H. nf_cases H. Qed.

Lemma nf_full_house_inv s a b t items :
  no_flush s → wcount s a = 3 → wcount s b = 2 → (∀ n, n ≠ a → n ≠ b → wcount s n ≤ 1) →
  nf s t items →
  t = FULL_HOUSE ∧ items = of_weight a s ++ take 2 (of_weight b s).
Proof.
  intros Hnf Ha Hb Hcnt H. nf_cases H.
Qed.

Lemma nf_three_inv s a t items :
  no_flush s → run_of (with_low_ace s) = None →
  wcount s a = 3 → (∀ n, n ≠ a → wcount s n ≤ 1) →
  nf s t items →
  t = THREE_OF_A_KIND ∧ items = of_weight a s ++ take 2 (reverse (not_of_weight a s)).
Proof. intros Hnf Hrun Ha Hcnt H. nf_cases H. Qed.

Lemma nf_two_pairs_inv s lo hi t items :
  no_flush s → run_of (with_low_ace s) = None → lo < hi →
  wcount s lo = 2 → wcount s hi = 2 → (∀ n, n ≠ lo → n ≠ hi → wcount s n ≤ 1) →
  nf s t items →
  t = TWO_PAIRS ∧
  items = of_weight hi s ++ of_weight lo s
          ++ take 1 (reverse (filter (λ c, wnum c ≠ hi ∧ wnum c ≠ lo) s)).
Proof. intros Hnf Hrun Hlt Hlo Hhi Hcnt H. nf_cases H. Qed.

Lemma nf_one_pair_inv s a t items :
  no_flush s → run_of (with_low_ace s) = None →
  wcount s a = 2 → (∀ n, n ≠ a → wcount s n ≤ 1) →
  nf s t items →
  t = ONE_PAIR ∧ items = of_weight a s ++ take 3 (reverse (not_of_weight a s)).
Proof. intros Hnf Hrun Ha Hcnt H. nf_cases H. Qed.

Lemma scount_other_suit s st st' :
  Forall (λ c, suit c = Some st) s → st' ≠ st → scount s st' = 0.
Proof.
  intros Hall Hne. unfold scount, of_suit. rewrite filter_none; [done|].
  eapply Forall_impl; [exact Hall|]. simpl. congruence.
Qed.

Lemma nf_one_suit s st oc t items :
  Forall (λ c, suit c = Some st) s → 5 ≤ length s →
  run_of (with_low_ace s) = oc →
  nf s t items →
  match oc with
  | Some items0 => t = STRAIGHT_FLUSH ∧ items = items0
  | None => t = FLUSH ∧ items = reverse (py_lastn 5 s)
  end.
Proof.
  intros Hall Hlen Hrun H.
  assert (of_suit st s = s) as Hfs by (by apply filter_all).
  assert (scount s st = length s) as Hcs by (unfold scount; by rewrite Hfs).
  assert (∀ st', 5 ≤ scount s st' → st' = st) as Hst.
  { intros st' H5. destruct (decide (st' = st)); [done|].
    rewrite (scount_other_suit s st st') in H5 by done. lia. }
  destruct H; try (exfalso; pose proof (H st); lia).
  - apply Hst in H as ->. rewrite Hfs in H0. rewrite H0 in Hrun. by subst.
  - apply Hst in H as ->. rewrite Hfs in H0 |- *. rewrite H0 in Hrun. by subst.
Qed.


(** ** Counting in the five cards of a combination *)

Lemma wcount_app l1 l2 n : wcount (l1 ++ l2) n = wcount l1 n + wcount l2 n.
Proof. unfold wcount, of_weight. by rewrite filter_app, length_app. Qed.

Lemma of_weight_app a l1 l2 : of_weight a (l1 ++ l2) = of_weight a l1 ++ of_weight a l2.
Proof. unfold of_weight. by rewrite filter_app. Qed.

Lemma not_of_weight_app a l1 l2 :
  not_of_weight a (l1 ++ l2) = not_of_weight a l1 ++ not_of_weight a l2.
Proof. unfold not_of_weight. by rewrite filter_app. Qed.

Lemma of_weight_same a G : Forall (λ c, wnum c = a) G → of_weight a G = G.
Proof. apply filter_all. Qed.

Lemma of_weight_other a G : Forall (λ c, wnum c ≠ a) G → of_weight a G = [].
Proof. apply of_weight_none. Qed.

Lemma not_of_weight_same a G : Forall (λ c, wnum c = a) G → not_of_weight a G = [].
Proof.
  intros H. unfold not_of_weight. apply filter_none.
  eapply Forall_impl; [exact H|]. simpl. tauto.
Qed.

Lemma not_of_weight_other a G : Forall (λ c, wnum c ≠ a) G → not_of_weight a G = G.
Proof. apply filter_all. Qed.

Lemma wcount_same a G : Forall (λ c, wnum c = a) G → wcount G a = length G.
Proof. intros H. unfold wcount. by rewrite of_weight_same. Qed.

Lemma wcount_other a G n : Forall (λ c, wnum c = a) G → n ≠ a → wcount G n = 0.
Proof.
  intros H Hn. unfold wcount. rewrite of_weight_other; [done|].
  eapply Forall_impl; [exact H|]. simpl. congruence.
Qed.

Lemma wcount_absent a G : Forall (λ c, wnum c ≠ a) G → wcount G a = 0.
Proof. intros H. unfold wcount. by rewrite of_weight_other. Qed.

Lemma wcount_le_length l n : wcount l n ≤ length l.
Proof. apply length_filter. Qed.

Lemma Forall_of_weight a s : Forall (λ c, wnum c = a) (of_weight a s).
Proof. apply Forall_filter_self. Qed.

Lemma Forall_not_of_weight a s : Forall (λ c, wnum c ≠ a) (not_of_weight a s).
Proof. apply Forall_filter_self. Qed.

Lemma Forall_other_weight a b l :
  a ≠ b → Forall (λ c, wnum c = b) l → Forall (λ c, wnum c ≠ a) l.
Proof. intros Hab H. eapply Forall_impl; [exact H|]. simpl. congruence. Qed.

Lemma py_lastn_all {A : Type} n (l : list A) : length l = n → py_lastn n l = l.
Proof. intros <-. unfold py_lastn. by rewrite Nat.sub_diag. Qed.

Lemma NoDup_wnum_wcount l n : NoDup (wnum <$> l) → wcount l n ≤ 1.
Proof.
  induction l as [|x l IH]; [unfold wcount; simpl; lia|]. rewrite fmap_cons.
  intros [Hx Hl]%NoDup_cons. unfold wcount in *. rewrite of_weight_cons.
  destruct (decide (wnum x = n)) as [<-|]; [|by apply IH].
  rewrite of_weight_other; [simpl; lia|].
  apply Forall_forall. intros y Hy E. apply Hx. rewrite <- E.
  apply list_elem_of_fmap. by exists y.
Qed.

Lemma NoDup_wnum_card_key l : NoDup (wnum <$> l) → NoDup (card_key <$> l).
Proof.
  intros H.
  replace (wnum <$> l)
    with ((λ k, from_option WeightM.number 0 k.1) <$> (card_key <$> l)) in H
    by (rewrite <- list_fmap_compose; done).
  by apply NoDup_fmap_1 in H.
Qed.

Lemma strictly_descending_NoDup l : strictly_descending l → NoDup (wnum <$> l).
Proof.
  induction 1 as [|x l _ IH Hx]; [constructor|].
  rewrite fmap_cons. constructor; [|done].
  intros (y & E & Hy)%list_elem_of_fmap.
  pose proof (proj1 (Forall_forall _ _) Hx y Hy) as Hlt. simpl in Hlt. lia.
Qed.

(** The kickers come back in the same order. *)
Lemma rekick (P : Card → Prop) `{!∀ c, Decision (P c)} K n :
  Forall P K → strictly_descending K → length K = n →
  take n (reverse (psort (filter P K))) = K.
Proof.
  intros HP Hd Hn. rewrite filter_all by done.
  rewrite psort_strictly_descending by done.
  rewrite reverse_involutive. rewrite take_ge; [done|lia].
Qed.

Lemma strictly_descending_kickers n N :
  ascending N → (∀ m, wcount N m ≤ 1) → strictly_descending (take n (reverse N)).
Proof.
  intros Ha Hc. apply StronglySorted_take, strictly_descending_reverse.
  by apply ascending_strict.
Qed.

Lemma strictly_descending_one (K : list Card) : length K = 1 → strictly_descending K.
Proof. destruct K as [|k [|]]; try done. intros _. repeat constructor. Qed.

Lemma wcount_filter_le (P : Card → Prop) `{!∀ c, Decision (P c)} s n :
  wcount (filter P s) n ≤ wcount s n.
Proof. apply submseteq_wcount, sublist_submseteq, sublist_filter. Qed.


(** ** Classifying the five cards of a combination again *)

Lemma no_flush_psort l : no_flush l → no_flush (psort l).
Proof. intros H st. rewrite scount_psort. apply H. Qed.

Lemma top_five_again items :
  strictly_descending items → length items = 5 →
  reverse (py_lastn 5 (psort items)) = items.
Proof.
  intros Hd Hlen. rewrite py_lastn_all by (by rewrite length_psort).
  rewrite psort_strictly_descending by done. apply reverse_involutive.
Qed.

Lemma elem_of_sub (items s : list Card) : items ⊆+ s → ∀ c, c ∈ items → c ∈ s.
Proof. intros H c Hc. by eapply elem_of_submseteq. Qed.

Lemma re_high_card s :
  valid_group s → ascending s →
  no_flush s → run_of (with_low_ace s) = None → (∀ n, wcount s n ≤ 1) →
  valid_group (reverse (py_lastn 5 s)) ∧
  ∀ t' items', nf (psort (reverse (py_lastn 5 s))) t' items' →
    t' = HIGH_CARD ∧ items' = reverse (py_lastn 5 s).
Proof.
  intros Hv Hasc Hnf Hrun Hcnt. set (items := reverse (py_lastn 5 s)).
  pose proof Hv as ((Hlen & _) & Hc & _).
  assert (length items = 5) as Hl5.
  { unfold items. rewrite length_reverse. by apply length_py_lastn. }
  assert (items ⊆+ s) as Hsub by apply lastn_reverse_sub.
  assert (strictly_descending items) as Hsd.
  { apply strictly_descending_reverse, StronglySorted_drop. by apply ascending_strict. }
  split; [by apply (valid_group_sub items s)|].
  intros t' items' H.
  apply nf_high in H as [-> ->].
  - split; [done|]. by apply top_five_again.
  - by apply no_flush_psort, (no_flush_sub items s).
  - intros n. rewrite wcount_psort.
    pose proof (submseteq_wcount _ _ n Hsub). specialize (Hcnt n). lia.
  - apply (run_of_None_sub s); [done| |done]. by apply elem_of_sub.
Qed.

Lemma Forall_suit_of_suit st s : Forall (λ c, suit c = Some st) (of_suit st s).
Proof. apply Forall_filter_self. Qed.

Lemma re_flush s st :
  valid_group s → ascending s →
  5 ≤ scount s st → run_of (with_low_ace (of_suit st s)) = None →
  valid_group (reverse (py_lastn 5 (of_suit st s))) ∧
  ∀ t' items', nf (psort (reverse (py_lastn 5 (of_suit st s)))) t' items' →
    t' = FLUSH ∧ items' = reverse (py_lastn 5 (of_suit st s)).
Proof.
  intros Hv Hasc H5 Hrun. set (fc := of_suit st s) in *.
  set (items := reverse (py_lastn 5 fc)).
  pose proof Hv as (_ & Hc & Hnd).
  assert (length items = 5) as Hl5.
  { unfold items. rewrite length_reverse. by apply length_py_lastn. }
  assert (fc ⊆+ s) as Hfs by apply sublist_submseteq, sublist_filter.
  assert (items ⊆+ fc) as Hsub by apply lastn_reverse_sub.
  assert (Forall concrete fc) as Hfc by (by apply Forall_filter_keep).
  assert (strictly_descending items) as Hsd.
  { apply strictly_descending_reverse, StronglySorted_drop.
    apply ascending_strict; [by apply ascending_filter|].
    intros n. apply NoDup_wnum_wcount, NoDup_wnum_of_suit; [|done].
    by apply Forall_concrete_has_weight. }
  split; [apply (valid_group_sub items s); [by etrans|done|done]|].
  intros t' items' H.
  apply (nf_one_suit _ st None) in H as [-> ->].
  - split; [done|]. by apply top_five_again.
  - apply Forall_psort. eapply submseteq_Forall; [exact Hsub|].
    apply Forall_suit_of_suit.
  - rewrite length_psort. lia.
  - apply (run_of_None_sub fc); [done| |done]. by apply elem_of_sub.
Qed.


(** One weight group followed by its kickers. *)
Lemma kicker_parts s a k :
  valid_group s →
  wcount s a + k = 5 → k ≤ length (not_of_weight a s) →
  let G := of_weight a s in
  let K := take k (reverse (not_of_weight a s)) in
  valid_group (G ++ K) ∧ length K = k ∧ G ++ K ⊆+ s ∧ K ⊆+ not_of_weight a s ∧
  wcount (psort (G ++ K)) a = wcount s a ∧
  (∀ n, n ≠ a → wcount (psort (G ++ K)) n = wcount K n) ∧
  (strictly_descending K →
   of_weight a (psort (G ++ K))
   ++ take k (reverse (not_of_weight a (psort (G ++ K)))) = G ++ K).
Proof.
  intros Hv Hsum Hk G K.
  assert (length K = k) as HlK by (by apply length_kickers).
  assert (K ⊆+ not_of_weight a s) as HKN by apply kickers_sub.
  assert (G ++ K ⊆+ s) as Hsub.
  { etrans; [|apply Permutation_submseteq; symmetry; apply (split_weight_perm a s)].
    by apply submseteq_skips_l. }
  assert (Forall (λ c, wnum c = a) G) as HG by apply Forall_of_weight.
  assert (Forall (λ c, wnum c ≠ a) K) as HK.
  { eapply submseteq_Forall; [exact HKN|]. apply Forall_not_of_weight. }
  split_and!; try done.
  - apply (valid_group_sub _ s); [done| |done].
    rewrite length_app, HlK. unfold G, wcount in *. lia.
  - rewrite wcount_psort, wcount_app, wcount_same, (wcount_absent a K) by done.
    unfold G, wcount. lia.
  - intros n Hn. rewrite wcount_psort, wcount_app.
    by rewrite (wcount_other a G n).
  - intros Hsd. rewrite of_weight_psort, of_weight_app.
    rewrite of_weight_same, (of_weight_other a K), app_nil_r by done. f_equal.
    unfold not_of_weight at 1. rewrite filter_psort, filter_app.
    fold (not_of_weight a G). rewrite not_of_weight_same by done. simpl.
    by apply rekick.
Qed.

Lemma re_four s a :
  valid_group s → ascending s → no_flush s → wcount s a = 4 →
  let items := of_weight a s ++ take 1 (reverse (not_of_weight a s)) in
  valid_group items ∧
  ∀ t' items', nf (psort items) t' items' → t' = FOUR_OF_A_KIND ∧ items' = items.
Proof.
  intros Hv Hasc Hnf Ha items. subst items. pose proof Hv as ((Hlen & _) & _).
  pose proof (length_split_weight a s) as Hsp.
  destruct (kicker_parts s a 1 Hv) as (Hvi & HlK & Hsub & HKN & Hca & Hcn & Heq);
    [lia|lia|]. cbv zeta in *.
  split; [done|]. intros t' items' H.
  apply (nf_four_inv _ a) in H as [-> ->].
  - split; [done|]. apply Heq. by apply strictly_descending_one.
  - by apply no_flush_psort, (no_flush_sub _ s).
  - by rewrite Hca.
  - intros n Hn. rewrite Hcn by done.
    pose proof (wcount_le_length (take 1 (reverse (not_of_weight a s))) n). lia.
Qed.

Lemma re_kind_kickers s a k :
  valid_group s → ascending s → no_flush s → run_of (with_low_ace s) = None →
  wcount s a + k = 5 → (∀ n, n ≠ a → wcount s n ≤ 1) →
  let items := of_weight a s ++ take k (reverse (not_of_weight a s)) in
  valid_group items ∧ no_flush (psort items) ∧
  run_of (with_low_ace (psort items)) = None ∧
  wcount (psort items) a = wcount s a ∧
  (∀ n, n ≠ a → wcount (psort items) n ≤ 1) ∧
  of_weight a (psort items) ++ take k (reverse (not_of_weight a (psort items)))
  = items.
Proof.
  intros Hv Hasc Hnf Hrun Hsum Hcnt items. subst items.
  pose proof Hv as ((Hlen & _) & Hc & _).
  pose proof (length_split_weight a s) as Hsp.
  destruct (kicker_parts s a k Hv) as (Hvi & HlK & Hsub & HKN & Hca & Hcn & Heq);
    [lia|lia|]. cbv zeta in *.
  split_and!; try done.
  - by apply no_flush_psort, (no_flush_sub _ s).
  - apply (run_of_None_sub s); [done| |done]. by apply elem_of_sub.
  - intros n Hn. rewrite Hcn by done.
    pose proof (submseteq_wcount _ _ n HKN).
    rewrite wcount_not_of_weight in H by done. specialize (Hcnt n Hn). lia.
  - apply Heq. apply strictly_descending_kickers; [by apply ascending_filter|].
    intros m. destruct (decide (m = a)) as [->|Hm].
    + rewrite wcount_absent; [lia|]. apply Forall_not_of_weight.
    + rewrite wcount_not_of_weight by done. by apply Hcnt.
Qed.

Lemma re_three s a :
  valid_group s → ascending s → no_flush s → run_of (with_low_ace s) = None →
  wcount s a = 3 → (∀ n, n ≠ a → wcount s n ≤ 1) →
  let items := of_weight a s ++ take 2 (reverse (not_of_weight a s)) in
  valid_group items ∧
  ∀ t' items', nf (psort items) t' items' → t' = THREE_OF_A_KIND ∧ items' = items.
Proof.
  intros Hv Hasc Hnf Hrun Ha Hcnt items. subst items.
  destruct (re_kind_kickers s a 2 Hv Hasc Hnf Hrun) as (Hvi & Hnf' & Hrun' & Hca & Hcn & Heq);
    [lia|done|]. cbv zeta in *.
  split; [done|]. intros t' items' H.
  apply (nf_three_inv _ a) in H as [-> ->]; try done. by rewrite Hca.
Qed.

Lemma re_one_pair s a :
  valid_group s → ascending s → no_flush s → run_of (with_low_ace s) = None →
  wcount s a = 2 → (∀ n, n ≠ a → wcount s n ≤ 1) →
  let items := of_weight a s ++ take 3 (reverse (not_of_weight a s)) in
  valid_group items ∧
  ∀ t' items', nf (psort items) t' items' → t' = ONE_PAIR ∧ items' = items.
Proof.
  intros Hv Hasc Hnf Hrun Ha Hcnt items. subst items.
  destruct (re_kind_kickers s a 3 Hv Hasc Hnf Hrun) as (Hvi & Hnf' & Hrun' & Hca & Hcn & Heq);
    [lia|done|]. cbv zeta in *.
  split; [done|]. intros t' items' H.
  apply (nf_one_pair_inv _ a) in H as [-> ->]; try done. by rewrite Hca.
Qed.


Lemma of_weight_not_of_weight a b s :
  a ≠ b → of_weight b (not_of_weight a s) = of_weight b s.
Proof.
  intros Hab. unfold of_weight, not_of_weight. rewrite list_filter_filter.
  apply list_filter_iff. intros c. naive_solver.
Qed.

Lemma of_weight_sub_not a b s : a ≠ b → of_weight b s ⊆+ not_of_weight a s.
Proof.
  intros Hab. rewrite <- (of_weight_not_of_weight a b s Hab).
  apply sublist_submseteq, sublist_filter.
Qed.

Lemma re_full_house s a b :
  valid_group s → ascending s → no_flush s →
  wcount s a = 3 → 2 ≤ wcount s b → a ≠ b →
  let items := of_weight a s ++ take 2 (of_weight b s) in
  valid_group items ∧
  ∀ t' items', nf (psort items) t' items' → t' = FULL_HOUSE ∧ items' = items.
Proof.
  intros Hv Hasc Hnf Ha Hb Hab items. subst items.
  set (T := of_weight a s). set (P := take 2 (of_weight b s)).
  assert (length P = 2) as HlP by (unfold P; rewrite length_take; unfold wcount in Hb; lia).
  assert (Forall (λ c, wnum c = a) T) as HT by apply Forall_of_weight.
  assert (Forall (λ c, wnum c = b) P) as HP by (apply Forall_take, Forall_of_weight).
  assert (T ++ P ⊆+ s) as Hsub.
  { etrans; [|apply Permutation_submseteq; symmetry; apply (split_weight_perm a s)].
    apply submseteq_skips_l. etrans; [apply submseteq_take|]. by apply of_weight_sub_not. }
  assert (valid_group (T ++ P)) as Hvi.
  { apply (valid_group_sub _ s); [done| |done].
    rewrite length_app, HlP. unfold T, wcount in *. lia. }
  split; [done|]. intros t' items' H.
  apply (nf_full_house_inv _ a b) in H as [-> ->].
  - split; [done|]. rewrite !of_weight_psort, !of_weight_app.
    rewrite (of_weight_same a T), (of_weight_other a P), (of_weight_other b T),
      (of_weight_same b P), app_nil_r by
      (done || (eapply Forall_other_weight; [|done]; done)).
    simpl. rewrite take_ge by lia. done.
  - by apply no_flush_psort, (no_flush_sub _ s).
  - rewrite wcount_psort, wcount_app, (wcount_same a T), (wcount_other b P a) by done.
    unfold T, wcount in *. lia.
  - rewrite wcount_psort, wcount_app, (wcount_other a T b), (wcount_same b P) by done.
    lia.
  - intros n Hna Hnb.
    rewrite wcount_psort, wcount_app, (wcount_other a T n), (wcount_other b P n) by done.
    lia.
Qed.

Lemma split_two_weights_perm hi lo s :
  lo ≠ hi →
  s ≡ₚ of_weight hi s ++ of_weight lo s
       ++ filter (λ c, wnum c ≠ hi ∧ wnum c ≠ lo) s.
Proof.
  intros Hne. rewrite (split_weight_perm hi s) at 1. f_equiv.
  rewrite (split_weight_perm lo (not_of_weight hi s)).
  rewrite of_weight_not_of_weight by done. f_equiv.
  assert (not_of_weight lo (not_of_weight hi s)
          = filter (λ c, wnum c ≠ hi ∧ wnum c ≠ lo) s) as ->; [|done].
  unfold not_of_weight. rewrite list_filter_filter.
  apply list_filter_iff. intros c. tauto.
Qed.

Lemma re_two_pairs s lo hi :
  valid_group s → ascending s → no_flush s → run_of (with_low_ace s) = None →
  lo < hi → wcount s lo = 2 → wcount s hi = 2 →
  let items := of_weight hi s ++ of_weight lo s
               ++ take 1 (reverse (filter (λ c, wnum c ≠ hi ∧ wnum c ≠ lo) s)) in
  valid_group items ∧
  ∀ t' items', nf (psort items) t' items' → t' = TWO_PAIRS ∧ items' = items.
Proof.
  intros Hv Hasc Hnf Hrun Hlt Hlo Hhi items. subst items.
  pose proof Hv as ((Hlen & _) & Hc & _).
  set (Hi := of_weight hi s). set (Lo := of_weight lo s).
  set (F := filter (λ c, wnum c ≠ hi ∧ wnum c ≠ lo) s).
  set (K := take 1 (reverse F)).
  pose proof (split_two_weights_perm hi lo s ltac:(lia)) as Hperm.
  fold Hi Lo F in Hperm.
  assert (length s = 4 + length F) as HlF.
  { rewrite (Permutation_length Hperm). rewrite !length_app. unfold Hi, Lo, wcount in *. lia. }
  assert (length K = 1) as HlK by (unfold K; apply length_kickers; lia).
  assert (K ⊆+ F) as HKF by apply kickers_sub.
  assert (Forall (λ c, wnum c = hi) Hi) as HHi by apply Forall_of_weight.
  assert (Forall (λ c, wnum c = lo) Lo) as HLo by apply Forall_of_weight.
  assert (Forall (λ c, wnum c ≠ hi ∧ wnum c ≠ lo) K) as HK.
  { eapply submseteq_Forall; [exact HKF|]. apply Forall_filter_self. }
  assert (Forall (λ c, wnum c ≠ hi) K) as HKh
    by (eapply Forall_impl; [exact HK|]; simpl; tauto).
  assert (Forall (λ c, wnum c ≠ lo) K) as HKl
    by (eapply Forall_impl; [exact HK|]; simpl; tauto).
  assert (Hi ++ Lo ++ K ⊆+ s) as Hsub.
  { etrans; [|apply Permutation_submseteq; symmetry; exact Hperm].
    by do 2 apply submseteq_skips_l. }
  assert (valid_group (Hi ++ Lo ++ K)) as Hvi.
  { apply (valid_group_sub _ s); [done| |done].
    rewrite !length_app, HlK. unfold Hi, Lo, wcount in *. lia. }
  split; [done|]. intros t' items' H.
  apply (nf_two_pairs_inv _ lo hi) in H as [-> ->]; try done.
  - split; [done|]. rewrite !of_weight_psort, !of_weight_app.
    rewrite (of_weight_same hi Hi), (of_weight_other hi Lo), (of_weight_other hi K),
      (of_weight_other lo Hi), (of_weight_same lo Lo), (of_weight_other lo K)
      by (done || (eapply Forall_other_weight; [|done]; lia)).
    rewrite !app_nil_r. simpl. f_equal. f_equal.
    rewrite filter_psort, !filter_app.
    rewrite (filter_none _ Hi), (filter_none _ Lo).
    + simpl. apply rekick; [done|by apply strictly_descending_one|done].
    + eapply Forall_impl; [exact HLo|]. simpl. intros c -> [_ ?]. done.
    + eapply Forall_impl; [exact HHi|]. simpl. intros c -> [? _]. done.
  - by apply no_flush_psort, (no_flush_sub _ s).
  - apply (run_of_None_sub s); [done| |done]. by apply elem_of_sub.
  - rewrite wcount_psort, !wcount_app, (wcount_other hi Hi lo), (wcount_same lo Lo),
      (wcount_absent lo K) by (done || lia). unfold Lo, wcount in *. lia.
  - rewrite wcount_psort, !wcount_app, (wcount_same hi Hi), (wcount_other lo Lo hi),
      (wcount_absent hi K) by (done || lia). unfold Hi, wcount in *. lia.
  - intros n Hn1 Hn2.
    rewrite wcount_psort, !wcount_app, (wcount_other hi Hi n), (wcount_other lo Lo n)
      by done.
    pose proof (wcount_le_length K n). lia.
Qed.


(** ** Classifying a straight again *)

Lemma re_run Z oc :
  Forall concrete Z → run_of (with_low_ace Z) = Some oc →
  length oc = 5 ∧ strictly_descending oc ∧ Forall concrete oc ∧
  NoDup (card_key <$> oc) ∧ (∀ n, wcount (psort oc) n ≤ 1) ∧
  Forall (λ c, c ∈ with_low_ace Z) oc ∧
  run_of (with_low_ace (psort oc)) = Some oc.
Proof.
  intros HZ Hr.
  pose proof (Forall_concrete_with_low_ace Z HZ) as HX.
  destruct (run_of_descending _ _ HX Hr) as [Hlen Hsd].
  destruct (run_of_cards _ _ HX Hr)
    as (b & c0 & c1 & c2 & c3 & c4 & Hb & _ & _ & Hin & _).
  clear c0 c1 c2 c3 c4.
  pose proof (strictly_descending_NoDup oc Hsd) as Hnd.
  split_and!; try done.
  - eapply Forall_impl; [exact Hin|]. intros c Hc.
    by apply (proj1 (Forall_forall _ _) HX).
  - by apply NoDup_wnum_card_key.
  - intros n. rewrite wcount_psort. by apply NoDup_wnum_wcount.
  - apply (run_of_fixpoint (with_low_ace Z)); [done|done|].
    intros (c & E & Hc)%list_elem_of_fmap.
    assert (13 ∈ wnum <$> with_low_ace Z) as H13.
    { rewrite E. apply list_elem_of_fmap. exists c. split; [done|].
      by apply (proj1 (Forall_forall _ _) Hin). }
    apply elem_of_wnum_with_low_ace in H13 as [H13|[? _]]; [|done].
    apply elem_of_wnum_with_low_ace. by right.
Qed.

Lemma valid_group_run Z oc :
  Forall concrete Z → run_of (with_low_ace Z) = Some oc → valid_group oc.
Proof.
  intros HZ Hr. destruct (re_run Z oc HZ Hr) as (Hlen & _ & Hc & Hnd & _).
  split; [lia|done].
Qed.

Lemma Forall_suit_with_low_ace st fc :
  Forall (λ c, suit c = Some st) fc → Forall (λ c, suit c = Some st) (with_low_ace fc).
Proof.
  intros H. unfold with_low_ace.
  destruct (last (of_weight 13 fc)) as [ace|] eqn:E; [|done].
  constructor; [|done]. apply last_of_weight_Some in E as [Hin _].
  simpl. by apply (proj1 (Forall_forall _ _) H).
Qed.

Lemma re_straight_flush s st items :
  valid_group s → 5 ≤ scount s st →
  run_of (with_low_ace (of_suit st s)) = Some items →
  valid_group items ∧
  ∀ t' items', nf (psort items) t' items' → t' = STRAIGHT_FLUSH ∧ items' = items.
Proof.
  intros (_ & Hc & _) H5 Hr.
  assert (Forall concrete (of_suit st s)) as Hfc by (by apply Forall_filter_keep).
  destruct (re_run _ _ Hfc Hr) as (Hlen & Hsd & Hci & Hnd & Hcnt & Hin & Hfix).
  split; [by apply (valid_group_run (of_suit st s))|].
  intros t' items' H.
  apply (nf_one_suit _ st (Some items)) in H; [done| | |done].
  - apply Forall_psort. eapply Forall_impl; [exact Hin|]. simpl. intros c Hc'.
    exact (proj1 (Forall_forall _ _)
             (Forall_suit_with_low_ace st _ (Forall_suit_of_suit st s)) c Hc').
  - rewrite length_psort. lia.
Qed.

Lemma filter_length_all (P : Card → Prop) `{!∀ c, Decision (P c)} l :
  length (filter P l) = length l → Forall P l.
Proof.
  induction l as [|x l IH]; [constructor|]. rewrite filter_cons.
  pose proof (length_filter P l). destruct (decide (P x)); simpl; intros E; [|lia].
  constructor; [done|]. apply IH. lia.
Qed.

Lemma members_scount L s st :
  NoDup L → Forall (λ c, c ∈ s ∧ suit c = Some st) L → length L ≤ scount s st.
Proof.
  intros Hnd HL. apply submseteq_length, NoDup_submseteq; [done|].
  intros c Hc. apply list_elem_of_filter.
  destruct (proj1 (Forall_forall _ _) HL c Hc). done.
Qed.

Lemma no_flush_run s oc :
  Forall concrete s → no_flush s → run_of (with_low_ace s) = Some oc → no_flush oc.
Proof.
  intros Hc Hnf Hr st.
  destruct (decide (scount oc st < 5)) as [|Hge]; [done|exfalso].
  pose proof (Forall_concrete_with_low_ace s Hc) as HX.
  destruct (run_of_cards _ _ HX Hr)
    as (b & c0 & c1 & c2 & c3 & c4 & Hb & _ & -> & Hin & W0 & W1 & W2 & W3 & W4 & _).
  assert (Forall (λ c, suit c = Some st) [c0; c1; c2; c3; c4]) as Hst.
  { apply (filter_length_all (λ c, suit c = Some st)). pose proof (length_filter (λ c, suit c = Some st) [c0; c1; c2; c3; c4]).
    unfold scount, of_suit in Hge. simpl length in *. lia. }
  specialize (Hnf st).
  assert (∃ L, NoDup L ∧ Forall (λ c, c ∈ s ∧ suit c = Some st) L ∧ length L = 5)
    as (L & HL1 & HL2 & HL3).
  2:{ pose proof (members_scount L s st HL1 HL2). lia. }
  rewrite !Forall_cons in Hin, Hst.
  destruct Hin as (I0 & I1 & I2 & I3 & I4 & _).
  destruct Hst as (S0 & S1 & S2 & S3 & S4 & _).
  unfold with_low_ace in *.
  destruct (last (of_weight 13 s)) as [ace|] eqn:Ea.
  - apply last_of_weight_Some in Ea as [Hace Hwa].
    assert (∀ c, c ∈ low_ace ace :: s → 0 < wnum c → c ∈ s) as Hs.
    { intros c [->|?]%elem_of_cons; [|done]. unfold low_ace, wnum. simpl. lia. }
    apply Hs in I0, I1, I2, I3; try lia.
    apply elem_of_cons in I4 as [->|I4].
    + exists [c0; c1; c2; c3; ace]. split_and!; [| |done].
      * apply (NoDup_fmap_1 wnum). simpl. rewrite W0, W1, W2, W3, Hwa.
        change (wnum (low_ace ace)) with 0 in W4.
        assert (b = 9) as -> by lia. simpl.
        repeat (constructor; [set_solver by lia|]). constructor.
      * repeat (constructor; [done|]). constructor.
    + exists [c0; c1; c2; c3; c4]. split_and!; [| |done].
      * apply (NoDup_fmap_1 wnum). simpl. rewrite W0, W1, W2, W3, W4.
        repeat (constructor; [set_solver by lia|]). constructor.
      * repeat (constructor; [done|]). constructor.
  - exists [c0; c1; c2; c3; c4]. split_and!; [| |done].
    + apply (NoDup_fmap_1 wnum). simpl. rewrite W0, W1, W2, W3, W4.
      repeat (constructor; [set_solver by lia|]). constructor.
    + repeat (constructor; [done|]). constructor.
Qed.

Lemma re_straight s items :
  valid_group s → no_flush s → run_of (with_low_ace s) = Some items →
  valid_group items ∧
  ∀ t' items', nf (psort items) t' items' → t' = STRAIGHT ∧ items' = items.
Proof.
  intros (_ & Hc & _) Hnf Hr.
  destruct (re_run _ _ Hc Hr) as (Hlen & Hsd & Hci & Hnd & Hcnt & Hin & Hfix).
  split; [by apply (valid_group_run s)|].
  intros t' items' H.
  apply (nf_five_distinct _ items) in H; [done| |done|done].
  apply no_flush_psort. by apply (no_flush_run s).
Qed.


Lemma reclassify s t items :
  valid_group s → ascending s → nf s t items →
  valid_group items ∧
  ∀ t' items', nf (psort items) t' items' → t' = t ∧ items' = items.
Proof.
  intros Hv Hasc H. destruct H.
  - by apply (re_straight_flush s st).
  - by apply (re_flush s st).
  - by apply (re_four s a).
  - apply (re_full_house s a b); try done.
    + destruct H3 as [[? _]|(_ & ? & _)]; lia.
    + destruct H3 as [[? ?]|(_ & ? & _)]; [lia|]. intros ->. lia.
  - by apply (re_straight s).
  - by apply (re_three s a).
  - by apply (re_two_pairs s lo hi).
  - by apply (re_one_pair s a).
  - by apply (re_high_card s).
Qed.

Lemma valid_group_witness : valid_group doc_group.
Proof. apply (bool_decide_unpack _). vm_compute. exact I. Defined.

(** * The claims *)

(** C2. For every valid group of 5 to 7 distinct cards the classification
    succeeds, and the combination holds exactly 5 cards: the groups of
    combination-defining cards first, each descending by weight, then the
    kickers, descending by weight. *)
Theorem classification_five_cards_ordered l :
  valid_group l →
  ∃ c t, combo_of_cards l = Ok c ∧ type c = Some t ∧
         length (cards c) = 5 ∧ well_ordered t (cards c).
Proof.
  intros Hv. destruct (normal_form l Hv) as (r & sq & t & items & Hcombo & _ & Hnf).
  pose proof (valid_group_psort l Hv) as ((Hlen & _) & Hc & _).
  destruct (well_ordered_nf (psort l) t items Hc (psort_ascending l) Hlen Hnf) as [H5 Hwo].
  eexists _, t. split; [exact Hcombo|]. by simpl.
Qed.

Lemma classification_five_cards_ordered_witness :
  valid_group doc_group ∧
  ∃ c t, combo_of_cards doc_group = Ok c ∧ type c = Some t ∧
         length (cards c) = 5 ∧ well_ordered t (cards c).
Proof.
  split; [exact valid_group_witness|].
  apply classification_five_cards_ordered. exact valid_group_witness.
Defined.

(** C6. Classifying a valid group reports a type and exactly five cards,
    and classifying these five cards as a fresh group succeeds and gives
    the same type and the same cards in the same order. *)
Theorem reclassify_roundtrip l :
  valid_group l →
  ∃ c c' t, combo_of_cards l = Ok c ∧ type c = Some t ∧ length (cards c) = 5 ∧
            combo_of_cards (cards c) = Ok c' ∧
            type c' = Some t ∧ cards c' = cards c.
Proof.
  intros Hv. destruct (normal_form l Hv) as (r & sq & t & items & Hcombo & _ & Hnf).
  pose proof (valid_group_psort l Hv) as ((Hlen & _) & Hc & _).
  destruct (well_ordered_nf (psort l) t items Hc (psort_ascending l) Hlen Hnf) as [H5 _].
  destruct (reclassify (psort l) t items) as [Hvi Huniq];
    [by apply valid_group_psort|apply psort_ascending|done|].
  destruct (normal_form items Hvi) as (r' & sq' & t' & items' & Hcombo' & _ & Hnf').
  destruct (Huniq t' items' Hnf') as [-> ->].
  eexists _, _, t. split; [exact Hcombo|]. split; [done|]. split; [exact H5|].
  split; [exact Hcombo'|]. done.
Qed.

Lemma reclassify_roundtrip_witness :
  valid_group doc_group ∧
  ∃ c c' t, combo_of_cards doc_group = Ok c ∧ type c = Some t ∧
            length (cards c) = 5 ∧
            combo_of_cards (cards c) = Ok c' ∧
            type c' = Some t ∧ cards c' = cards c.
Proof.
  split; [exact valid_group_witness|].
  apply reclassify_roundtrip. exact valid_group_witness.
Defined.


(** ** The comparator of combinations *)

Lemma compare_first_difference cond even p1 c1 r1 p2 c2 r2 :
  Forall has_weight (p1 ++ [c1]) → Forall has_weight (p2 ++ [c2]) →
  wnum <$> p1 = wnum <$> p2 → wnum c1 ≠ wnum c2 →
  ComboCards.compare cond even (p1 ++ c1 :: r1) (p2 ++ c2 :: r2) = cond c1 c2.
Proof.
  revert p2. induction p1 as [|x p1 IH]; intros [|y p2] Hw1 Hw2 Hp Hd; try discriminate.
  - simpl in Hw1, Hw2. apply Forall_inv in Hw1. apply Forall_inv in Hw2. simpl.
    rewrite Card_ne_weight by done. rewrite bool_decide_eq_true_2 by done. done.
  - simpl in Hw1, Hw2. apply Forall_cons in Hw1 as [Hx Hw1], Hw2 as [Hy Hw2].
    injection Hp as Hxy Hp. simpl.
    rewrite Card_ne_weight by done. rewrite bool_decide_eq_false_2 by (intros ?; done).
    rewrite bind_Ok. by apply IH.
Qed.

Lemma compare_same_weights cond even l1 l2 :
  Forall has_weight l1 → Forall has_weight l2 →
  wnum <$> l1 = wnum <$> l2 →
  ComboCards.compare cond even l1 l2 = Ok even.
Proof.
  revert l2. induction l1 as [|x l1 IH]; intros [|y l2] Hw1 Hw2 Hp; try discriminate; [done|].
  apply Forall_cons in Hw1 as [Hx Hw1], Hw2 as [Hy Hw2].
  injection Hp as Hxy Hp. simpl.
  rewrite Card_ne_weight by done. rewrite bool_decide_eq_false_2 by (intros ?; done).
  rewrite bind_Ok. by apply IH.
Qed.

Lemma Forall_has_weight_prefix p c r :
  Forall has_weight (p ++ c :: r) → Forall has_weight (p ++ [c]) ∧ has_weight c.
Proof.
  intros H. apply Forall_app in H as [Hp H]. apply Forall_cons in H as [Hc _].
  split; [|done]. apply Forall_app. split; [done|]. by apply Forall_singleton.
Qed.

(** * The claims, continued *)

(** C10. The card notation accepts both '1' and 'A', both named Ace, but
    as unequal weights: '1' has number 0 and 'A' has number 13, and two
    weights are equal exactly when their numbers are. So Card('1s') is not
    equal to Card('As'), and Card('1s') is less than Card('2s') while
    Card('As') is not. *)
Theorem one_and_ace_are_distinct_weights :
  (∃ w1 wA,
     WeightM.init "1" = Ok w1 ∧ WeightM.init "A" = Ok wA ∧
     WeightM.number w1 = 0 ∧ WeightM.number wA = 13 ∧
     WeightM.names w1 = "Ace"%string ∧ WeightM.names wA = "Ace"%string ∧
     WeightM.eq w1 wA = false ∧ WeightM.ne w1 wA = true) ∧
  (∀ a b, WeightM.eq a b = true ↔ WeightM.number a = WeightM.number b) ∧
  (∃ c1 cA c2,
     CardM.init "1s" = Ok c1 ∧ CardM.init "As" = Ok cA ∧ CardM.init "2s" = Ok c2 ∧
     CardM.eq c1 cA = Ok false ∧ CardM.ne c1 cA = Ok true ∧
     CardM.lt c1 c2 = Ok true ∧ CardM.lt cA c2 = Ok false ∧
     CardM.lt c1 cA = Ok true).
Proof.
  split; [|split].
  - by exists W1, WA.
  - intros a b. unfold WeightM.eq. apply Nat.eqb_eq.
  - by eexists _, _, _.
Qed.

(** C3. Two combinations of different types compare as their types do. Two
    combinations of the same type compare as the cards at the first
    position where their weights differ; when the weights agree at every
    position the combinations are equal, whatever the suits. *)
Theorem combo_comparison a b ta tb :
  type a = Some ta → type b = Some tb →
  Forall has_weight (cards a) → Forall has_weight (cards b) →
  (ta ≠ tb →
     ComboM.lt a b = Ok (ta <? tb) ∧ ComboM.gt a b = Ok (tb <? ta) ∧
     ComboM.eq a b = Ok false ∧ ComboM.ne a b = Ok true) ∧
  (ta = tb →
     ∀ p1 c1 r1 p2 c2 r2,
       cards a = p1 ++ c1 :: r1 → cards b = p2 ++ c2 :: r2 →
       wnum <$> p1 = wnum <$> p2 → wnum c1 ≠ wnum c2 →
       ComboM.lt a b = Ok (bool_decide (wnum c1 < wnum c2)) ∧
       ComboM.gt a b = Ok (bool_decide (wnum c2 < wnum c1)) ∧
       ComboM.eq a b = Ok false ∧ ComboM.ne a b = Ok true) ∧
  (ta = tb → wnum <$> cards a = wnum <$> cards b →
     ComboM.eq a b = Ok true ∧ ComboM.ne a b = Ok false ∧
     ComboM.lt a b = Ok false ∧ ComboM.gt a b = Ok false).
Proof.
  intros Ha Hb Hwa Hwb. split; [|split].
  - intros Hne. unfold ComboM.lt, ComboM.gt, ComboM.eq, ComboM.ne.
    rewrite Ha, Hb. rewrite bool_decide_eq_false_2 by congruence. done.
  - intros -> p1 c1 r1 p2 c2 r2 Ea Eb Hp Hd.
    rewrite Ea in Hwa. rewrite Eb in Hwb.
    destruct (Forall_has_weight_prefix _ _ _ Hwa) as [Hpa Hc1].
    destruct (Forall_has_weight_prefix _ _ _ Hwb) as [Hpb Hc2].
    unfold ComboM.lt, ComboM.gt, ComboM.eq, ComboM.ne.
    rewrite Ha, Hb. rewrite bool_decide_eq_true_2 by done.
    unfold ComboCards.eq, ComboCards.lt, ComboCards.gt. rewrite Ea, Eb.
    rewrite !compare_first_difference by done.
    rewrite Card_eq_weight by done. rewrite Card_lt_weight by done.
    rewrite Card_gt_weight by done.
    rewrite (bool_decide_eq_false_2 (wnum c1 = wnum c2)) by done. done.
  - intros -> Hp.
    unfold ComboM.lt, ComboM.gt, ComboM.eq, ComboM.ne.
    rewrite Ha, Hb. rewrite bool_decide_eq_true_2 by done.
    unfold ComboCards.eq. rewrite !compare_same_weights by done. done.
Qed.

Lemma combo_comparison_witness :
  (type (flush_in Ss) = Some FLUSH ∧ type (flush_in Sh) = Some FLUSH ∧
   Forall has_weight (cards (flush_in Ss)) ∧ Forall has_weight (cards (flush_in Sh))) ∧
  ComboM.eq (flush_in Ss) (flush_in Sh) = Ok true ∧
  ComboM.ne (flush_in Ss) (flush_in Sh) = Ok false ∧
  ComboM.lt (flush_in Ss) (flush_in Sh) = Ok false ∧
  ComboM.gt (flush_in Ss) (flush_in Sh) = Ok false.
Proof.
  assert (∀ s, Forall has_weight (cards (flush_in s))) as Hw.
  { intros s. repeat constructor; by eexists. }
  split; [by repeat split|].
  apply (combo_comparison (flush_in Ss) (flush_in Sh) FLUSH FLUSH); by try apply Hw.
Defined.


(** ** What a successful run tells about its input *)

Lemma Card_lt_Ok_inv y x b :
  CardM.lt y x = Ok b → b = (wnum y <? wnum x).
Proof.
  unfold CardM.lt, wnum. destruct (weight y), (weight x); try discriminate.
  simpl. by intros [= <-].
Qed.

Lemma sort_insert_Ok_inv x s r : sort_insert x s = Ok r → r = psort_insert x s.
Proof.
  revert r. induction s as [|y s IH]; intros r; simpl.
  - by intros [= <-].
  - intros H. apply bind_Ok_inv in H as (b & Hb & H).
    apply Card_lt_Ok_inv in Hb as ->.
    destruct (wnum y <? wnum x).
    + apply bind_Ok_inv in H as (r' & Hr' & [= <-]). by rewrite (IH r').
    + by injection H as <-.
Qed.

Lemma list_sort_Ok_inv l s : list_sort l = Ok s → s = psort l.
Proof.
  revert s. induction l as [|x l IH]; intros s; simpl.
  - by intros [= <-].
  - intros H. apply bind_Ok_inv in H as (s' & Hs' & H).
    apply IH in Hs' as ->. by apply sort_insert_Ok_inv.
Qed.

Lemma get_all_repeats_not_concrete cards rest w s :
  ¬ Forall concrete rest → ∃ e, RepeatsM.get_all_repeats cards rest w s = Raise e.
Proof.
  revert w s. induction rest as [|c rest IH]; intros w s Hn.
  - destruct Hn. constructor.
  - cbn [RepeatsM.get_all_repeats].
    destruct (weight c) as [cw|] eqn:Ew; [|destruct (suit c); eauto].
    destruct (suit c) as [cs|] eqn:Es; [|eauto].
    rewrite Card_init_weight_symbol, Card_init_suit_symbol, !bind_Ok.
    destruct (RepeatsM.add_repeat cards (wkey cw) w) as [w'|e]; [|eauto].
    rewrite bind_Ok.
    destruct (RepeatsM.add_repeat cards (skey cs) s) as [s'|e]; [|eauto].
    rewrite bind_Ok. apply IH. intros Hr. apply Hn. constructor; [|done].
    split; [by rewrite Ew|by rewrite Es].
Qed.

Lemma find_combo_sorted_not_concrete self s :
  ¬ Forall concrete s → ∃ e, ComboM.find_combo_sorted self s = Raise e.
Proof.
  intros Hn. unfold ComboM.find_combo_sorted, RepeatsM.init.
  destruct (get_all_repeats_not_concrete s s RepeatsM.empty_base RepeatsM.empty_base Hn)
    as [e ->].
  rewrite !bind_Raise. eauto.
Qed.

Lemma find_combo_sorted_init_cards self s c :
  ComboM.find_combo_sorted self s = Ok c → init_cards c = init_cards self.
Proof.
  unfold ComboM.find_combo_sorted. intros H.
  apply bind_Ok_inv in H as (r & _ & H).
  destruct (five_or_more (rsuit r)).
  - apply bind_Ok_inv in H as (fc & _ & H).
    apply bind_Ok_inv in H as (cs & _ & H).
    apply bind_Ok_inv in H as (sq & _ & H).
    apply bind_Ok_inv in H as ([t items] & _ & H).
    by injection H as <-.
  - apply bind_Ok_inv in H as (sq & _ & H).
    apply bind_Ok_inv in H as ([t items] & _ & H).
    by injection H as <-.
Qed.

Lemma find_combo_Ok_inv self σ c σ' :
  ComboM.find_combo self σ = Ok (c, σ') →
  let s := psort (load (init_cards self) σ) in
  ComboM.find_combo_sorted self s = Ok c ∧
  init_cards c = init_cards self ∧
  σ' = <[init_cards self := s]> σ.
Proof.
  unfold ComboM.find_combo. intros H.
  apply bind_Ok_inv in H as (s & Hs & H). apply list_sort_Ok_inv in Hs as ->.
  apply bind_Ok_inv in H as (c' & Hc & H). injection H as -> <-.
  split; [done|]. split; [|done]. by eapply find_combo_sorted_init_cards.
Qed.

Lemma combo_of_cards_Ok_inv l c :
  combo_of_cards l = Ok c → l ≠ [] ∧ Forall concrete l.
Proof.
  intros H. split.
  { intros ->. vm_compute in H. discriminate. }
  unfold combo_of_cards in H. apply bind_Ok_inv in H as ([c' σ'] & H & _).
  unfold ComboM.init in H. cbn [cls items] in H.
  rewrite bool_decide_eq_true_2 in H by done. rewrite bind_Ok in H. cbn beta iota in H.
  apply bind_Ok_inv in H as ([c'' σ''] & H & _).
  apply find_combo_Ok_inv in H as (H & _). cbn [init_cards ComboM.new] in H.
  unfold load in H. rewrite lookup_singleton_eq in H. cbn [default id] in H.
  change (id l) with l in H.
  destruct (decide (Forall concrete l)) as [|Hn]; [done|].
  destruct (find_combo_sorted_not_concrete (ComboM.new 0) (psort l)) as [e He].
  { intros Hp. apply Hn. by rewrite <- (psort_perm l). }
  congruence.
Qed.

Lemma check_nominal_combo_fields self σ c :
  ComboM.check_nominal_combo self σ = Ok c →
  init_cards c = init_cards self ∧ type c = type self ∧ cards c = cards self.
Proof.
  assert (∀ cs, let c' := ComboM.half_nominal_finder self cs in
    init_cards c' = init_cards self ∧ type c' = type self ∧ cards c' = cards self) as Hh.
  { intros cs. unfold ComboM.half_nominal_finder. simpl.
    by repeat case_match. }
  unfold ComboM.check_nominal_combo.
  repeat case_bool_decide.
  - intros Hr. apply bind_Ok_inv in Hr as (r & _ & Hr).
    apply bind_Ok_inv in Hr as (k3 & _ & Hr).
    apply bind_Ok_inv in Hr as (three & _ & Hr).
    apply bind_Ok_inv in Hr as (k2 & _ & Hr).
    apply bind_Ok_inv in Hr as (two & _ & Hr).
    injection Hr as <-. apply Hh.
  - intros [= <-]. apply Hh.
  - destruct (ComboM.any_in_hand _); by intros [= <-].
  - destruct (ComboM.any_in_hand _); by intros [= <-].
  - destruct (ComboM.any_in_hand _); by intros [= <-].
  - destruct (ComboM.any_in_hand _); by intros [= <-].
Qed.

Lemma init_Ok_inv cs co table hand nc σ c σ' :
  ComboM.init cs co table hand nc σ = Ok (c, σ') →
  ∃ σ1 c0,
    ComboM.find_combo_sorted (ComboM.new (init_cards c)) (psort (load (init_cards c) σ1)) = Ok c0 ∧
    type c = type c0 ∧ cards c = cards c0 ∧
    σ' = <[init_cards c := psort (load (init_cards c) σ1)]> σ1 ∧
    (match cs, co, table, hand with
     | Some (String _ _), _, _, _ =>
         ∃ l, init_cards c = fresh (dom σ) ∧ σ1 = <[fresh (dom σ) := l]> σ
     | _, Some o, _, _ => init_cards c = items o ∧ σ1 = σ
     | _, _, Some t, Some h =>
         init_cards c = fresh (dom σ) ∧
         σ1 = <[fresh (dom σ) := load (items t) σ ++ load (items h) σ]> σ
     | _, _, _, _ => False
     end).
Proof.
  unfold ComboM.init. intros H.
  apply bind_Ok_inv in H as ([[a σ1] ncn] & H1 & H).
  apply bind_Ok_inv in H as ([c0 σ2] & H2 & H).
  apply find_combo_Ok_inv in H2 as (Hf & Hi & Hσ). cbn [init_cards ComboM.new] in Hf, Hi, Hσ.
  assert (init_cards c = a ∧ type c = type c0 ∧ cards c = cards c0 ∧ σ' = σ2)
    as (Ha & Ht & Hc & ->).
  { destruct ncn.
    - apply bind_Ok_inv in H as (c' & Hc' & [= <- <-]).
      apply check_nominal_combo_fields in Hc' as (-> & -> & ->). done.
    - by injection H as <- <-. }
  rewrite !Ha. clear Ha H. exists σ1, c0.
  split; [done|]. split; [done|]. split; [done|]. split; [done|].
  unfold CardsM.init, alloc in H1.
  destruct cs as [[|ch s]|]; [| |].
  2:{ apply bind_Ok_inv in H1 as ([o σo] & Ho & H1).
      apply bind_Ok_inv in Ho as (l & _ & Ho). simplify_eq/=. eauto. }
  all: destruct co as [o|];
    [case_bool_decide; [by simplify_eq/=|discriminate]|];
    destruct table as [t|]; [|discriminate];
    destruct hand as [h|]; [|discriminate];
    repeat case_bool_decide; try discriminate;
    by simplify_eq/=.
Qed.


(** C8, as the spec states it, fails: a group with duplicate cards and a
    group of the wrong size are both classified. ['As/As/As/As/As'] is
    reported as a flush of five aces of spades, ['As/Ks'] as a high card
    of two cards, and of nine cards the first seven are classified. *)
Lemma malformed_groups_are_classified :
  classify_string "As/As/As/As/As" = Ok (Some FLUSH, replicate 5 (card WA Ss)) ∧
  classify_string "As/Ks" = Ok (Some HIGH_CARD, [card WA Ss; card WK Ss]) ∧
  classify_string "As/Ks/Qs/Js/Ts/9s/8s/7s/6s"
  = Ok (Some STRAIGHT_FLUSH,
        [card WA Ss; card WK Ss; card WQ Ss; card WJ Ss; card WT Ss]) ∧
  ¬ valid_group five_aces ∧
  ¬ valid_group [card WA Ss; card WK Ss].
Proof.
  split; [by vm_compute|]. split; [by vm_compute|]. split; [by vm_compute|].
  split.
  - intros (_ & _ & Hnd). apply NoDup_cons in Hnd as [Hnd _]. apply Hnd. left.
  - intros ((Hlen & _) & _). simpl in Hlen. lia.
Qed.

(** C8, amended. The classification checks neither the number of cards
    nor that they are distinct: it succeeds exactly on the non-empty
    groups whose cards all carry a weight and a suit, and raises on the
    empty group and on a group with a card that lacks either. *)
Theorem classification_succeeds_iff l :
  (∃ c, combo_of_cards l = Ok c) ↔ l ≠ [] ∧ Forall concrete l.
Proof.
  split.
  - intros [c Hc]. by apply combo_of_cards_Ok_inv in Hc.
  - intros [Hne Hc]. destruct (combo_of_cards_spec l Hc Hne) as (r & sq & t & items & H & _).
    eauto.
Qed.

Lemma classification_succeeds_iff_witness :
  (five_aces ≠ [] ∧ Forall concrete five_aces) ∧ ∃ c, combo_of_cards five_aces = Ok c.
Proof.
  assert (five_aces ≠ [] ∧ Forall concrete five_aces) as H.
  { split; [done|]. repeat constructor; by eexists. }
  split; [exact H|].
  exact (proj2 (classification_succeeds_iff five_aces) H).
Defined.

(** C9, as the spec states it, fails: after [Combo(cards=cs)] with
    [cs = Cards('As/2c/3d/4h/5s')] the items of [cs] are in another
    order. *)
Lemma cards_items_are_sorted_in_place :
  items_before_and_after "As/2c/3d/4h/5s"
  = Ok ([card WA Ss; card W2 Sc; card W3 Sd; card W4 Sh; card W5 Ss],
        [card W2 Sc; card W3 Sd; card W4 Sh; card W5 Ss; card WA Ss]).
Proof. by vm_compute. Qed.

(** C9, amended. A successful construction changes no list but the one
    the combination keeps as [init_cards]. Built from a table and a hand,
    that list is a new one, the sorted concatenation of the two item
    lists, and the items of the table and of the hand stay as they were.
    Built from a [Cards] object, that list is the object's own item list,
    which afterwards holds the same cards sorted ascending by weight. *)
Theorem init_store_effect cs co table hand nc σ c σ' :
  ComboM.init cs co table hand nc σ = Ok (c, σ') →
  (∀ a, a ≠ init_cards c → σ' !! a = σ !! a) ∧
  (cs = None → ∀ o, co = Some o →
     init_cards c = items o ∧
     load (items o) σ' = psort (load (items o) σ)) ∧
  (cs = None → co = None → ∀ t h, table = Some t → hand = Some h →
     init_cards c ∉ dom σ ∧
     load (init_cards c) σ' = psort (load (items t) σ ++ load (items h) σ) ∧
     (items t ∈ dom σ → load (items t) σ' = load (items t) σ) ∧
     (items h ∈ dom σ → load (items h) σ' = load (items h) σ)).
Proof.
  intros H. apply init_Ok_inv in H as (σ1 & c0 & _ & _ & _ & -> & Hpath).
  assert (∀ (τ : gmap nat (list Card)) l a, a ∈ dom τ →
            load a (<[fresh (dom τ) := l]> τ) = load a τ) as Hfresh.
  { intros τ l a Ha. unfold load. rewrite lookup_insert_ne; [done|].
    intros <-. by apply (is_fresh (dom τ)). }
  split; [|split].
  - intros a Ha. rewrite lookup_insert_ne by done.
    destruct cs as [[|ch s]|]; [| |].
    2:{ destruct Hpath as (l & E & ->). rewrite lookup_insert_ne; [done|congruence]. }
    all: destruct co as [o|]; [by destruct Hpath as [_ ->]|];
      destruct table as [t|]; [|done]; destruct hand as [h|]; [|done];
      destruct Hpath as [E ->]; rewrite lookup_insert_ne; [done|congruence].
  - intros -> o ->. destruct Hpath as [E ->]. split; [done|].
    rewrite E. unfold load at 1. by rewrite lookup_insert_eq.
  - intros -> -> t h -> ->. destruct Hpath as [E ->]. rewrite E.
    split; [apply is_fresh|]. split.
    + unfold load at 1. rewrite lookup_insert_eq. cbn [default].
      unfold load at 1. by rewrite lookup_insert_eq.
    + assert (∀ a, a ∈ dom σ →
        load a (<[fresh (dom σ) := psort (load (fresh (dom σ))
                  (<[fresh (dom σ) := load (items t) σ ++ load (items h) σ]> σ))]>
                  (<[fresh (dom σ) := load (items t) σ ++ load (items h) σ]> σ))
        = load a σ) as Hsame.
      { intros a Ha. rewrite insert_insert_eq. by apply Hfresh. }
      split; apply Hsame.
Qed.

Lemma init_store_effect_witness :
  ∃ t h σ c σ',
    deal "6s/Jc/Ah/9h" "3d/Jd" = Ok (t, h, σ) ∧
    ComboM.init None None (Some t) (Some h) true σ = Ok (c, σ') ∧
    load (items t) σ' = load (items t) σ ∧
    load (items h) σ' = load (items h) σ.
Proof.
  eexists _, _, _, _, _. split; [by vm_compute|].
  match goal with
  | |- ?i = Ok _ ∧ _ =>
      let r := eval vm_compute in i in
      match r with
      | Ok (?c, ?σ') =>
          assert (i = Ok (c, σ')) as Hinit by (vm_compute; reflexivity)
      end
  end.
  split; [exact Hinit|].
  destruct (init_store_effect _ _ _ _ _ _ _ _ Hinit) as (_ & _ & Hth).
  destruct (Hth eq_refl eq_refl _ _ eq_refl eq_refl) as (_ & _ & Ht & Hh).
  split; [apply Ht|apply Hh]; by vm_compute.
Defined.


(** ** Two triples *)

Lemma length_filter_filter_le (P Q : Card → Prop)
    `{!∀ c, Decision (P c)} `{!∀ c, Decision (Q c)} (l : list Card) :
  length (filter P (filter Q l)) ≤ length (filter P l).
Proof.
  induction l as [|x l IH]; [done|].
  rewrite !(filter_cons _ x l).
  destruct (decide (Q x)); destruct (decide (P x));
    rewrite ?filter_cons, ?decide_True, ?decide_False by done; simpl; lia.
Qed.

Lemma length_split_two_weights hi lo s :
  lo ≠ hi →
  length s = wcount s hi + wcount s lo
             + length (filter (λ c, wnum c ≠ hi ∧ wnum c ≠ lo) s).
Proof.
  intros Hne. rewrite (split_two_weights_perm hi lo s Hne) at 1.
  rewrite !length_app. unfold wcount. lia.
Qed.

Lemma two_triples_no_flush s a b :
  valid_group s → a ≠ b → wcount s a = 3 → wcount s b = 3 → no_flush s.
Proof.
  intros ((_ & Hlen) & Hc & Hnd) Hab Ha Hb st.
  pose proof (length_split_two_weights b a s Hab) as Hs.
  pose proof (length_split_two_weights b a (of_suit st s) Hab) as Hf.
  pose proof (NoDup_wnum_of_suit s st (Forall_concrete_has_weight s Hc) Hnd) as Hw.
  pose proof (NoDup_wnum_wcount _ a Hw). pose proof (NoDup_wnum_wcount _ b Hw).
  pose proof (length_filter_filter_le (λ c, wnum c ≠ b ∧ wnum c ≠ a)
                (λ c, suit c = Some st) s) as Hle.
  unfold scount. fold (of_suit st s) in Hle. lia.
Qed.

(** * The claims, continued *)

(** C5. A valid group that holds three cards of each of two weights is a
    full house: the three cards of the higher weight, then the first two,
    in the order given, of the three cards of the lower weight. A group of
    seven cards is the case the claim names; no group of distinct cards
    with two triples holds four of a kind or five cards of a suit. *)
Theorem two_triples_full_house l a b :
  valid_group l → a < b → wcount l a = 3 → wcount l b = 3 →
  ∃ c, combo_of_cards l = Ok c ∧ type c = Some FULL_HOUSE ∧
       cards c = of_weight b l ++ take 2 (of_weight a l) ∧
       (∀ n, wcount l n ≠ 4) ∧ (∀ st, scount l st < 5).
Proof.
  intros Hv Hab Ha Hb.
  destruct (normal_form l Hv) as (r & sq & t & items & Hcombo & _ & Hnf).
  pose proof (valid_group_psort l Hv) as Hvs.
  set (s := psort l) in *.
  assert (wcount s a = 3) as Hsa by (unfold s; by rewrite wcount_psort).
  assert (wcount s b = 3) as Hsb by (unfold s; by rewrite wcount_psort).
  assert (no_flush s) as Hfl by (apply (two_triples_no_flush s a b); [done|lia|done|done]).
  assert (∀ n, n ≠ a → n ≠ b → wcount s n ≤ 1) as Hother.
  { intros n Hna Hnb. destruct Hvs as ((_ & Hlen) & _).
    pose proof (wcount_sum3 s a b n). lia. }
  assert (t = FULL_HOUSE ∧ items = of_weight b s ++ take 2 (of_weight a s)) as [-> ->].
  { clear Hcombo. destruct Hnf; split_eqs; try lia;
      try done; try (split; [done|congruence]); try count_contra.
    all: repeat match goal with H : _ ∨ _ |- _ => destruct H as [?|?] end;
      repeat match goal with H : _ ∧ _ |- _ => destruct H end;
      try count_contra. }
  exists (ComboM.set_combo (ComboM.new 0) r sq FULL_HOUSE
            (of_weight b s ++ take 2 (of_weight a s))).
  split; [done|]. split; [done|]. split.
  { simpl. unfold s. by rewrite !of_weight_psort. }
  split.
  - intros n Hn. destruct (decide (n = a)) as [->|]; [lia|].
    destruct (decide (n = b)) as [->|]; [lia|].
    specialize (Hother n). unfold s in Hother. rewrite wcount_psort in Hother. lia.
  - intros st. specialize (Hfl st). unfold s in Hfl. by rewrite scount_psort in Hfl.
Qed.

Lemma two_triples_full_house_witness :
  ∃ c, combo_of_cards two_triples = Ok c ∧ type c = Some FULL_HOUSE ∧
       cards c = [card W7 Sc; card W7 Sd; card W7 Sh; card W3 Sc; card W3 Sd].
Proof.
  destruct (two_triples_full_house two_triples 2 6) as (c & Hc & Ht & Hcards & _).
  - apply (bool_decide_unpack _). vm_compute. exact I.
  - lia.
  - reflexivity.
  - reflexivity.
  - exists c. split; [done|]. split; [done|]. rewrite Hcards. reflexivity.
Defined.


(** ** A suit with five cards *)

Lemma present_spec cs n :
  present cs n = true ↔ n ∈ wnum <$> with_low_ace cs.
Proof.
  rewrite elem_of_wnum_with_low_ace. unfold present.
  rewrite orb_true_iff, andb_true_iff, !bool_decide_eq_true. done.
Qed.

Lemma present_perm cs cs' n : cs ≡ₚ cs' → present cs n = present cs' n.
Proof.
  intros Hp. unfold present.
  assert (∀ m, m ∈ wnum <$> cs ↔ m ∈ wnum <$> cs') as Hm.
  { intros m. by rewrite Hp. }
  by rewrite (bool_decide_ext _ _ (Hm n)), (bool_decide_ext _ _ (Hm 13)).
Qed.

Lemma has_run_spec cs :
  has_run cs = true ↔ ∃ lo, lo < 10 ∧ ∀ j, j < 5 → present cs (lo + j) = true.
Proof.
  unfold has_run. rewrite existsb_exists. split.
  - intros (lo & Hlo & H). rewrite <- list_elem_of_In, elem_of_seq in Hlo.
    exists lo. split; [lia|]. intros j Hj.
    rewrite forallb_forall in H. apply H.
    rewrite <- list_elem_of_In, elem_of_seq. lia.
  - intros (lo & Hlo & H). exists lo. split.
    + rewrite <- list_elem_of_In, elem_of_seq. lia.
    + rewrite forallb_forall. intros j Hj.
      rewrite <- list_elem_of_In, elem_of_seq in Hj. apply H. lia.
Qed.

Lemma has_run_perm cs cs' : cs ≡ₚ cs' → has_run cs = has_run cs'.
Proof.
  intros Hp. apply eq_true_iff_eq. rewrite !has_run_spec.
  split; intros (lo & Hlo & H); exists lo; (split; [done|]); intros j Hj;
    [rewrite <- (present_perm cs cs') by done|rewrite (present_perm cs cs') by done];
    by apply H.
Qed.

(** The sequence analyser finds a run exactly when one is there. *)
Lemma run_of_has_run cs :
  Forall concrete cs →
  is_Some (run_of (with_low_ace cs)) ↔ has_run cs = true.
Proof.
  intros Hc. pose proof (Forall_concrete_with_low_ace cs Hc) as HX.
  rewrite has_run_spec. unfold run_of. rewrite fmap_is_Some. split.
  - intros [b Hb]. apply find_seq_Some in Hb as (Hb & Hrun & _).
    rewrite run_at_rank in Hrun by (done || lia).
    exists (9 - b). split; [lia|]. intros j Hj. apply present_spec.
    replace (9 - b + j) with (13 - (b + (4 - j))) by lia. apply Hrun. lia.
  - intros (lo & Hlo & H).
    destruct (first_run (mask_of (rank_of (with_low_ace cs)))) as [b|] eqn:E; [done|].
    exfalso. pose proof (find_seq_None _ _ _ E (9 - lo) ltac:(lia)) as Hn.
    cbv beta in Hn.
    assert (run_at (mask_of (rank_of (with_low_ace cs))) (9 - lo) = true) as Ht; [|congruence].
    rewrite run_at_rank by (done || lia). intros j Hj. apply present_spec.
    replace (13 - (9 - lo + j)) with (lo + (4 - j)) by lia. apply H. lia.
Qed.

Lemma of_suit_psort st l : of_suit st (psort l) ≡ₚ of_suit st l.
Proof. unfold of_suit. by rewrite psort_perm. Qed.

Lemma flush_suit_unique l st st' :
  length l ≤ 7 → 5 ≤ scount l st → 5 ≤ scount l st' → st' = st.
Proof.
  intros Hlen H1 H2. destruct (decide (st' = st)) as [|Hne]; [done|].
  pose proof (scount_sum2 l st' st Hne). lia.
Qed.

Lemma suit_with_low_ace st fc :
  Forall (λ x, suit x = Some st) fc → Forall (λ x, suit x = Some st) (with_low_ace fc).
Proof.
  intros Hs. unfold with_low_ace.
  destruct (last (of_weight 13 fc)) as [ace|] eqn:E; [|done].
  constructor; [|done]. apply last_of_weight_Some in E as [Hin _].
  simpl. by apply (proj1 (Forall_forall _ _) Hs).
Qed.

Lemma top_five_lastn pool fc :
  fc ≡ₚ pool → StronglySorted (λ a b, wnum a < wnum b) fc → 5 ≤ length fc →
  top_five pool (reverse (py_lastn 5 fc)).
Proof.
  intros Hp Hs Hlen. split; [|split; [|split]].
  - rewrite length_reverse. by apply length_py_lastn.
  - apply strictly_descending_reverse. unfold py_lastn. by apply StronglySorted_drop.
  - rewrite <- Hp. apply lastn_reverse_sub.
  - intros x y Hx Hnx Hy. rewrite <- Hp in Hx.
    rewrite elem_of_reverse in Hnx, Hy. unfold py_lastn in *.
    rewrite <- (take_drop (length fc - 5) fc) in Hx, Hs.
    apply elem_of_app in Hx as [Hx|Hx]; [|done].
    apply StronglySorted_app in Hs as (Hlt & _ & _). by apply Hlt.
Qed.

(** * The claims, continued *)

(** C1. When a valid group holds five or more cards of a suit, the
    sequence analyser is run on the cards of that suit alone. If they
    contain five consecutive weights the combination is a straight flush,
    made of the run the analyser reports; otherwise it is a flush, made of
    the five highest cards of the suit, descending. Either way all five
    cards are of that suit, and no other type is reported. *)
Theorem flush_suit_selection l st :
  valid_group l → 5 ≤ scount l st →
  ∃ c sq, combo_of_cards l = Ok c ∧
    sequence c = Some sq ∧
    SequenceM.init (of_suit st (psort l)) = Ok sq ∧
    five_in_a_row sq = has_run (of_suit st l) ∧
    Forall (λ x, suit x = Some st) (cards c) ∧
    if has_run (of_suit st l)
    then type c = Some STRAIGHT_FLUSH ∧ order_cards sq = Some (cards c) ∧
         ∃ lo, wnum <$> cards c = [lo + 4; lo + 3; lo + 2; lo + 1; lo]
    else type c = Some FLUSH ∧ top_five (of_suit st l) (cards c).
Proof.
  intros Hv Hst.
  pose proof (valid_group_psort l Hv) as ((_ & Hlen) & Hc & Hnd).
  assert (l ≠ []) as Hne.
  { destruct Hv as ((Hl & _) & _). intros ->. simpl in Hl. lia. }
  destruct Hv as (_ & Hcl & _).
  destruct (combo_of_cards_spec l Hcl Hne) as (r & sq & t & items & Hcombo & _ & Hf & Hsel).
  set (s := psort l) in *.
  assert (5 ≤ scount s st) as Hsst by (unfold s; by rewrite scount_psort).
  destruct Hf as (st0 & Hfc & Hcnt & Hmax & H5).
  unfold selected in Hsel. rewrite H5 in Hsel.
  pose proof (Hmax st) as Hm.
  destruct (Nat.leb_spec 5 (max_repeats (rsuit r))) as [Hfl|Hfl]; [|lia].
  destruct Hsel as (st' & Hfc' & Hinit & _ & Hord & Hsel).
  rewrite Hfc in Hfc'. injection Hfc' as <-.
  assert (st0 = st) as -> by (apply (flush_suit_unique s); [done|done|lia]).
  set (fc := of_suit st s) in *.
  assert (Forall concrete fc) as Hfcc by (by apply Forall_filter_keep).
  assert (Forall (λ x, suit x = Some st) fc) as Hfs by apply Forall_filter_self.
  assert (5 ≤ length fc) as Hflen by done.
  assert (fc ≠ []) as Hfne by (intros E; rewrite E in Hflen; simpl in Hflen; lia).
  destruct (Sequence_init_spec fc Hfcc Hfne) as (m & Hinit').
  rewrite Hinit in Hinit'. injection Hinit' as Hsq.
  assert (has_run (of_suit st l) = has_run fc) as Hhr.
  { symmetry. apply has_run_perm, of_suit_psort. }
  rewrite Hhr.
  exists (ComboM.set_combo (ComboM.new 0) r sq t items), sq.
  split; [done|]. split; [done|]. split; [done|].
  cbn [cards ComboM.set_combo ComboM.new app type].
  pose proof (run_of_has_run fc Hfcc) as Hrun.
  destruct (run_of (with_low_ace fc)) as [oc|] eqn:Er.
  - destruct Hsel as [-> ->].
    rewrite (proj1 Hrun) by done.
    destruct (run_of_cards _ oc (Forall_concrete_with_low_ace fc Hfcc) Er)
      as (b & c0 & c1 & c2 & c3 & c4 & Hb & _ & -> & Hin & W0 & W1 & W2 & W3 & W4 & _).
    split; [by rewrite Hsq|]. split.
    { pose proof (suit_with_low_ace st fc Hfs) as Hx.
      eapply Forall_impl; [exact Hin|]. intros c Hcin.
      by apply (proj1 (Forall_forall _ _) Hx). }
    split; [done|]. split; [done|].
    exists (9 - b). simpl. rewrite W0, W1, W2, W3, W4.
    repeat f_equal; lia.
  - destruct Hsel as [-> ->].
    assert (has_run fc = false) as ->.
    { destruct (has_run fc) eqn:E; [|done].
      destruct (proj2 Hrun eq_refl) as [? ?]. discriminate. }
    rewrite py_lastn_with_low_ace by done.
    split; [by rewrite Hsq|]. split.
    { eapply submseteq_Forall; [apply lastn_reverse_sub|done]. }
    split; [done|].
    apply top_five_lastn; [apply of_suit_psort| |done].
    apply ascending_strict.
    + apply ascending_filter, psort_ascending.
    + intros n. apply NoDup_wnum_wcount.
      apply NoDup_wnum_of_suit; [by apply Forall_concrete_has_weight|done].
Qed.

Lemma flush_suit_selection_witness :
  (valid_group five_spades ∧ 5 ≤ scount five_spades Ss) ∧
  ∃ c, combo_of_cards five_spades = Ok c ∧ type c = Some FLUSH ∧
       top_five (of_suit Ss five_spades) (cards c).
Proof.
  assert (valid_group five_spades) as Hv.
  { apply (bool_decide_unpack _). vm_compute. exact I. }
  assert (5 ≤ scount five_spades Ss) as Hs by (vm_compute; lia).
  split; [done|].
  destruct (flush_suit_selection five_spades Ss Hv Hs)
    as (c & sq & Hc & _ & _ & _ & _ & Hrun).
  change (has_run (of_suit Ss five_spades)) with false in Hrun.
  exists c. by destruct Hrun.
Defined.


(** ** The wheel *)

Lemma distinct_weights_length (L : list nat) (l : list Card) :
  NoDup L → (∀ n, n ∈ L → n ∈ wnum <$> l) → length L ≤ length l.
Proof.
  intros Hnd Hin. rewrite <- (length_fmap wnum l).
  apply submseteq_length, NoDup_submseteq; [done|]. intros n. apply Hin.
Qed.

Lemma distinct_weights_filter (P : nat → Prop) `{!∀ n, Decision (P n)}
    (L : list nat) (l : list Card) :
  NoDup L → (∀ n, n ∈ L → n ∈ wnum <$> l) →
  length (filter P L) ≤ length (filter (λ c, P (wnum c)) l).
Proof.
  intros Hnd Hin. apply distinct_weights_length; [by apply NoDup_filter|].
  intros n [HP HL]%list_elem_of_filter.
  apply Hin in HL as (c & -> & Hc)%list_elem_of_fmap.
  apply list_elem_of_fmap. exists c. split; [done|].
  by apply list_elem_of_filter.
Qed.

Lemma wheel_weights_NoDup : NoDup [13; 1; 2; 3; 4].
Proof. apply (bool_decide_unpack _). by vm_compute. Qed.

Lemma wheel_first_run l :
  Forall concrete l → length l ≤ 7 →
  (∀ n, n ∈ [13; 1; 2; 3; 4] → n ∈ wnum <$> l) → 5 ∉ wnum <$> l →
  first_run (mask_of (rank_of (with_low_ace l))) = Some 9.
Proof.
  intros Hc Hlen Hin H5.
  pose proof (Forall_concrete_with_low_ace l Hc) as HX.
  assert (∀ n, n ∈ [13; 1; 2; 3; 4] → n ∈ wnum <$> l) as Hin' by done.
  assert (13 ∈ wnum <$> l) as H13 by (apply Hin; left).
  apply find_seq_intro; [lia| |].
  - rewrite run_at_rank by (done || lia). intros j Hj.
    apply elem_of_wnum_with_low_ace.
    destruct (decide (j = 4)) as [->|]; [by right|]. left. apply Hin.
    assert (j = 0 ∨ j = 1 ∨ j = 2 ∨ j = 3) as [-> | [-> | [-> | ->]]] by lia;
      simpl; repeat constructor.
  - intros b Hb. destruct (run_at (mask_of (rank_of (with_low_ace l))) b) eqn:E; [|done].
    exfalso. rewrite run_at_rank in E by (done || lia).
    assert (∀ j, j < 5 → 13 - (b + j) ≠ 0 → 13 - (b + j) ∈ wnum <$> l) as Hwin.
    { intros j Hj Hn. specialize (E j Hj).
      apply elem_of_wnum_with_low_ace in E as [E|[E _]]; [done|lia]. }
    destruct (decide (4 ≤ b)) as [Hge|Hlt].
    + apply H5. replace 5 with (13 - (b + (8 - b))) by lia. apply Hwin; lia.
    + assert (length [1; 2; 3; 4; 13 - b; 12 - b; 11 - b; 10 - b; 9 - b] ≤ length l) as Hl.
      { apply distinct_weights_length.
        - apply (bool_decide_unpack _).
          assert (b = 0 ∨ b = 1 ∨ b = 2 ∨ b = 3) as [-> | [-> | [-> | ->]]] by lia;
            by vm_compute.
        - intros n Hn.
          assert (n ∈ [1; 2; 3; 4] ∨ ∃ j, j < 5 ∧ n = 13 - (b + j)) as [Hw|(j & Hj & ->)].
          { repeat (apply elem_of_cons in Hn as [->|Hn]); try (left; by repeat constructor).
            - right. exists 0. split; [lia|]. f_equal. lia.
            - right. exists 1. split; lia.
            - right. exists 2. split; lia.
            - right. exists 3. split; lia.
            - right. exists 4. split; lia. }
          + apply Hin. by right.
          + apply Hwin; lia. }
      simpl in Hl. lia.
Qed.


Lemma wheel_others_one s a :
  (∀ n, n ∈ [13; 1; 2; 3; 4] → n ∈ wnum <$> s) →
  4 ≤ length (not_of_weight a s).
Proof.
  intros Hin.
  pose proof (distinct_weights_filter (λ n, n ≠ a) [13; 1; 2; 3; 4] s
                wheel_weights_NoDup Hin) as H.
  unfold not_of_weight. etrans; [|exact H].
  repeat (rewrite filter_cons; case_decide); rewrite filter_nil; simpl; lia.
Qed.

Lemma wheel_others_two s a b :
  (∀ n, n ∈ [13; 1; 2; 3; 4] → n ∈ wnum <$> s) →
  3 ≤ length (filter (λ c, wnum c ≠ a ∧ wnum c ≠ b) s).
Proof.
  intros Hin.
  pose proof (distinct_weights_filter (λ n, n ≠ a ∧ n ≠ b) [13; 1; 2; 3; 4] s
                wheel_weights_NoDup Hin) as H.
  etrans; [|exact H].
  repeat (rewrite filter_cons; case_decide); rewrite filter_nil; simpl; lia.
Qed.

(** With the wheel's five weights in at most seven cards there is neither
    four of a kind nor a full house, so without a flush the run decides. *)
Lemma wheel_nf s oc t items :
  length s ≤ 7 →
  (∀ n, n ∈ [13; 1; 2; 3; 4] → n ∈ wnum <$> s) →
  no_flush s → run_of (with_low_ace s) = Some oc →
  nf s t items → t = STRAIGHT ∧ items = oc.
Proof.
  intros Hlen Hin Hnf Hrun H. destruct H as
    [st items Hs _|st Hs _|a _ Ha|a b _ _ Ha _ Hb|items _ _ _ Hr
    |a _ Hr|lo hi _ Hr|a _ Hr| _ Hr]; try congruence.
  - specialize (Hnf st). lia.
  - specialize (Hnf st). lia.
  - pose proof (wheel_others_one s a Hin). pose proof (length_split_weight a s). lia.
  - pose proof (wheel_others_two s a b Hin).
    assert (b ≠ a ∧ 2 ≤ wcount s b) as [Hne Hb2] 
      by (destruct (decide (b = a)) as [->|]; destruct Hb as [[? ?]|(_ & ? & _)]; lia).
    pose proof (length_split_two_weights a b s Hne). lia.
  - split; [done|congruence].
Qed.

(** * The claims, continued *)

(** C4. In a valid group that holds an ace, a two, a three, a four and a
    five but no six, the sequence analyser finds five in a row: five, four,
    three, two and the ace as the lowest card. The analysed cards begin
    with a copy of the last ace whose weight is '1', of number 0, and whose
    [in_hand] flag is the ace's; unless the caller supplied a '1' card, that
    copy is the last card of the run. Without a flush the group is
    classified as this straight, and a straight with these cards is less
    than every straight whose weights run from six down to two. *)
Theorem wheel_is_five_high l :
  valid_group l →
  (∀ n, n ∈ [13; 1; 2; 3; 4] → n ∈ wnum <$> l) → 5 ∉ wnum <$> l →
  ∃ sq ace c5 c4 c3 c2 c1,
    SequenceM.init (psort l) = Ok sq ∧ five_in_a_row sq = true ∧
    last (of_weight 13 (psort l)) = Some ace ∧
    seq_cards sq = low_ace ace :: psort l ∧
    order_cards sq = Some [c5; c4; c3; c2; c1] ∧
    wnum <$> [c5; c4; c3; c2; c1] = [4; 3; 2; 1; 0] ∧
    (0 ∉ wnum <$> l → c1 = low_ace ace) ∧
    (no_flush l →
     ∃ c, combo_of_cards l = Ok c ∧ type c = Some STRAIGHT ∧
          cards c = [c5; c4; c3; c2; c1]) ∧
    (∀ a b, type a = Some STRAIGHT → cards a = [c5; c4; c3; c2; c1] →
            type b = Some STRAIGHT → Forall has_weight (cards b) →
            wnum <$> cards b = [5; 4; 3; 2; 1] →
            ComboM.lt a b = Ok true ∧ ComboM.gt a b = Ok false ∧
            ComboM.eq a b = Ok false).
Proof.
  intros Hv Hin H5.
  pose proof (valid_group_psort l Hv) as ((Hlen5 & Hlen) & Hc & Hnd).
  set (s := psort l) in *.
  assert (∀ n, n ∈ wnum <$> s ↔ n ∈ wnum <$> l) as Hperm.
  { intros n. unfold s. by rewrite psort_perm. }
  assert (∀ n, n ∈ [13; 1; 2; 3; 4] → n ∈ wnum <$> s) as Hin_s.
  { intros n Hn. apply Hperm. by apply Hin. }
  assert (5 ∉ wnum <$> s) as H5s by (by rewrite Hperm).
  assert (s ≠ []) as Hne by (intros E; rewrite E in Hlen5; simpl in Hlen5; lia).
  pose proof (wheel_first_run s Hc Hlen Hin_s H5s) as Hfirst.
  destruct (last (of_weight 13 s)) as [ace|] eqn:Eace.
  2:{ apply last_of_weight_None in Eace. destruct Eace. apply Hin_s. left. }
  assert (with_low_ace s = low_ace ace :: s) as HX.
  { unfold with_low_ace. by rewrite Eace. }
  destruct (run_of (with_low_ace s)) as [oc|] eqn:Erun.
  2:{ unfold run_of in Erun. rewrite Hfirst in Erun. discriminate. }
  destruct (run_of_cards _ oc (Forall_concrete_with_low_ace s Hc) Erun)
    as (b & c5 & c4 & c3 & c2 & c1 & _ & Hb & -> & Hmem & W5 & W4 & W3 & W2 & W1
        & _ & _ & _ & _ & L1).
  rewrite Hfirst in Hb. injection Hb as <-.
  destruct (Sequence_init_spec s Hc Hne) as (m & Hinit).
  rewrite Erun in Hinit.
  eexists _, ace, c5, c4, c3, c2, c1.
  split; [exact Hinit|]. split; [done|]. split; [done|].
  split; [by cbn [seq_cards]|]. split; [done|].
  split; [simpl; by rewrite W5, W4, W3, W2, W1|].
  assert (Forall has_weight [c5; c4; c3; c2; c1]) as Hw.
  { eapply Forall_impl; [exact Hmem|]. intros c Hcin. apply concrete_has_weight.
    by apply (proj1 (Forall_forall _ _) (Forall_concrete_with_low_ace s Hc)). }
  split; [|split].
  - intros H0. rewrite HX in L1. change (9 - 9) with 0 in L1.
    rewrite of_weight_cons in L1. rewrite decide_True in L1 by done.
    assert (of_weight 0 s = []) as E0.
    { apply last_None. apply last_of_weight_None. by rewrite Hperm. }
    rewrite E0 in L1. by injection L1 as <-.
  - intros Hnf. destruct (normal_form l Hv) as (r & sq & t & items & Hcombo & _ & Hn).
    fold s in Hn.
    assert (no_flush s) as Hnfs.
    { intros st. unfold s. rewrite scount_psort. apply Hnf. }
    destruct (wheel_nf s _ t items Hlen Hin_s Hnfs Erun Hn) as [-> ->].
    eexists. split; [exact Hcombo|]. done.
  - intros a b' Hta Hca Htb Hwb Hcb.
    destruct (cards b') as [|cb rest] eqn:Eb; [discriminate|].
    injection Hcb as Hcb _.
    assert (has_weight cb) as Hwcb by (by apply Forall_cons in Hwb as [? _]).
    assert (has_weight c5) as Hw5 by (by apply Forall_cons in Hw as [? _]).
    unfold ComboM.lt, ComboM.gt, ComboM.eq. rewrite Hta, Htb.
    rewrite bool_decide_eq_true_2 by done.
    unfold ComboCards.eq, ComboCards.lt, ComboCards.gt. rewrite Hca, Eb.
    cbn [ComboCards.compare].
    rewrite Card_ne_weight by done.
    rewrite bool_decide_eq_true_2 by lia. rewrite !bind_Ok.
    rewrite Card_eq_weight by done. rewrite bool_decide_eq_false_2 by lia.
    rewrite bind_Ok. rewrite Card_lt_weight, Card_gt_weight by done.
    rewrite bool_decide_eq_true_2 by lia. rewrite bool_decide_eq_false_2 by lia.
    done.
Qed.

Lemma wheel_is_five_high_witness :
  ∃ c, combo_of_cards wheel_group = Ok c ∧ type c = Some STRAIGHT ∧
       cards c = [card W5 Ss; card W4 Sh; card W3 Sd; card W2 Sc;
                  mkCard (Some W1) (Some Ss) true] ∧
       ComboM.lt c six_high_straight = Ok true.
Proof.
  assert (valid_group wheel_group) as Hv.
  { apply (bool_decide_unpack _). vm_compute. exact I. }
  assert (∀ n, n ∈ [13; 1; 2; 3; 4] → n ∈ wnum <$> wheel_group) as Hin.
  { intros n Hn. apply (bool_decide_unpack _).
    repeat (apply elem_of_cons in Hn as [->|Hn]); try (by vm_compute).
    by apply elem_of_nil in Hn. }
  assert (5 ∉ wnum <$> wheel_group) as H5.
  { apply (bool_decide_unpack _). by vm_compute. }
  assert (no_flush wheel_group) as Hnf.
  { intros st. destruct st; vm_compute; lia. }
  destruct (wheel_is_five_high wheel_group Hv Hin H5)
    as (sq & ace & c5 & c4 & c3 & c2 & c1 & _ & _ & _ & _ & _ & _ & _ & Hcl & Hlt).
  destruct (Hcl Hnf) as (c & Hc & Ht & Hcards).
  exists c. split; [done|]. split; [done|]. split.
  - clear Hlt Hcl Hcards Ht. vm_compute in Hc. injection Hc as <-. reflexivity.
  - apply (Hlt c six_high_straight); try done.
    repeat constructor; by eexists.
Defined.


(** ** The contribution pass *)

Lemma find_combo_sorted_Ok_inv self s c :
  ComboM.find_combo_sorted self s = Ok c → s ≠ [] ∧ Forall concrete s.
Proof.
  intros H. split.
  - intros ->. unfold ComboM.find_combo_sorted in H.
    change (RepeatsM.init []) with (@Raise Repeats ValueError) in H. discriminate.
  - destruct (decide (Forall concrete s)) as [|Hn]; [done|].
    destruct (find_combo_sorted_not_concrete self s Hn) as [e He]. congruence.
Qed.

Lemma find_combo_sorted_flags self s c :
  ComboM.find_combo_sorted self s = Ok c → flags c = flags self.
Proof.
  unfold ComboM.find_combo_sorted. intros H.
  apply bind_Ok_inv in H as (r & _ & H).
  destruct (five_or_more (rsuit r)).
  - apply bind_Ok_inv in H as (fc & _ & H).
    apply bind_Ok_inv in H as (cs & _ & H).
    apply bind_Ok_inv in H as (sq & _ & H).
    apply bind_Ok_inv in H as ([t items] & _ & H).
    by injection H as <-.
  - apply bind_Ok_inv in H as (sq & _ & H).
    apply bind_Ok_inv in H as ([t items] & _ & H).
    by injection H as <-.
Qed.

Lemma half_nominal_finder_flags self A B :
  flags self = (false, false, false) →
  flags (ComboM.half_nominal_finder self (A, B))
  = (ComboM.any_in_hand A && ComboM.any_in_hand B,
     xorb (ComboM.any_in_hand A) (ComboM.any_in_hand B),
     negb (ComboM.any_in_hand A) && negb (ComboM.any_in_hand B)).
Proof.
  unfold flags, ComboM.half_nominal_finder. intros [= -> -> ->]. simpl.
  by destruct (ComboM.any_in_hand A), (ComboM.any_in_hand B).
Qed.

Lemma check_nominal_exactly_one self σ c :
  flags self = (false, false, false) →
  ComboM.check_nominal_combo self σ = Ok c →
  flags c = (true, false, false) ∨ flags c = (false, true, false)
  ∨ flags c = (false, false, true).
Proof.
  intros Hfl.
  assert (∀ A B, let c' := ComboM.half_nominal_finder self (A, B) in
    flags c' = (true, false, false) ∨ flags c' = (false, true, false)
    ∨ flags c' = (false, false, true)) as Hh.
  { intros A B. cbv zeta. rewrite half_nominal_finder_flags by done.
    destruct (ComboM.any_in_hand A), (ComboM.any_in_hand B); simpl; auto. }
  unfold ComboM.check_nominal_combo.
  injection Hfl as Hr Hhn Hn.
  repeat case_bool_decide.
  - intros Hc. apply bind_Ok_inv in Hc as (r & _ & Hc).
    apply bind_Ok_inv in Hc as (k3 & _ & Hc).
    apply bind_Ok_inv in Hc as (three & _ & Hc).
    apply bind_Ok_inv in Hc as (k2 & _ & Hc).
    apply bind_Ok_inv in Hc as (two & _ & Hc).
    injection Hc as <-. apply Hh.
  - intros [= <-]. apply Hh.
  - destruct (ComboM.any_in_hand _); intros [= <-]; unfold flags; simpl;
      rewrite ?Hr, ?Hhn, ?Hn; auto.
  - destruct (ComboM.any_in_hand _); intros [= <-]; unfold flags; simpl;
      rewrite ?Hr, ?Hhn, ?Hn; auto.
  - destruct (ComboM.any_in_hand _); intros [= <-]; unfold flags; simpl;
      rewrite ?Hr, ?Hhn, ?Hn; auto.
  - destruct (ComboM.any_in_hand _); intros [= <-]; unfold flags; simpl;
      rewrite ?Hr, ?Hhn, ?Hn; auto.
Qed.

Lemma check_nominal_full_house self σ r k3 k2 :
  type self = Some FULL_HOUSE → repeats self = Some r →
  three (rweight r) = Some k3 → two (rweight r) = Some k2 →
  has_weight k3 → has_weight k2 →
  Forall has_weight (load (init_cards self) σ) →
  ComboM.check_nominal_combo self σ
  = Ok (ComboM.half_nominal_finder self
          (of_weight (wnum k3) (load (init_cards self) σ),
           of_weight (wnum k2) (load (init_cards self) σ))).
Proof.
  intros Ht Hr H3 H2 Hw3 Hw2 Hw. unfold ComboM.check_nominal_combo.
  rewrite bool_decide_eq_true_2 by done. rewrite Hr.
  cbn [ComboM.the]. rewrite bind_Ok, H3. cbn [ComboM.the]. rewrite bind_Ok.
  rewrite (list_filter_eq_weight k3) by done. rewrite bind_Ok, H2.
  cbn [ComboM.the]. rewrite bind_Ok.
  rewrite (list_filter_eq_weight k2) by done. by rewrite bind_Ok.
Qed.

Lemma check_nominal_two_pairs self σ :
  type self = Some TWO_PAIRS →
  ComboM.check_nominal_combo self σ
  = Ok (ComboM.half_nominal_finder self
          (take 2 (cards self), take 2 (drop 2 (cards self)))).
Proof.
  intros Ht. unfold ComboM.check_nominal_combo. rewrite Ht.
  rewrite bool_decide_eq_false_2 by discriminate.
  by rewrite bool_decide_eq_true_2.
Qed.

Lemma selected_full_house s r sq items :
  selected s r sq FULL_HOUSE items →
  ∃ k3 k2, three (rweight r) = Some k3 ∧ two (rweight r) = Some k2 ∧
    items = of_weight (wnum k3) s ++ take 2 (of_weight (wnum k2) s).
Proof.
  unfold selected. destruct (five_or_more (rsuit r)).
  { intros (st & _ & _ & _ & _ & H).
    destruct (run_of _); destruct H as [? _]; discriminate. }
  intros (_ & _ & _ & H).
  destruct (four (rweight r)); [destruct H as [? _]; discriminate|].
  destruct (three (rweight r)) as [k3|], (two (rweight r)) as [k2|];
    [destruct H as [_ ->]; by eexists _, _| | |];
    destruct (run_of _); try (destruct H as [? _]; discriminate);
    destruct (double_two (rweight r)) as [[|? ?]|];
    destruct H as [? _]; discriminate.
Qed.

Lemma selected_two_pairs s r sq items :
  selected s r sq TWO_PAIRS items →
  ∃ k ks, double_two (rweight r) = Some (k :: ks) ∧
    items = with_kickers (drop 2 (of_weights (k :: ks) s)
                          ++ take 2 (of_weights (k :: ks) s)) s.
Proof.
  unfold selected. destruct (five_or_more (rsuit r)).
  { intros (st & _ & _ & _ & _ & H).
    destruct (run_of _); destruct H as [? _]; discriminate. }
  intros (_ & _ & _ & H).
  destruct (four (rweight r)); [destruct H as [? _]; discriminate|].
  destruct (three (rweight r)) as [k3|], (two (rweight r)) as [k2|];
    try (destruct H as [? _]; discriminate);
    destruct (run_of _); try (destruct H as [? _]; discriminate);
    destruct (double_two (rweight r)) as [[|k ks]|];
    try (destruct H as [? _]; discriminate);
    destruct H as [_ ->]; by eexists _, _.
Qed.

Lemma full_house_keys s wr k3 k2 :
  Forall has_weight s → ascending s →
  kind_spec (with_count wkey_of s 4) (with_count wkey_of s 3)
    (with_count wkey_of s 2) wr →
  three wr = Some k3 → two wr = Some k2 →
  has_weight k3 ∧ has_weight k2 ∧ wcount s (wnum k3) = 3 ∧
  2 ≤ wcount s (wnum k2) ∧ wnum k2 ≠ wnum k3.
Proof.
  intros Hw Hasc Hk H3 H2. unfold kind_spec in Hk.
  pose proof (with_count_w_sorted s 3 Hw Hasc) as Hs3.
  destruct (with_count wkey_of s 4); [|destruct Hk as (_ & ? & _); congruence].
  destruct Hk as (_ & Hk).
  destruct (with_count wkey_of s 3) as [|a L3] eqn:E3; [destruct Hk; congruence|].
  destruct Hk as (Hthree & _ & Htwo).
  rewrite H3 in Hthree. rewrite H2 in Htwo. symmetry in Hthree, Htwo.
  assert (k3 ∈ with_count wkey_of s 3) as Hin3.
  { rewrite E3. by apply last_elem_of. }
  apply with_count_elem in Hin3 as (Hw3 & Hc3 & _); [|done].
  case_decide as Hlen.
  - destruct L3 as [|b [|]]; try done. simpl in Hthree, Htwo.
    injection Hthree as ->. injection Htwo as ->.
    assert (k2 ∈ with_count wkey_of s 3) as Hin2 by (rewrite E3; left).
    apply with_count_elem in Hin2 as (Hw2 & Hc2 & _); [|done].
    apply StronglySorted_inv in Hs3 as [_ Hlt]. apply Forall_inv in Hlt.
    split_and!; try done; lia.
  - assert (k2 ∈ with_count wkey_of s 2) as Hin2 by (by apply last_elem_of).
    apply with_count_elem in Hin2 as (Hw2 & Hc2 & _); [|done].
    split_and!; try done; [lia|]. intros E. rewrite E in Hc2. lia.
Qed.

Lemma two_pairs_keys s wr k ks :
  Forall has_weight s → ascending s →
  kind_spec (with_count wkey_of s 4) (with_count wkey_of s 3)
    (with_count wkey_of s 2) wr →
  double_two wr = Some (k :: ks) →
  ∃ klo khi, k :: ks = [klo; khi] ∧ wnum klo < wnum khi ∧
    wcount s (wnum klo) = 2 ∧ wcount s (wnum khi) = 2.
Proof.
  intros Hw Hasc Hk Hd. unfold kind_spec in Hk.
  pose proof (with_count_w_sorted s 2 Hw Hasc) as Hs2.
  destruct (with_count wkey_of s 4); [|destruct Hk as (_ & _ & _ & ?); congruence].
  destruct Hk as (_ & Hk).
  destruct (with_count wkey_of s 3); [|destruct Hk as (_ & ? & _); congruence].
  destruct Hk as (_ & Hk).
  case_decide as Hlen; [|destruct Hk; congruence].
  destruct Hk as [_ Hdt]. rewrite Hd in Hdt.
  destruct (last_two _ Hlen) as (pre & x & y & E2).
  assert (x ∈ with_count wkey_of s 2) as Hx by (rewrite E2; set_solver).
  assert (y ∈ with_count wkey_of s 2) as Hy by (rewrite E2; set_solver).
  rewrite E2 in Hdt, Hs2. rewrite py_lastn_2 in Hdt. injection Hdt as -> ->.
  apply with_count_elem in Hx as (_ & Hcx & _); [|done].
  apply with_count_elem in Hy as (_ & Hcy & _); [|done].
  apply StronglySorted_app in Hs2 as (_ & _ & Hs2).
  apply StronglySorted_inv in Hs2 as [_ Hlt]. apply Forall_inv in Hlt.
  by exists x, y.
Qed.

Lemma of_weight_wnum n s x : x ∈ of_weight n s → wnum x = n.
Proof. by intros [? _]%list_elem_of_filter. Qed.


(** [Combo(table=t, hand=h, nominal_check=nc)], step by step. *)
Lemma init_table_hand t h nc σ c σ' :
  ComboM.init None None (Some t) (Some h) nc σ = Ok (c, σ') ↔
  cls t = ClsTable ∧ cls h = ClsHand ∧
  ∃ c0, ComboM.find_combo (ComboM.new (fresh (dom σ)))
          (<[fresh (dom σ) := load (items t) σ ++ load (items h) σ]> σ) = Ok (c0, σ') ∧
        if nc then ComboM.check_nominal_combo c0 σ' = Ok c else c = c0.
Proof.
  unfold ComboM.init, alloc.
  destruct (decide (cls t = ClsTable)) as [Ht|Ht];
    [rewrite (bool_decide_eq_true_2 _ Ht)|rewrite (bool_decide_eq_false_2 _ Ht)].
  2:{ split; [discriminate|]. by intros (? & _). }
  destruct (decide (cls h = ClsHand)) as [Hh|Hh];
    [rewrite (bool_decide_eq_true_2 _ Hh)|rewrite (bool_decide_eq_false_2 _ Hh)].
  2:{ split; [discriminate|]. by intros (_ & ? & _). }
  rewrite bind_Ok. cbn beta iota. split.
  - intros H. apply bind_Ok_inv in H as ([c0 σ2] & Hf & H).
    split; [done|]. split; [done|]. exists c0. destruct nc.
    + apply bind_Ok_inv in H as (c' & Hc' & [= <- <-]). done.
    + by injection H as <- <-.
  - intros (_ & _ & c0 & Hf & H). rewrite Hf, bind_Ok. destruct nc.
    + by rewrite H, bind_Ok.
    + by subst.
Qed.

(** * The contribution check on a table and a hand *)

(** X21. What the contribution check does: a combination built from a
    table and a hand with the check has exactly one of [is_real],
    [is_half_nominal], [is_nominal] set; built without the check it is the
    same combination with all three unset. For a full house and for two
    pairs the code looks at the cards of table and hand together that
    have the weight of the first card of the combination, and at those
    that have the weight of its fourth card: the combination is real when
    both sets hold a card of the hand, half nominal when exactly one
    does, nominal when neither does. *)
Theorem contribution_flags t h σ c σ' :
  ComboM.init None None (Some t) (Some h) true σ = Ok (c, σ') →
  (∃ c0, ComboM.init None None (Some t) (Some h) false σ = Ok (c0, σ') ∧
         flags c0 = (false, false, false) ∧
         type c0 = type c ∧ cards c0 = cards c) ∧
  (flags c = (true, false, false) ∨ flags c = (false, true, false)
   ∨ flags c = (false, false, true)) ∧
  (type c = Some FULL_HOUSE ∨ type c = Some TWO_PAIRS →
   ∃ x y, cards c !! 0 = Some x ∧ cards c !! 3 = Some y ∧ wnum x ≠ wnum y ∧
     let group := load (items t) σ ++ load (items h) σ in
     let g1 := ComboM.any_in_hand (of_weight (wnum x) group) in
     let g2 := ComboM.any_in_hand (of_weight (wnum y) group) in
     flags c = (g1 && g2, xorb g1 g2, negb g1 && negb g2)).
Proof.
  intros H. apply init_table_hand in H as (Ht & Hh & c0 & Hfind & Hcheck).
  pose proof (check_nominal_combo_fields _ _ _ Hcheck) as (Hi & Hty & Hcs).
  pose proof Hfind as Hfind'.
  apply find_combo_Ok_inv in Hfind' as (Hsorted & Hic & Hσ).
  cbn [init_cards ComboM.new] in Hsorted, Hic, Hσ.
  set (a := fresh (dom σ)) in *.
  set (group := load (items t) σ ++ load (items h) σ) in *.
  assert (load a (<[a := group]> σ) = group) as Hload.
  { unfold load. by rewrite lookup_insert_eq. }
  rewrite Hload in Hsorted, Hσ.
  set (s := psort group) in *.
  assert (load (init_cards c0) σ' = s) as Hinit.
  { rewrite Hic, Hσ. unfold load. by rewrite lookup_insert_eq. }
  pose proof (find_combo_sorted_flags _ _ _ Hsorted) as Hfl0.
  change (flags (ComboM.new a)) with (false, false, false) in Hfl0.
  split; [|split].
  - exists c0. split; [|done].
    apply init_table_hand. split; [done|]. split; [done|]. by exists c0.
  - by eapply check_nominal_exactly_one.
  - intros Htype. rewrite Hty in Htype. rewrite Hcs.
    destruct (find_combo_sorted_Ok_inv _ _ _ Hsorted) as [Hne Hc].
    pose proof (Forall_concrete_has_weight s Hc) as Hw.
    pose proof (psort_ascending group) as Hasc. fold s in Hasc.
    destruct (find_combo_sorted_spec (ComboM.new a) s Hc Hne)
      as (r & sq & t0 & items & Hspec & Hk & _ & Hsel).
    rewrite Hsorted in Hspec. injection Hspec as ->.
    cbn [type cards ComboM.set_combo ComboM.new app] in Htype |- *.
    cbv zeta.
    assert (∀ n, of_weight n group = of_weight n s) as Hgs.
    { intros n. unfold s. by rewrite of_weight_psort. }
    destruct Htype as [[= ->]|[= ->]].
    + (* full house *)
      destruct (selected_full_house _ _ _ _ Hsel) as (k3 & k2 & H3 & H2 & Hitems).
      destruct (full_house_keys s _ k3 k2 Hw Hasc Hk H3 H2)
        as (Hw3 & Hw2 & Hc3 & Hc2 & Hne32).
      rewrite (check_nominal_full_house _ σ' r k3 k2) in Hcheck;
        [|done|done|done|done|done|done|by rewrite Hinit].
      injection Hcheck as <-. cbn [init_cards ComboM.set_combo ComboM.new] in Hinit.
      rewrite Hinit.
      unfold wcount in Hc3, Hc2.
      destruct (of_weight (wnum k3) s) as [|x1 [|x2 [|x3 [|]]]] eqn:E3;
        simpl in Hc3; try lia.
      destruct (of_weight (wnum k2) s) as [|y1 [|y2 rest]] eqn:E2;
        simpl in Hc2; try lia.
      assert (wnum x1 = wnum k3) as Hx.
      { apply (of_weight_wnum _ s). rewrite E3. left. }
      assert (wnum y1 = wnum k2) as Hy.
      { apply (of_weight_wnum _ s). rewrite E2. left. }
      exists x1, y1. rewrite Hitems. split; [done|]. split; [done|].
      split; [lia|]. rewrite !Hgs, Hx, Hy, E3, E2.
      by apply half_nominal_finder_flags.
    + (* two pairs *)
      destruct (selected_two_pairs _ _ _ _ Hsel) as (k & ks & Hd & Hitems).
      destruct (two_pairs_keys s _ k ks Hw Hasc Hk Hd)
        as (klo & khi & Eks & Hlt & Hclo & Hchi).
      rewrite Eks in Hitems. rewrite of_weights_pair in Hitems by done.
      rewrite check_nominal_two_pairs in Hcheck by done.
      injection Hcheck as <-.
      cbn [cards ComboM.set_combo ComboM.new app].
      unfold wcount in Hclo, Hchi.
      destruct (of_weight (wnum klo) s) as [|a1 [|a2 [|]]] eqn:Elo;
        simpl in Hclo; try lia.
      destruct (of_weight (wnum khi) s) as [|b1 [|b2 [|]]] eqn:Ehi;
        simpl in Hchi; try lia.
      assert (wnum a2 = wnum klo) as Ha.
      { apply (of_weight_wnum _ s). rewrite Elo. right. left. }
      assert (wnum b1 = wnum khi) as Hb.
      { apply (of_weight_wnum _ s). rewrite Ehi. left. }
      simpl in Hitems. rewrite with_kickers_le in Hitems by (simpl; lia).
      simpl in Hitems.
      exists b1, a2. rewrite Hitems. split; [done|]. split; [done|].
      split; [lia|]. rewrite !Hgs, Ha, Hb, Elo, Ehi.
      by apply (half_nominal_finder_flags _ [b1; b2] [a1; a2]).
Qed.

Lemma contribution_flags_witness :
  ∃ t h σ c σ',
    deal "3c/3d/7c/7d/7h" "3h/2s" = Ok (t, h, σ) ∧
    ComboM.init None None (Some t) (Some h) true σ = Ok (c, σ') ∧
    type c = Some FULL_HOUSE ∧ flags c = (false, true, false).
Proof.
  eexists _, _, _, _, _. split; [by vm_compute|].
  match goal with
  | |- ?i = Ok _ ∧ _ =>
      let r := eval vm_compute in i in
      match r with
      | Ok (?c, ?σ') =>
          assert (i = Ok (c, σ')) as Hinit by (vm_compute; reflexivity)
      end
  end.
  split; [exact Hinit|].
  destruct (contribution_flags _ _ _ _ _ Hinit) as (_ & _ & Hfh).
  split; [reflexivity|].
  destruct (Hfh (or_introl eq_refl)) as (x & y & Hx & Hy & _ & Hflags).
  injection Hx as <-. injection Hy as <-. exact Hflags.
Defined.

(** * The claims, continued *)

(** C7. The code departs from the claim on a full house made of two
    triples. With the table 3c/3d/7c/7d/7h and the hand 3h/2s the
    combination is 7c 7d 7h 3c 3d: neither its three sevens nor its two
    threes hold a card of the hand, so by the claim it is nominal. The
    code sets [is_half_nominal]: for a full house it looks for hand cards
    among all the threes of table and hand, also the one left out of the
    combination. *)
Theorem full_house_counts_a_card_outside_the_combination :
  ∃ t h σ c σ',
    deal "3c/3d/7c/7d/7h" "3h/2s" = Ok (t, h, σ) ∧
    ComboM.init None None (Some t) (Some h) true σ = Ok (c, σ') ∧
    type c = Some FULL_HOUSE ∧
    cards c = [card W7 Sc; card W7 Sd; card W7 Sh; card W3 Sc; card W3 Sd] ∧
    ComboM.any_in_hand (take 3 (cards c)) = false ∧
    ComboM.any_in_hand (drop 3 (cards c)) = false ∧
    flags c = (false, true, false).
Proof.
  eexists _, _, _, _, _. split; [by vm_compute|].
  split; [by vm_compute|]. by vm_compute.
Qed.


(** * Further properties of the code *)

(** ** The comparator is an order *)

Lemma compare_first_diff cond (f : nat → nat → bool) even l1 l2 :
  (∀ c k, has_weight c → has_weight k → cond c k = Ok (f (wnum c) (wnum k))) →
  Forall has_weight l1 → Forall has_weight l2 →
  ComboCards.compare cond even l1 l2
  = Ok (match first_diff (wnum <$> l1) (wnum <$> l2) with
        | Some (x, y) => f x y
        | None => even
        end).
Proof.
  intros Hc H1. revert l2. induction H1 as [|x l1 Hx Hl1 IH]; intros [|y l2] H2; try done.
  apply Forall_cons in H2 as [Hy Hl2]. simpl.
  rewrite Card_ne_weight by done.
  destruct (decide (wnum x = wnum y)) as [E|E].
  - rewrite (bool_decide_eq_false_2 (wnum x ≠ wnum y)) by (intros ?; done).
    rewrite bind_Ok. by apply IH.
  - rewrite (bool_decide_eq_true_2 (wnum x ≠ wnum y)) by done.
    rewrite bind_Ok. by apply Hc.
Qed.

Lemma first_diff_neq l1 l2 x y : first_diff l1 l2 = Some (x, y) → x ≠ y.
Proof.
  revert l2. induction l1 as [|a l1 IH]; intros [|b l2]; simpl; try done.
  case_decide; [apply IH|]. by intros [= <- <-].
Qed.

Lemma first_diff_swap l1 l2 :
  first_diff l2 l1 = (λ p, (p.2, p.1)) <$> first_diff l1 l2.
Proof.
  revert l2. induction l1 as [|a l1 IH]; intros [|b l2]; simpl; try done.
  destruct (decide (a = b)) as [->|E].
  - rewrite decide_True by done. apply IH.
  - by rewrite decide_False by done.
Qed.

Lemma first_diff_trans l1 l2 l3 x y y' z :
  first_diff l1 l2 = Some (x, y) → x < y →
  first_diff l2 l3 = Some (y', z) → y' < z →
  ∃ x' z', first_diff l1 l3 = Some (x', z') ∧ x' < z'.
Proof.
  revert l2 l3. induction l1 as [|a l1 IH]; intros [|b l2] [|c l3]; simpl; try done.
  intros H1 Hxy H2 Hyz.
  destruct (decide (a = b)) as [Hab|Hab]; destruct (decide (b = c)) as [Hbc|Hbc];
    destruct (decide (a = c)) as [Hac|Hac]; simplify_eq; try lia;
    try (by eexists _, _); try (by eapply IH);
    try (eexists _, _; split; [done|lia]).
Qed.

(** The four comparisons on combinations whose type is set and whose
    cards carry weights, as functions of the types and the weights. *)
Lemma Combo_compare_pure a b ta tb :
  type a = Some ta → type b = Some tb →
  Forall has_weight (cards a) → Forall has_weight (cards b) →
  let d := first_diff (weights_of a) (weights_of b) in
  ComboM.lt a b = Ok (if decide (ta = tb)
                      then match d with Some (x, y) => bool_decide (x < y) | None => false end
                      else ta <? tb) ∧
  ComboM.gt a b = Ok (if decide (ta = tb)
                      then match d with Some (x, y) => bool_decide (y < x) | None => false end
                      else tb <? ta) ∧
  ComboM.eq a b = Ok (if decide (ta = tb)
                      then match d with Some _ => false | None => true end
                      else false) ∧
  ComboM.ne a b = Ok (if decide (ta = tb)
                      then match d with Some _ => true | None => false end
                      else true).
Proof.
  intros Ha Hb Hwa Hwb d. unfold ComboM.lt, ComboM.gt, ComboM.eq, ComboM.ne.
  rewrite Ha, Hb.
  assert (ComboCards.eq (cards a) (cards b)
          = Ok (match d with Some _ => false | None => true end)) as Heq.
  { unfold ComboCards.eq.
    rewrite (compare_first_diff _ (λ x y, bool_decide (x = y))) by (done || apply Card_eq_weight).
    fold (weights_of a) (weights_of b). fold d.
    destruct d as [[x y]|] eqn:E; [|done].
    apply first_diff_neq in E. by rewrite bool_decide_eq_false_2. }
  destruct (decide (ta = tb)) as [->|Hne].
  - rewrite !bool_decide_eq_true_2 by done. rewrite Heq, !bind_Ok.
    unfold ComboCards.lt, ComboCards.gt.
    rewrite (compare_first_diff _ (λ x y, bool_decide (x < y))) by (done || apply Card_lt_weight).
    rewrite (compare_first_diff _ (λ x y, bool_decide (y < x))) by (done || apply Card_gt_weight).
    fold (weights_of a) (weights_of b). fold d.
    by destruct d as [[x y]|].
  - rewrite !bool_decide_eq_false_2 by congruence. done.
Qed.

(** X1. For two combinations whose type is set and whose cards carry
    weights, [a > b] is [b < a], [==] is symmetric, and [!=] is the
    negation of [==]. *)
Theorem combo_comparison_dual a b ta tb :
  type a = Some ta → type b = Some tb →
  Forall has_weight (cards a) → Forall has_weight (cards b) →
  ComboM.gt a b = ComboM.lt b a ∧
  ComboM.eq a b = ComboM.eq b a ∧
  ∃ e, ComboM.eq a b = Ok e ∧ ComboM.ne a b = Ok (negb e).
Proof.
  intros Ha Hb Hwa Hwb.
  destruct (Combo_compare_pure a b ta tb Ha Hb Hwa Hwb) as (_ & Hgt & Heq & Hne).
  destruct (Combo_compare_pure b a tb ta Hb Ha Hwb Hwa) as (Hlt' & _ & Heq' & _).
  cbv zeta in *. rewrite Hgt, Hlt', Heq, Heq', Hne.
  rewrite (first_diff_swap (weights_of a) (weights_of b)).
  destruct (decide (ta = tb)) as [->|Hn].
  - rewrite !decide_True by done.
    destruct (first_diff (weights_of a) (weights_of b)) as [[x y]|]; simpl;
      (split; [done|]); (split; [done|]); by eexists.
  - rewrite !decide_False by congruence.
    split; [done|]. split; [done|]. by eexists.
Qed.

Lemma combo_comparison_dual_witness :
  ComboM.gt (flush_in Ss) six_high_straight = ComboM.lt six_high_straight (flush_in Ss) ∧
  ComboM.eq (flush_in Ss) six_high_straight = ComboM.eq six_high_straight (flush_in Ss) ∧
  ∃ e, ComboM.eq (flush_in Ss) six_high_straight = Ok e ∧
       ComboM.ne (flush_in Ss) six_high_straight = Ok (negb e).
Proof.
  apply (combo_comparison_dual (flush_in Ss) six_high_straight FLUSH STRAIGHT);
    try reflexivity; repeat constructor; by eexists.
Defined.

(** X2. Of [a < b], [a == b] and [a > b] exactly one holds, and none of
    the three raises, for combinations whose type is set and whose cards
    carry weights. *)
Theorem combo_comparison_trichotomy a b ta tb :
  type a = Some ta → type b = Some tb →
  Forall has_weight (cards a) → Forall has_weight (cards b) →
  ∃ l e g, ComboM.lt a b = Ok l ∧ ComboM.eq a b = Ok e ∧ ComboM.gt a b = Ok g ∧
           exactly_one l e g.
Proof.
  intros Ha Hb Hwa Hwb.
  destruct (Combo_compare_pure a b ta tb Ha Hb Hwa Hwb) as (Hlt & Hgt & Heq & _).
  cbv zeta in *. eexists _, _, _. split; [exact Hlt|]. split; [exact Heq|].
  split; [exact Hgt|]. unfold exactly_one.
  destruct (decide (ta = tb)) as [->|Hn].
  - destruct (first_diff (weights_of a) (weights_of b)) as [[x y]|] eqn:E; [|auto].
    apply first_diff_neq in E.
    destruct (decide (x < y)).
    + rewrite bool_decide_eq_true_2, bool_decide_eq_false_2 by lia. auto.
    + rewrite bool_decide_eq_false_2, bool_decide_eq_true_2 by lia. auto.
  - destruct (Nat.ltb_spec ta tb); destruct (Nat.ltb_spec tb ta); try lia; auto.
Qed.

Lemma combo_comparison_trichotomy_witness :
  ∃ l e g, ComboM.lt (flush_in Ss) (flush_in Sh) = Ok l ∧
           ComboM.eq (flush_in Ss) (flush_in Sh) = Ok e ∧
           ComboM.gt (flush_in Ss) (flush_in Sh) = Ok g ∧
           exactly_one l e g.
Proof.
  apply (combo_comparison_trichotomy (flush_in Ss) (flush_in Sh) FLUSH FLUSH);
    try reflexivity; repeat constructor; by eexists.
Defined.

(** X3. [<] on combinations is transitive: from [a < b] and [b < c]
    follows [a < c], whatever the number of cards each holds. *)
Theorem combo_lt_transitive a b c ta tb tc :
  type a = Some ta → type b = Some tb → type c = Some tc →
  Forall has_weight (cards a) → Forall has_weight (cards b) →
  Forall has_weight (cards c) →
  ComboM.lt a b = Ok true → ComboM.lt b c = Ok true → ComboM.lt a c = Ok true.
Proof.
  intros Ha Hb Hc Hwa Hwb Hwc.
  destruct (Combo_compare_pure a b ta tb Ha Hb Hwa Hwb) as (-> & _).
  destruct (Combo_compare_pure b c tb tc Hb Hc Hwb Hwc) as (-> & _).
  destruct (Combo_compare_pure a c ta tc Ha Hc Hwa Hwc) as (-> & _).
  intros [= H1] [= H2]. f_equal.
  destruct (decide (ta = tb)) as [Hab|Hab]; destruct (decide (tb = tc)) as [Hbc|Hbc];
    destruct (decide (ta = tc)) as [Hac|Hac]; simplify_eq;
    try apply Nat.ltb_lt in H1; try apply Nat.ltb_lt in H2; try lia;
    try (apply Nat.ltb_lt; lia).
  destruct (first_diff (weights_of a) (weights_of b)) as [[x y]|] eqn:E1; [|done].
  destruct (first_diff (weights_of b) (weights_of c)) as [[y' z]|] eqn:E2; [|done].
  apply bool_decide_eq_true in H1, H2.
  destruct (first_diff_trans _ _ _ _ _ _ _ E1 H1 E2 H2) as (x' & z' & -> & Hlt).
  by apply bool_decide_eq_true.
Qed.

Lemma combo_lt_transitive_witness :
  ComboM.lt (mkCombo [card WK Ss; card WQ Sd; card W9 Sc; card W5 Sh; card W2 Sh]
               0 None None (Some HIGH_CARD) false false false)
            (flush_in Ss) = Ok true.
Proof.
  apply (combo_lt_transitive _ six_high_straight _ HIGH_CARD STRAIGHT FLUSH);
    try reflexivity; repeat constructor; by eexists.
Defined.


(** ** The sequence analyser *)

(** X4. On a non-empty list of cards that all carry a weight and a suit
    the sequence analyser succeeds; it reports five in a row exactly when
    the cards contain five consecutive weights, an ace counting as the
    lowest weight too, and then and only then sets [order_cards]. Its
    card list is the given one, preceded by a '1' copy of the last ace if
    there is an ace. *)
Theorem sequence_finds_runs cards :
  Forall concrete cards → cards ≠ [] →
  ∃ sq, SequenceM.init cards = Ok sq ∧
        five_in_a_row sq = has_run cards ∧
        (is_Some (order_cards sq) ↔ has_run cards = true) ∧
        seq_cards sq = with_low_ace cards.
Proof.
  intros Hc Hne. destruct (Sequence_init_spec cards Hc Hne) as (m & Hinit).
  eexists. split; [exact Hinit|]. cbn [five_in_a_row order_cards seq_cards].
  pose proof (run_of_has_run cards Hc) as Hrun.
  split; [|split; [exact Hrun|done]].
  destruct (run_of (with_low_ace cards)) as [oc|].
  - symmetry. by apply Hrun.
  - destruct (has_run cards); [|done].
    destruct (proj2 Hrun eq_refl) as [? ?]. discriminate.
Qed.

Lemma sequence_finds_runs_witness :
  ∃ sq, SequenceM.init wheel_group = Ok sq ∧
        five_in_a_row sq = has_run wheel_group ∧
        (is_Some (order_cards sq) ↔ has_run wheel_group = true) ∧
        seq_cards sq = with_low_ace wheel_group.
Proof.
  apply sequence_finds_runs; [|done].
  repeat constructor; by eexists.
Defined.

(** X5. The run the analyser reports is the highest one: its cards have
    five consecutive weights, highest first, each is a card of the
    analysed list, and no five consecutive weights present in the cards
    start higher. *)
Theorem sequence_reports_highest_run cards sq oc :
  Forall concrete cards →
  SequenceM.init cards = Ok sq → order_cards sq = Some oc →
  ∃ lo, wnum <$> oc = [lo + 4; lo + 3; lo + 2; lo + 1; lo] ∧
        Forall (λ c, c ∈ seq_cards sq) oc ∧
        ∀ lo', lo' < 10 → (∀ j, j < 5 → present cards (lo' + j) = true) → lo' ≤ lo.
Proof.
  intros Hc Hinit Hoc.
  assert (cards ≠ []) as Hne.
  { intros ->. vm_compute in Hinit. discriminate. }
  destruct (Sequence_init_spec cards Hc Hne) as (m & Hinit').
  rewrite Hinit in Hinit'. injection Hinit' as ->.
  cbn [order_cards seq_cards] in *.
  pose proof (Forall_concrete_with_low_ace cards Hc) as HX.
  destruct (run_of_cards _ oc HX Hoc)
    as (b & c0 & c1 & c2 & c3 & c4 & Hb & Hfirst & -> & Hin & W0 & W1 & W2 & W3 & W4 & _).
  exists (9 - b). split; [|split; [done|]].
  - simpl. rewrite W0, W1, W2, W3, W4. repeat f_equal; lia.
  - intros lo' Hlo' Hall.
    apply find_seq_Some in Hfirst as (_ & _ & Hmin).
    destruct (decide (lo' ≤ 9 - b)) as [|Hgt]; [done|]. exfalso.
    specialize (Hmin (9 - lo') ltac:(lia)).
    assert (run_at (mask_of (rank_of (with_low_ace cards))) (9 - lo') = true) as Ht;
      [|congruence].
    rewrite run_at_rank by (done || lia). intros j Hj. apply present_spec.
    replace (13 - (9 - lo' + j)) with (lo' + (4 - j)) by lia. apply Hall. lia.
Qed.

Lemma sequence_reports_highest_run_witness :
  ∃ sq oc lo, SequenceM.init two_straights = Ok sq ∧
     order_cards sq = Some oc ∧
     wnum <$> oc = [lo + 4; lo + 3; lo + 2; lo + 1; lo] ∧ 1 ≤ lo.
Proof.
  assert (Forall concrete two_straights) as Hc.
  { repeat constructor; by eexists. }
  destruct (sequence_finds_runs two_straights Hc) as (sq & Hinit & _ & Hsome & _);
    [done|].
  destruct (proj2 Hsome eq_refl) as [oc Hoc].
  destruct (sequence_reports_highest_run _ sq oc Hc Hinit Hoc) as (lo & Hw & _ & Hmax).
  exists sq, oc, lo. split; [done|]. split; [done|]. split; [done|].
  apply (Hmax 1); [lia|]. intros j Hj.
  assert (j = 0 ∨ j = 1 ∨ j = 2 ∨ j = 3 ∨ j = 4) as [-> | [-> | [-> | [-> | ->]]]] by lia;
    reflexivity.
Defined.


(** ** The repetition analyser *)

(** X6. On a non-empty list of cards that all carry a weight and a suit
    the repetition analyser succeeds; [max_repeats] is the largest number
    of cards of one suit, [flush_card] is the abstract card of a suit
    with that many cards, and [five_or_more] holds exactly when some suit
    has five or more cards. *)
Theorem suit_repeats_fields cards :
  Forall concrete cards → cards ≠ [] →
  ∃ r, RepeatsM.init cards = Ok r ∧
    (∀ st, scount cards st ≤ max_repeats (rsuit r)) ∧
    (∃ st, flush_card (rsuit r) = Some (skey st) ∧
           scount cards st = max_repeats (rsuit r)) ∧
    (five_or_more (rsuit r) = true ↔ ∃ st, 5 ≤ scount cards st).
Proof.
  intros Hc Hne.
  destruct (Repeats_init_spec cards Hc Hne) as (r & Hinit & _ & st & Hfc & Hcnt & Hmax & H5).
  exists r. split; [done|]. split; [done|]. split; [by exists st|].
  rewrite H5, Nat.leb_le. split.
  - intros Hm. exists st. lia.
  - intros [st' Hst']. specialize (Hmax st'). lia.
Qed.

Lemma suit_repeats_fields_witness :
  ∃ r, RepeatsM.init five_spades = Ok r ∧
    (∀ st, scount five_spades st ≤ max_repeats (rsuit r)) ∧
    (∃ st, flush_card (rsuit r) = Some (skey st) ∧
           scount five_spades st = max_repeats (rsuit r)) ∧
    (five_or_more (rsuit r) = true ↔ ∃ st, 5 ≤ scount five_spades st).
Proof.
  apply suit_repeats_fields; [|done].
  repeat constructor; by eexists.
Defined.

Lemma with_count_nonempty l c :
  Forall has_weight l → 0 < c →
  with_count wkey_of l c ≠ [] ↔ ∃ n, wcount l n = c.
Proof.
  intros Hw Hc. split.
  - intros Hne. destruct (with_count wkey_of l c) as [|k L] eqn:E; [done|].
    assert (k ∈ with_count wkey_of l c) as Hin by (rewrite E; left).
    apply with_count_elem in Hin as (_ & ? & _); [|done]. by exists (wnum k).
  - intros [n Hn] E. by apply (with_count_nil_inv l c n).
Qed.

Lemma sorted_head_min (L : list Card) x y :
  StronglySorted (λ a b, wnum a < wnum b) L → head L = Some x → y ∈ L →
  wnum x ≤ wnum y.
Proof.
  destruct L as [|a L]; [done|]. intros Hs [= ->] Hy.
  apply StronglySorted_inv in Hs as [_ Hlt].
  apply elem_of_cons in Hy as [->|Hy]; [done|].
  apply (proj1 (Forall_forall _ _) Hlt) in Hy. lia.
Qed.

(** X7. On a non-empty ascending list of cards that carry a weight and a
    suit: [four] is set exactly when a weight occurs four times, and is
    the lowest such weight; [three] is set exactly when no weight occurs
    four times and one occurs three times, and is the highest such weight;
    [double_two] is set exactly when no weight occurs three or four times
    and two weights occur twice, and holds the two highest such weights,
    the lower first. *)
Theorem weight_repeats_fields cards :
  Forall concrete cards → cards ≠ [] → ascending cards →
  ∃ r, RepeatsM.init cards = Ok r ∧
    (is_Some (four (rweight r)) ↔ ∃ n, wcount cards n = 4) ∧
    (is_Some (three (rweight r)) ↔
       (∀ n, wcount cards n ≠ 4) ∧ ∃ n, wcount cards n = 3) ∧
    (is_Some (double_two (rweight r)) ↔
       (∀ n, wcount cards n ≠ 4 ∧ wcount cards n ≠ 3) ∧
       ∃ n m, n ≠ m ∧ wcount cards n = 2 ∧ wcount cards m = 2) ∧
    (∀ k, four (rweight r) = Some k →
       wcount cards (wnum k) = 4 ∧ ∀ n, wcount cards n = 4 → wnum k ≤ n) ∧
    (∀ k, three (rweight r) = Some k →
       wcount cards (wnum k) = 3 ∧ ∀ n, wcount cards n = 3 → n ≤ wnum k) ∧
    (∀ ks, double_two (rweight r) = Some ks →
       ∃ klo khi, ks = [klo; khi] ∧ wnum klo < wnum khi ∧
         wcount cards (wnum klo) = 2 ∧ wcount cards (wnum khi) = 2 ∧
         ∀ n, wcount cards n = 2 → n = wnum khi ∨ n ≤ wnum klo).
Proof.
  intros Hc Hne Hasc. pose proof (Forall_concrete_has_weight cards Hc) as Hw.
  destruct (Repeats_init_spec cards Hc Hne) as (r & Hinit & Hk & _).
  exists r. split; [done|].
  pose proof (with_count_nonempty cards 4 Hw ltac:(lia)) as N4.
  pose proof (with_count_nonempty cards 3 Hw ltac:(lia)) as N3.
  pose proof (with_count_w_sorted cards 4 Hw Hasc) as S4.
  pose proof (with_count_w_sorted cards 3 Hw Hasc) as S3.
  pose proof (with_count_w_sorted cards 2 Hw Hasc) as S2.
  assert (∀ c L k, 0 < c → L = with_count wkey_of cards c → k ∈ L →
            wcount cards (wnum k) = c) as Helem.
  { intros c L k Hpos -> Hin. by apply with_count_elem in Hin as (_ & ? & _). }
  assert (∀ c n, 0 < c → wcount cards n = c →
            ∃ k, k ∈ with_count wkey_of cards c ∧ wnum k = n) as Hmem.
  { intros c n Hpos Hn. by apply with_count_mem. }
  unfold kind_spec in Hk.
  destruct (with_count wkey_of cards 4) as [|k4 L4] eqn:E4.
  - destruct Hk as (Hfour & Hk).
    assert (∀ n, wcount cards n ≠ 4) as Hno4.
    { intros n Hn. apply N4; [by exists n|done]. }
    destruct (with_count wkey_of cards 3) as [|k3 L3] eqn:E3.
    + destruct Hk as (Hthree & Hk).
      assert (∀ n, wcount cards n ≠ 3) as Hno3.
      { intros n Hn. apply N3; [by exists n|done]. }
      rewrite Hfour, Hthree.
      split; [split; [by intros [? ?]|intros [n Hn]; by destruct (Hno4 n)]|].
      split; [split; [by intros [? ?]|intros [_ [n Hn]]; by destruct (Hno3 n)]|].
      split; [|split; [done|split; [done|]]].
      * case_decide as Hlen.
        -- destruct Hk as [_ ->]. split; [intros _|by eexists].
           split; [done|].
           destruct (last_two _ Hlen) as (pre & x & y & E2).
           exists (wnum x), (wnum y).
           rewrite E2 in S2. apply StronglySorted_app in S2 as (_ & _ & S2).
           apply StronglySorted_inv in S2 as [_ Hlt]. apply Forall_inv in Hlt.
           split; [lia|]. split; apply (Helem 2 _ _ ltac:(lia) eq_refl);
             rewrite E2; set_solver.
        -- destruct Hk as [_ ->]. split; [by intros [? ?]|].
           intros (_ & n & m' & Hnm & Hn & Hm). exfalso. apply Hlen.
           destruct (Hmem 2 n ltac:(lia) Hn) as (kn & Hkn & En).
           destruct (Hmem 2 m' ltac:(lia) Hm) as (km & Hkm & Em).
           destruct (with_count wkey_of cards 2) as [|a [|b L]]; simpl; try lia.
           ++ by apply elem_of_nil in Hkn.
           ++ apply list_elem_of_singleton in Hkn, Hkm. congruence.
      * intros ks Hks. case_decide as Hlen; [|destruct Hk; congruence].
        destruct Hk as [_ Hdt]. rewrite Hks in Hdt.
        destruct (last_two _ Hlen) as (pre & x & y & E2).
        rewrite E2 in Hdt. rewrite py_lastn_2 in Hdt. injection Hdt as ->.
        exists x, y. split; [done|].
        pose proof S2 as S2'. rewrite E2 in S2'.
        apply StronglySorted_app in S2' as (Hpre & Spre & S2').
        apply StronglySorted_inv in S2' as [_ Hlt]. apply Forall_inv in Hlt.
        split; [lia|].
        split; [apply (Helem 2 _ _ ltac:(lia) eq_refl); rewrite E2; set_solver|].
        split; [apply (Helem 2 _ _ ltac:(lia) eq_refl); rewrite E2; set_solver|].
        intros n Hn. destruct (Hmem 2 n ltac:(lia) Hn) as (kn & Hkn & <-).
        rewrite E2 in Hkn. apply elem_of_app in Hkn as [Hkn|Hkn].
        -- right. specialize (Hpre kn x Hkn ltac:(left)). lia.
        -- apply elem_of_cons in Hkn as [->|Hkn]; [right; lia|].
           apply list_elem_of_singleton in Hkn as ->. by left.
    + destruct Hk as (Hthree & Hdt & _).
      rewrite Hfour, Hdt.
      destruct (last_is_Some_cons k3 L3) as [ka Ela]. rewrite Ela in Hthree.
      rewrite Hthree.
      assert (ka ∈ k3 :: L3) as Hka by (by apply last_elem_of).
      split; [split; [by intros [? ?]|intros [n Hn]; by destruct (Hno4 n)]|].
      split; [split; [intros _; split; [done|]; apply N3; done|by eexists]|].
      split; [split; [by intros [? ?]|]|].
      { intros [Hno _]. exfalso. destruct (Hno (wnum ka)) as [_ Hn3]. apply Hn3.
        apply (Helem 3 _ _ ltac:(lia) eq_refl). by rewrite E3. }
      split; [done|]. split; [|done].
      intros k [= <-]. split.
      * apply (Helem 3 _ _ ltac:(lia) eq_refl). by rewrite E3.
      * intros n Hn. destruct (Hmem 3 n ltac:(lia) Hn) as (kn & Hkn & <-).
        rewrite E3 in Hkn. by apply (sorted_last_max (k3 :: L3)).
  - destruct Hk as (Hfour & Hthree & _ & Hdt). rewrite Hfour, Hthree, Hdt.
    assert (k4 ∈ k4 :: L4) as Hk4 by left.
    assert (wcount cards (wnum k4) = 4) as Hc4.
    { apply (Helem 4 _ _ ltac:(lia) eq_refl). by rewrite E4. }
    split; [split; [intros _; by exists (wnum k4)|by eexists]|].
    split; [split; [by intros [? ?]|]|].
    { intros [Hno _]. by destruct (Hno (wnum k4)). }
    split; [split; [by intros [? ?]|]|].
    { intros [Hno _]. by destruct (Hno (wnum k4)) as [? _]. }
    split; [|done]. intros k [= <-]. split; [done|].
    intros n Hn. destruct (Hmem 4 n ltac:(lia) Hn) as (kn & Hkn & <-).
    rewrite E4 in Hkn. by apply (sorted_head_min (k4 :: L4)).
Qed.

Lemma weight_repeats_fields_witness :
  ∃ r, RepeatsM.init (psort two_triples) = Ok r ∧
       ∃ k, three (rweight r) = Some k ∧ wnum k = 6.
Proof.
  destruct (weight_repeats_fields (psort two_triples))
    as (r & Hinit & _ & H3 & _ & _ & Hthree & _).
  - apply Forall_psort. repeat constructor; by eexists.
  - done.
  - apply psort_ascending.
  - exists r. split; [done|].
    destruct (proj2 H3) as [k Hk].
    { split; [intros n; vm_compute; repeat (destruct n as [|n]; try lia)|].
      exists 6. reflexivity. }
    exists k. split; [done|].
    destruct (Hthree k Hk) as [Hc Hmax].
    pose proof (Hmax 6 eq_refl) as Hge.
    destruct (decide (wnum k = 6)) as [|Hne]; [done|]. exfalso.
    pose proof (wnum_lt k).
    assert (∀ n, 6 < n → n < 14 → wcount (psort two_triples) n ≠ 3) as Hno.
    { intros n H1 H2. do 14 (destruct n as [|n]; [vm_compute; lia|]). lia. }
    apply (Hno (wnum k)); [lia|done|done].
Defined.


(** ** The deck *)

(** X8. A refreshed deck holds fifty-two cards, each weight from '2' to
    'A' with each suit exactly once: there is no '1' card, no card is
    twice in it, and none is marked as in a hand. *)
Theorem refresh_is_standard_deck :
  DeckM.refresh = Ok standard_deck ∧
  length standard_deck = 52 ∧
  NoDup (card_key <$> standard_deck) ∧
  Forall concrete standard_deck ∧
  Forall (λ c, weight c ≠ Some W1 ∧ in_hand c = false) standard_deck ∧
  ∀ w s, w ≠ W1 → card w s ∈ standard_deck.
Proof.
  split; [by vm_compute|]. split; [done|].
  split; [apply (bool_decide_unpack _); by vm_compute|].
  split; [apply (bool_decide_unpack _); by vm_compute|].
  split; [apply (bool_decide_unpack _); by vm_compute|].
  intros w s Hw. apply (bool_decide_unpack _).
  destruct w, s; try done; by vm_compute.
Qed.

Lemma pop_cards_deals choices cards :
  in_range choices (length cards) →
  ∃ out rest, DeckM.pop_cards choices cards = DOk (out, rest) ∧
    length out = length choices ∧ out ++ rest ≡ₚ cards.
Proof.
  revert cards. induction choices as [|i choices IH]; intros cards Hr.
  - by exists [], cards.
  - destruct Hr as [Hi Hr]. simpl.
    destruct (lookup_lt_is_Some_2 cards i Hi) as [c Hc]. rewrite Hc.
    destruct (IH (delete i cards)) as (out & rest & -> & Hlen & Hperm).
    { rewrite length_delete by eauto. done. }
    exists (c :: out), rest. split; [done|]. split; [simpl; lia|].
    simpl. rewrite Hperm. symmetry. by apply delete_Permutation.
Qed.

Lemma pop_cards_error choices cards e :
  DeckM.pop_cards choices cards = DRaise e → e = DeckIndexError.
Proof.
  revert cards. induction choices as [|i choices IH]; intros cards; simpl; [done|].
  destruct (cards !! i); [|by intros [= <-]].
  destruct (DeckM.pop_cards choices (delete i cards)) as [[out rest]|e'] eqn:E; [done|].
  intros [= <-]. by eapply IH.
Qed.

(** X9. Taking [n] cards from a deck that holds at least [n], with [n]
    at least 1, succeeds whatever indices are drawn: [n] cards are
    yielded, the deck is left with [n] cards fewer, and the cards yielded
    together with the cards left are the cards the deck held. *)
Theorem push_cards_deals n choices cards :
  1 ≤ n ≤ length cards → n ≤ length choices →
  in_range (take n choices) (length cards) →
  ∃ out rest, DeckM.push_cards (Z.of_nat n) choices cards = DOk (out, rest) ∧
    length out = n ∧ length rest = length cards - n ∧ out ++ rest ≡ₚ cards.
Proof.
  intros Hn Hlen Hr. unfold DeckM.push_cards.
  destruct (Z.ltb_spec (Z.of_nat n) 1) as [|_]; [lia|].
  destruct (Z.ltb_spec (Z.of_nat (length cards)) (Z.of_nat n)) as [|_]; [lia|].
  simpl. rewrite Nat2Z.id.
  destruct (pop_cards_deals _ _ Hr) as (out & rest & -> & Hout & Hperm).
  exists out, rest. split; [done|]. rewrite length_take in Hout.
  split; [lia|]. split; [|done].
  apply Permutation_length in Hperm. rewrite length_app in Hperm. lia.
Qed.

Lemma push_cards_deals_witness :
  ∃ out rest, DeckM.push_cards 3 [51; 0; 7] standard_deck = DOk (out, rest) ∧
    length out = 3 ∧ length rest = 49 ∧ out ++ rest ≡ₚ standard_deck.
Proof.
  apply (push_cards_deals 3 [51; 0; 7] standard_deck); simpl; lia.
Defined.

(** X10. [push_cards] raises [DeckCountNumberError] exactly when the count
    is below 1 or above the number of cards in the deck. *)
Theorem push_cards_count_error count choices cards :
  DeckM.push_cards count choices cards = DRaise DeckCountNumberError
  ↔ (count < 1 ∨ Z.of_nat (length cards) < count)%Z.
Proof.
  unfold DeckM.push_cards.
  destruct (Z.ltb_spec count 1); destruct (Z.ltb_spec (Z.of_nat (length cards)) count);
    simpl; try (split; [lia || auto|done]).
  split; [|lia]. intros Hp. apply pop_cards_error in Hp. discriminate.
Qed.

Lemma submseteq_app_perm (out rest l : list Card) : out ++ rest ≡ₚ l → out ⊆+ l.
Proof. intros <-. by apply submseteq_inserts_r. Qed.

(** X11. Five, six or seven cards taken from a refreshed deck are a valid
    group: their classification succeeds and reports a type and exactly
    five cards. *)
Theorem dealt_cards_are_classified n choices deck :
  DeckM.refresh = Ok deck →
  5 ≤ n ≤ 7 → n ≤ length choices → in_range (take n choices) 52 →
  ∃ out rest c t, DeckM.push_cards (Z.of_nat n) choices deck = DOk (out, rest) ∧
    valid_group out ∧ combo_of_cards out = Ok c ∧
    type c = Some t ∧ length (cards c) = 5.
Proof.
  intros Hdeck Hn Hlen Hr.
  destruct refresh_is_standard_deck as (Href & H52 & Hnd & Hc & _).
  rewrite Href in Hdeck. injection Hdeck as <-.
  destruct (push_cards_deals n choices standard_deck) as (out & rest & Hpush & Hout & _ & Hperm);
    [lia|done|by rewrite H52|].
  apply submseteq_app_perm in Hperm.
  assert (valid_group out) as Hv.
  { split; [lia|]. split; [by eapply submseteq_Forall|].
    eapply submseteq_NoDup; [|exact Hnd]. by apply fmap_submseteq. }
  destruct (normal_form out Hv) as (r & sq & t & items & Hcombo & _ & Hnf).
  pose proof (valid_group_psort out Hv) as ((Hlen5 & _) & Hcs & _).
  destruct (well_ordered_nf (psort out) t items Hcs (psort_ascending out) Hlen5 Hnf)
    as [H5 _].
  eexists out, rest, _, t. split; [done|]. split; [done|]. split; [exact Hcombo|]. done.
Qed.

Lemma dealt_cards_are_classified_witness :
  ∃ out rest c t,
    DeckM.push_cards 5 [51; 0; 7; 7; 30] standard_deck = DOk (out, rest) ∧
    valid_group out ∧ combo_of_cards out = Ok c ∧
    type c = Some t ∧ length (cards c) = 5.
Proof.
  apply (dealt_cards_are_classified 5 [51; 0; 7; 7; 30] standard_deck);
    [by vm_compute|lia|simpl; lia|simpl; lia].
Defined.


(** ** The hand *)

Lemma wnum_mark c : wnum (HandS.mark c) = wnum c.
Proof. done. Qed.

(** X12. After [post_get_cards] on two cards that carry a weight and a
    suit, the hand holds both marked as in the hand, the card of the
    higher weight first (of two equal weights the second given comes
    first); [type] is the symbol of the first weight, that of the second,
    and nothing more for a pair, 's' for two cards of one suit, 'o'
    otherwise; [is_pair] is set for a pair and left as it was otherwise. *)
Theorem hand_typing a b self :
  concrete a → concrete b → h_items self = [a; b] →
  let hi := if bool_decide (wnum b < wnum a) then HandS.mark a else HandS.mark b in
  let lo := if bool_decide (wnum b < wnum a) then HandS.mark b else HandS.mark a in
  HandS.post_get_cards self
  = Ok (mkHand [hi; lo]
          (String (weight_symbol hi) (String (weight_symbol lo) (type_suffix hi lo)))
          (if decide (wnum a = wnum b) then true else h_is_pair self)
          (h_pair self)) ∧
  wnum lo ≤ wnum hi.
Proof.
  intros [[wa Ha] [sa Hsa]] [[wb Hb] [sb Hsb]] Hitems hi lo.
  unfold HandS.post_get_cards, HandS.typing. cbn [h_items h_type h_is_pair h_pair].
  rewrite Hitems. cbn [fmap list_fmap].
  rewrite list_sort_pure by (repeat constructor; by eexists).
  rewrite bind_Ok. cbn [psort psort_insert]. rewrite !wnum_mark.
  rewrite nat_ltb_decide. subst hi lo.
  destruct a as [? ? ia], b as [? ? ib]. simpl in Ha, Hb, Hsa, Hsb. subst.
  cbv [type_suffix weight_symbol wnum from_option weight suit HandS.mark].
  unfold WeightM.eq.
  destruct (decide (WeightM.number wb < WeightM.number wa)) as [Hlt|Hge].
  - rewrite (bool_decide_eq_true_2 _ Hlt).
    unfold reverse. cbn [rev_append weight suit].
    destruct (Nat.eqb_spec (WeightM.number wa) (WeightM.number wb)) as [E|E]; [lia|].
    rewrite !(decide_False (P := WeightM.number wa = WeightM.number wb)) by done.
    cbn [HandS.suits_eq]. rewrite bind_Ok. split; [|lia].
    unfold SuitM.eq. destruct sa, sb; reflexivity.
  - rewrite (bool_decide_eq_false_2 _ Hge).
    unfold reverse. cbn [rev_append weight suit].
    destruct (Nat.eqb_spec (WeightM.number wb) (WeightM.number wa)) as [E|E].
    + rewrite !(decide_True (P := WeightM.number wb = WeightM.number wa)) by done.
      rewrite !(decide_True (P := WeightM.number wa = WeightM.number wb)) by done.
      split; [done|lia].
    + rewrite !(decide_False (P := WeightM.number wb = WeightM.number wa)) by done.
      rewrite !(decide_False (P := WeightM.number wa = WeightM.number wb)) by lia.
      cbn [HandS.suits_eq]. rewrite bind_Ok. split; [|lia].
      unfold SuitM.eq. destruct sa, sb; reflexivity.
Qed.

Lemma hand_typing_witness :
  HandS.post_get_cards (mkHand [card W2 Sc; card WA Ss] EmptyString false None)
  = Ok (mkHand [HandS.mark (card WA Ss); HandS.mark (card W2 Sc)] "A2o" false None).
Proof.
  apply (hand_typing (card W2 Sc) (card WA Ss)
           (mkHand [card W2 Sc; card WA Ss] EmptyString false None));
    (done || split; by eexists).
Defined.

Lemma typing_keeps_is_pair self h' :
  HandS.typing self = Ok h' → h_is_pair self = true → h_is_pair h' = true.
Proof.
  unfold HandS.typing. intros H Hp.
  apply bind_Ok_inv in H as (s & _ & H).
  destruct (reverse s) as [|c0 [|c1 rest]]; try done.
  - destruct (weight c0); done.
  - destruct (weight c0); [|done]. destruct (weight c1); [|done].
    destruct (WeightM.eq _ _); [by injection H as <-|].
    apply bind_Ok_inv in H as (e & _ & [= <-]). done.
Qed.

(** X13. [is_pair] is never reset: once it is set on a [Hand] object it
    stays set through [clean], which writes [False] to another
    attribute, and through every later [typing], [post_get_cards] and
    [get_cards], whatever the new cards are. *)
Theorem is_pair_is_never_reset self :
  h_is_pair self = true →
  h_is_pair (HandS.clean self) = true ∧
  h_items (HandS.clean self) = [] ∧
  (∀ h', HandS.typing self = Ok h' → h_is_pair h' = true) ∧
  (∀ h', HandS.post_get_cards self = Ok h' → h_is_pair h' = true) ∧
  (∀ choices deck h' deck',
     HandS.get_cards self choices deck = DOk (Ok h', deck') → h_is_pair h' = true).
Proof.
  intros Hp. split; [done|]. split; [done|]. split; [|split].
  - intros h' H. by eapply typing_keeps_is_pair.
  - intros h' H. by eapply typing_keeps_is_pair.
  - intros choices deck h' deck'. unfold HandS.get_cards.
    destruct (DeckM.push_cards 2 choices deck) as [[out d]|e]; [|done].
    intros [= H _]. by eapply typing_keeps_is_pair.
Qed.

Lemma is_pair_is_never_reset_witness :
  ∃ h h',
    HandS.init (Some "As/Ad"%string) = Ok h ∧ h_is_pair h = true ∧
    HandS.post_get_cards
      (mkHand [card WK Ss; card W2 Sd] (h_type (HandS.clean h))
         (h_is_pair (HandS.clean h)) (h_pair (HandS.clean h))) = Ok h' ∧
    h_type h' = "K2o"%string ∧ h_is_pair h' = true.
Proof.
  eexists _, _. split; [by vm_compute|]. split; [reflexivity|].
  split; [by vm_compute|]. split; [reflexivity|].
  refine (proj1 (proj2 (proj2 (proj2 (is_pair_is_never_reset
    (mkHand [card WK Ss; card W2 Sd] EmptyString true (Some false)) eq_refl)))) _ _).
  by vm_compute.
Defined.

(** X14. A hand built from a string of exactly one card raises: an
    [IndexError] when the card carries a weight, an [AttributeError] when
    it is a suit alone. No hand of one card is ever built. *)
Theorem hand_of_one_card cs c :
  CardsM.parse cs 2 = Ok [c] →
  (has_weight c → HandS.init cs = Raise IndexError) ∧
  (weight c = None → HandS.init cs = Raise AttributeError).
Proof.
  intros Hparse. unfold HandS.init. rewrite Hparse, bind_Ok.
  unfold HandS.post_get_cards, HandS.typing. cbn.
  split.
  - intros [w Hw]. by rewrite Hw.
  - intros Hw. by rewrite Hw.
Qed.

Lemma hand_of_one_card_witness :
  HandS.init (Some "As"%string) = Raise IndexError ∧
  HandS.init (Some "s"%string) = Raise AttributeError.
Proof.
  split.
  - apply (hand_of_one_card (Some "As"%string) (card WA Ss)); [by vm_compute|by eexists].
  - apply (hand_of_one_card (Some "s"%string) (mkCard None (Some Ss) false));
      [by vm_compute|done].
Defined.


(** ** The constructor and its result *)

Lemma selected_type s r sq t items :
  selected s r sq t items → 1 ≤ t ≤ 9.
Proof.
  unfold selected. destruct (five_or_more (rsuit r)).
  { intros (st & _ & _ & _ & _ & H).
    destruct (run_of _); destruct H as [-> _]; (cbv; lia). }
  intros (_ & _ & _ & H).
  destruct (four (rweight r)); [destruct H as [-> _]; (cbv; lia)|].
  destruct (three (rweight r)) as [k3|], (two (rweight r)) as [k2|];
    try (destruct H as [-> _]; (cbv; lia));
    destruct (run_of _); try (destruct H as [-> _]; (cbv; lia));
    destruct (double_two (rweight r)) as [[|k ks]|];
    destruct H as [-> _]; (cbv; lia).
Qed.

Lemma init_result cs co table hand nc σ c σ' :
  ComboM.init cs co table hand nc σ = Ok (c, σ') →
  ∃ s r sq t items,
    Forall concrete s ∧ s ≠ [] ∧
    type c = Some t ∧ cards c = items ∧ selected s r sq t items.
Proof.
  intros H. apply init_Ok_inv in H as (σ1 & c0 & Hf & Ht & Hc & _).
  destruct (find_combo_sorted_Ok_inv _ _ _ Hf) as [Hne Hcon].
  destruct (find_combo_sorted_spec (ComboM.new (init_cards c)) _ Hcon Hne)
    as (r & sq & t & items & Hspec & _ & _ & Hsel).
  rewrite Hf in Hspec. injection Hspec as ->.
  eexists _, r, sq, t, items. split; [exact Hcon|]. split; [exact Hne|].
  split; [by rewrite Ht|]. split; [by rewrite Hc|]. done.
Qed.

(** X15. Every combination the constructor returns has a type from 1 to
    9, so its [name] is defined: the lookup in [TYPE_NAMES] does not
    raise. *)
Theorem every_combination_has_a_name cs co table hand nc σ c σ' :
  ComboM.init cs co table hand nc σ = Ok (c, σ') →
  ∃ t n, type c = Some t ∧ 1 ≤ t ≤ 9 ∧ Combo_name c = Ok n.
Proof.
  intros H. apply init_result in H as (s & r & sq & t & items & _ & _ & Ht & _ & Hsel).
  apply selected_type in Hsel. unfold Combo_name. rewrite Ht.
  do 10 (destruct t as [|t]; [try lia; by eexists _, _|]). lia.
Qed.

Lemma every_combination_has_a_name_witness :
  ∃ c σ' t n,
    ComboM.init (Some "6s/Jc/Ah/9h/3d/Jd"%string) None None None false ∅ = Ok (c, σ') ∧
    type c = Some t ∧ Combo_name c = Ok n.
Proof.
  match goal with
  | |- ∃ c σ' t n, ?i = Ok _ ∧ _ =>
      let r := eval vm_compute in i in
      match r with
      | Ok (?c, ?σ') =>
          assert (i = Ok (c, σ')) as Hinit by (vm_compute; reflexivity)
      end
  end.
  destruct (every_combination_has_a_name _ _ _ _ _ _ _ _ Hinit) as (t & n & Ht & _ & Hn).
  eexists _, _, t, n. split; [exact Hinit|]. done.
Defined.

Lemma list_mapM_length {A B : Type} (f : A → Res B) l r :
  list_mapM f l = Ok r → length r = length l.
Proof.
  revert r. induction l as [|x l IH]; intros r; simpl; [by intros [= <-]|].
  intros H. apply bind_Ok_inv in H as (y & _ & H).
  apply bind_Ok_inv in H as (r' & Hr' & [= <-]). simpl. by rewrite (IH r').
Qed.

Lemma parse_length cs n l : CardsM.parse cs n = Ok l → length l ≤ n.
Proof.
  unfold CardsM.parse. destruct cs as [[|a s]|]; try (intros [= <-]; simpl; lia).
  intros H. apply list_mapM_length in H. rewrite H, length_take. lia.
Qed.

Lemma psort_length_perm l : length (psort l) = length l.
Proof. by rewrite psort_perm. Qed.

(** X16. A card group never holds more cards than its class allows: a
    [Cards] object built from a string holds at most 7 cards, a [Table] at
    most 5 and a [Hand] at most 2, however many the string lists; the
    fields beyond the limit are dropped. *)
Theorem card_groups_are_bounded cs σ :
  (∀ o σ', CardsM.init cs σ = Ok (o, σ') → length (load (items o) σ') ≤ 7) ∧
  (∀ o σ', TableM.init cs σ = Ok (o, σ') → length (load (items o) σ') ≤ 5) ∧
  (∀ o σ', HandM.init cs σ = Ok (o, σ') → length (load (items o) σ') ≤ 2).
Proof.
  assert (∀ (l : list Card) (τ : gmap nat (list Card)),
            load (fresh (dom τ)) (<[fresh (dom τ) := l]> τ) = l) as Hload.
  { intros l τ. unfold load. by rewrite lookup_insert_eq. }
  split; [|split].
  - intros o σ'. unfold CardsM.init, alloc. intros H.
    apply bind_Ok_inv in H as (l & Hl & [= <- <-]). cbn [items].
    rewrite Hload. by eapply parse_length.
  - intros o σ'. unfold TableM.init, alloc. intros H.
    apply bind_Ok_inv in H as (l & Hl & [= <- <-]). cbn [items].
    rewrite Hload. by eapply parse_length.
  - intros o σ'. unfold HandM.init, alloc. intros H.
    apply bind_Ok_inv in H as (l & Hl & H).
    apply bind_Ok_inv in H as (l' & Hl' & [= <- <-]). cbn [items].
    rewrite Hload. apply parse_length in Hl.
    destruct l as [|x l]; [injection Hl' as <-; simpl; lia|].
    unfold HandM.post_get_cards in Hl'.
    apply bind_Ok_inv in Hl' as (s & Hs & Hl').
    apply list_sort_Ok_inv in Hs as ->.
    assert (l' = reverse (psort ((λ c, mkCard (weight c) (suit c) true) <$> x :: l))) as ->.
    { destruct (reverse _) as [|c0 [|c1 rest]]; try done.
      - by destruct (weight c0).
      - destruct (weight c0); [|done]. destruct (weight c1); [|done].
        destruct (WeightM.eq _ _); [by injection Hl' as <-|].
        destruct (suit c0), (suit c1); try done; by injection Hl' as <-. }
    rewrite length_reverse, psort_length_perm, length_fmap. done.
Qed.

(** X17. Whether a card is in a list is decided by weight alone when the
    card and the cards of the list carry weights: a card of another suit
    but of the same weight counts. For the abstract card of a suit it is
    decided by the suit. *)
Theorem membership_is_by_weight k l :
  Forall concrete l →
  (has_weight k → list_contains k l = Ok (bool_decide (wnum k ∈ wnum <$> l))) ∧
  (∀ st, list_contains (skey st) l = Ok (bool_decide (Some st ∈ suit <$> l))).
Proof.
  intros Hc. split.
  - intros Hk. apply list_contains_weight; [done|by apply Forall_concrete_has_weight].
  - intros st. induction Hc as [|c l [_ [s Hs]] Hl IH]; [done|].
    assert (CardM.eq (skey st) c = Ok (bool_decide (st = s))) as Heq.
    { unfold CardM.eq. cbn [weight suit skey]. rewrite Hs.
      by destruct st, s. }
    cbn [list_contains]. rewrite Heq, bind_Ok. rewrite fmap_cons, Hs.
    destruct (decide (st = s)) as [->|Hne].
    + rewrite bool_decide_eq_true_2 by done.
      rewrite bool_decide_eq_true_2 by left. done.
    + rewrite bool_decide_eq_false_2 by done. rewrite IH. f_equal.
      apply bool_decide_ext. rewrite elem_of_cons. naive_solver.
Qed.

Lemma membership_is_by_weight_witness :
  list_contains (card WA Ss) [card WA Sh; card WK Sd] = Ok true.
Proof.
  destruct (membership_is_by_weight (card WA Ss) [card WA Sh; card WK Sd]) as [Hw _].
  - repeat constructor; by eexists.
  - rewrite Hw by (by eexists). reflexivity.
Defined.


Lemma refresh_is_standard_deck_witness : card WA Ss ∈ standard_deck.
Proof.
  destruct refresh_is_standard_deck as (_ & _ & _ & _ & _ & Hall).
  by apply Hall.
Defined.

Lemma push_cards_count_error_witness :
  DeckM.push_cards 53 [] standard_deck = DRaise DeckCountNumberError.
Proof. apply push_cards_count_error. right. simpl. lia. Defined.

Lemma card_groups_are_bounded_witness :
  ∃ o σ', TableM.init (Some eight_fields) ∅ = Ok (o, σ') ∧
          length (load (items o) σ') ≤ 5.
Proof.
  eexists _, _. split; [by vm_compute|].
  apply (proj1 (proj2 (card_groups_are_bounded (Some eight_fields) ∅))).
  by vm_compute.
Defined.

(** X18. The contribution check matters only for a combination built
    from a table and a hand. Built from a cards string or from a [Cards]
    object, the constructor does the same with and without
    [nominal_check], and none of the three flags is set. *)
Theorem nominal_check_needs_table_and_hand cs co table hand nc σ :
  (¬ falsy cs ∨ is_Some co) →
  ComboM.init cs co table hand nc σ = ComboM.init cs co table hand false σ ∧
  ∀ c σ', ComboM.init cs co table hand nc σ = Ok (c, σ') →
          flags c = (false, false, false).
Proof.
  intros Hpath.
  assert (ComboM.init cs co table hand nc σ = ComboM.init cs co table hand false σ) as Heq.
  { unfold ComboM.init. destruct cs as [[|ch s]|].
    - destruct Hpath as [Hn|[o ->]]; [destruct Hn; by right|done].
    - done.
    - destruct Hpath as [Hn|[o ->]]; [destruct Hn; by left|done]. }
  split; [done|]. intros c σ'. rewrite Heq. unfold ComboM.init. intros H.
  apply bind_Ok_inv in H as ([[a σ1] ncn] & H1 & H).
  assert (ncn = false) as ->.
  { destruct cs as [[|ch s]|];
      try (apply bind_Ok_inv in H1 as ([o σo] & _ & [= _ _ <-]); done);
      (destruct co as [o|]; [case_bool_decide; [by injection H1|done]|]);
      (destruct table as [t|]; [|done]); (destruct hand as [h|]; [|done]);
      repeat case_bool_decide; try done; unfold alloc in H1; by injection H1. }
  apply bind_Ok_inv in H as ([c0 σ2] & Hf & H).
  apply find_combo_Ok_inv in Hf as (Hf & _).
  apply find_combo_sorted_flags in Hf. by injection H as <- _.
Qed.

Lemma nominal_check_needs_table_and_hand_witness :
  ∃ c σ',
    ComboM.init (Some "6s/Jc/Ah/9h/3d/Jd"%string) None None None true ∅ = Ok (c, σ') ∧
    flags c = (false, false, false).
Proof.
  match goal with
  | |- ∃ c σ', ?i = Ok _ ∧ _ =>
      let r := eval vm_compute in i in
      match r with
      | Ok (?c, ?σ') =>
          assert (i = Ok (c, σ')) as Hinit by (vm_compute; reflexivity)
      end
  end.
  eexists _, _. split; [exact Hinit|].
  refine (proj2 (nominal_check_needs_table_and_hand
                   (Some "6s/Jc/Ah/9h/3d/Jd"%string) None None None true ∅ _) _ _ Hinit).
  left. intros [?|?]; discriminate.
Defined.


(** ** Where the cards of a combination come from *)

Lemma elem_of_with_low_ace s x :
  x ∈ with_low_ace s → from_group s x.
Proof.
  unfold with_low_ace, from_group.
  destruct (last (of_weight 13 s)) as [ace|] eqn:E; [|by left].
  apply last_of_weight_Some in E as [Hin Hw].
  intros [->|Hx]%elem_of_cons; [right; by exists ace|by left].
Qed.

Lemma run_from_group s oc :
  Forall concrete s → run_of (with_low_ace s) = Some oc → Forall (from_group s) oc.
Proof.
  intros Hc Hr.
  destruct (run_of_cards _ oc (Forall_concrete_with_low_ace s Hc) Hr)
    as (b & c0 & c1 & c2 & c3 & c4 & _ & _ & -> & Hin & _).
  eapply Forall_impl; [exact Hin|]. intros x. apply elem_of_with_low_ace.
Qed.

Lemma from_group_mono s s' x :
  (∀ c, c ∈ s → c ∈ s') → from_group s x → from_group s' x.
Proof.
  intros Hsub [Hx|(ace & Ha & Hw & ->)]; [left; by apply Hsub|].
  right. exists ace. split; [by apply Hsub|done].
Qed.

Lemma group_kickers_sub a s n :
  of_weight a s ++ take n (reverse (not_of_weight a s)) ⊆+ s.
Proof.
  rewrite (split_weight_perm a s) at 3.
  apply submseteq_app; [done|apply kickers_sub].
Qed.

Lemma nf_items_sub s t items :
  nf s t items → t ≠ STRAIGHT → t ≠ STRAIGHT_FLUSH → items ⊆+ s.
Proof.
  intros H Hs Hsf. destruct H as
    [st items _ _|st _ _|a _ _|a b _ _ Ha _ Hb|items _ _ _ _
    |a _ _ _ _|lo hi _ _ _ Hlt _ _ _|a _ _ _ _| _ _ _]; try done.
  - etrans; [apply lastn_reverse_sub|]. apply sublist_submseteq, sublist_filter.
  - apply group_kickers_sub.
  - assert (b ≠ a) as Hne.
    { intros ->. destruct Hb as [[_ ?]|(_ & ? & _)]; lia. }
    rewrite (split_weight_perm a s) at 3.
    apply submseteq_app; [done|].
    etrans; [apply submseteq_take|]. by apply of_weight_sub_not.
  - apply group_kickers_sub.
  - rewrite (split_two_weights_perm hi lo s) at 4 by lia.
    apply submseteq_app; [done|]. apply submseteq_app; [done|]. apply kickers_sub.
  - apply group_kickers_sub.
  - apply lastn_reverse_sub.
Qed.

(** X19. Every card of the combination of a valid group is a card of the
    group, or the '1' copy of an ace of the group. Unless the combination
    is a straight or a straight flush, its five cards are five different
    cards of the group. *)
Theorem combination_cards_come_from_group l :
  valid_group l →
  ∃ c t, combo_of_cards l = Ok c ∧ type c = Some t ∧
    Forall (from_group l) (cards c) ∧
    (t ≠ STRAIGHT → t ≠ STRAIGHT_FLUSH → cards c ⊆+ l).
Proof.
  intros Hv. destruct (normal_form l Hv) as (r & sq & t & items & Hcombo & _ & Hnf).
  pose proof (valid_group_psort l Hv) as (_ & Hc & _).
  set (s := psort l) in *.
  assert (∀ c, c ∈ s → c ∈ l) as Hsl.
  { intros c. unfold s. by rewrite psort_perm. }
  eexists _, t. split; [exact Hcombo|]. split; [done|].
  cbn [cards ComboM.set_combo ComboM.new app].
  split.
  - destruct (decide (t = STRAIGHT ∨ t = STRAIGHT_FLUSH)) as [Hrun|Hnot].
    + assert (Forall (from_group s) items) as Hfg.
      { destruct Hnf as
          [st items _ Hr|st _ _|a _ _|a b _ _ _ _ _|items _ _ _ Hr
          |a _ _ _ _|lo hi _ _ _ _ _ _ _|a _ _ _ _| _ _ _];
          try (destruct Hrun; discriminate).
        - assert (Forall concrete (of_suit st s)) as Hfc by (by apply Forall_filter_keep).
          eapply Forall_impl; [exact (run_from_group _ _ Hfc Hr)|].
          intros x. apply from_group_mono. intros c Hin.
          by apply list_elem_of_filter in Hin as [_ ?].
        - by apply run_from_group. }
      eapply Forall_impl; [exact Hfg|]. intros x. by apply from_group_mono.
    + assert (items ⊆+ s) as Hsub.
      { apply (nf_items_sub s t items Hnf); intros ->; apply Hnot; auto. }
      apply Forall_forall. intros x Hx. left. apply Hsl.
      by eapply elem_of_submseteq.
  - intros Hs Hsf. etrans; [by apply (nf_items_sub s t items Hnf)|].
    apply Permutation_submseteq. unfold s. apply psort_perm.
Qed.

Lemma combination_cards_come_from_group_witness :
  ∃ c t, combo_of_cards wheel_group = Ok c ∧ type c = Some t ∧
    Forall (from_group wheel_group) (cards c) ∧
    (t ≠ STRAIGHT → t ≠ STRAIGHT_FLUSH → cards c ⊆+ wheel_group).
Proof.
  apply combination_cards_come_from_group.
  apply (bool_decide_unpack _). vm_compute. exact I.
Defined.

(** ** Kickers and the contribution check *)

Lemma selected_one_group s r sq t items L4 L3 L2 :
  Forall has_weight s →
  L4 = with_count wkey_of s 4 → L3 = with_count wkey_of s 3 →
  L2 = with_count wkey_of s 2 →
  kind_spec L4 L3 L2 (rweight r) →
  selected s r sq t items →
  ∀ n, (t, n) ∈ [(ONE_PAIR, 2); (THREE_OF_A_KIND, 3); (FOUR_OF_A_KIND, 4)] →
  ∃ k, wcount s (wnum k) = n ∧ items = with_kickers (of_weight (wnum k) s) s.
Proof.
  intros Hw E4 E3 E2 Hk Hsel n Hn.
  assert (∀ c k, 0 < c → k ∈ with_count wkey_of s c → wcount s (wnum k) = c) as Helem.
  { intros c k Hpos Hin. by apply with_count_elem in Hin as (_ & ? & _). }
  assert (t = ONE_PAIR ∧ n = 2 ∨ t = THREE_OF_A_KIND ∧ n = 3
          ∨ t = FOUR_OF_A_KIND ∧ n = 4) as Ht.
  { repeat (apply elem_of_cons in Hn as [[= -> ->]|Hn]); auto.
    by apply elem_of_nil in Hn. }
  clear Hn. unfold selected in Hsel. destruct (five_or_more (rsuit r)).
  { destruct Hsel as (st & _ & _ & _ & _ & H).
    destruct (run_of _); destruct H as [-> _];
      destruct Ht as [[? _]|[[? _]|[? _]]]; discriminate. }
  destruct Hsel as (_ & _ & _ & H). unfold kind_spec in Hk. subst L4 L3 L2.
  destruct (four (rweight r)) as [k4|] eqn:F4.
  { destruct H as [-> ->].
    destruct Ht as [[? _]|[[? _]|[_ ->]]]; try discriminate.
    exists k4. split; [|done].
    destruct (with_count wkey_of s 4) as [|k L4] eqn:E; [destruct Hk; congruence|].
    destruct Hk as (Hf & _). assert (k4 = k) as -> by congruence.
    apply (Helem 4); [lia|]. rewrite E. left. }
  destruct (with_count wkey_of s 4) as [|? ?] eqn:E4; [|destruct Hk; congruence].
  destruct Hk as (_ & Hk).
  destruct (three (rweight r)) as [k3|] eqn:F3.
  - destruct (with_count wkey_of s 3) as [|a L3] eqn:E3; [destruct Hk; congruence|].
    destruct Hk as (Hthree & _).
    assert (k3 ∈ with_count wkey_of s 3) as Hin.
    { rewrite E3. apply last_elem_of. congruence. }
    destruct (two (rweight r)) as [k2|];
      [destruct H as [-> _]; destruct Ht as [[? _]|[[? _]|[? _]]]; discriminate|].
    destruct (run_of _);
      [destruct H as [-> _]; destruct Ht as [[? _]|[[? _]|[? _]]]; discriminate|].
    destruct H as [-> ->].
    destruct Ht as [[? _]|[[_ ->]|[? _]]]; try discriminate.
    exists k3. split; [|done]. by apply (Helem 3); [lia|].
  - destruct (with_count wkey_of s 3) as [|a L3] eqn:E3.
    2:{ destruct Hk as (Hthree & _). destruct (last_is_Some_cons a L3) as [x Hx].
        congruence. }
    destruct Hk as (_ & Hk).
    destruct (two (rweight r)) as [k2|] eqn:F2.
    + destruct (run_of _);
        [destruct H as [-> _]; destruct Ht as [[? _]|[[? _]|[? _]]]; discriminate|].
      case_decide as Hlen; [destruct Hk; congruence|].
      destruct Hk as [Htwo Hdt]. rewrite Hdt in H.
      destruct H as [-> ->].
      destruct Ht as [[_ ->]|[[? _]|[? _]]]; try discriminate.
      exists k2. split; [|done]. apply (Helem 2); [lia|].
      by apply last_elem_of.
    + destruct (run_of _);
        [destruct H as [-> _]; destruct Ht as [[? _]|[[? _]|[? _]]]; discriminate|].
      destruct (double_two (rweight r)) as [[|? ?]|];
        destruct H as [-> _]; destruct Ht as [[? _]|[[? _]|[? _]]]; discriminate.
Qed.

(** X20. For one pair, three of a kind and four of a kind built from a
    table and a hand with the contribution check, only the cards of the
    repeated weight count: the combination is real when one of them is a
    card of the hand and nominal otherwise, whether or not a kicker comes
    from the hand, and it is never half nominal. *)
Theorem kicker_in_hand_does_not_count t h σ c σ' n :
  ComboM.init None None (Some t) (Some h) true σ = Ok (c, σ') →
  (type c, n) ∈ [(Some ONE_PAIR, 2); (Some THREE_OF_A_KIND, 3);
                 (Some FOUR_OF_A_KIND, 4)] →
  ∃ x, cards c !! 0 = Some x ∧
    let group := load (items t) σ ++ load (items h) σ in
    take n (cards c) = of_weight (wnum x) group ∧
    flags c = (ComboM.any_in_hand (of_weight (wnum x) group), false,
               negb (ComboM.any_in_hand (of_weight (wnum x) group))).
Proof.
  intros H Hn. apply init_table_hand in H as (Ht & Hh & c0 & Hfind & Hcheck).
  pose proof (check_nominal_combo_fields _ _ _ Hcheck) as (Hi & Hty & Hcs).
  apply find_combo_Ok_inv in Hfind as (Hsorted & Hic & Hσ).
  cbn [init_cards ComboM.new] in Hsorted, Hic, Hσ.
  set (a := fresh (dom σ)) in *.
  set (group := load (items t) σ ++ load (items h) σ) in *.
  assert (load a (<[a := group]> σ) = group) as Hload.
  { unfold load. by rewrite lookup_insert_eq. }
  rewrite Hload in Hsorted, Hσ. clear Hload.
  set (s := psort group) in *.
  pose proof (find_combo_sorted_flags _ _ _ Hsorted) as Hfl0.
  change (flags (ComboM.new a)) with (false, false, false) in Hfl0.
  destruct (find_combo_sorted_Ok_inv _ _ _ Hsorted) as [Hne Hc].
  pose proof (Forall_concrete_has_weight s Hc) as Hw.
  destruct (find_combo_sorted_spec (ComboM.new a) s Hc Hne)
    as (r & sq & t0 & items & Hspec & Hk & _ & Hsel).
  rewrite Hsorted in Hspec. injection Hspec as ->.
  rewrite Hty in Hn. rewrite Hcs. clear Hty Hcs Hi.
  cbn [type cards ComboM.set_combo ComboM.new app] in Hn |- *.
  assert ((t0, n) ∈ [(ONE_PAIR, 2); (THREE_OF_A_KIND, 3); (FOUR_OF_A_KIND, 4)]) as Hn'.
  { repeat (apply elem_of_cons in Hn as [[= -> ->]|Hn]);
      [left|right; left|right; right; left|by apply elem_of_nil in Hn]. }
  destruct (selected_one_group s r sq t0 items _ _ _ Hw eq_refl eq_refl eq_refl Hk Hsel n Hn')
    as (k & Hcount & ->).
  assert (0 < n ∧ n ≤ 4) as Hpos.
  { repeat (apply elem_of_cons in Hn' as [[= -> ->]|Hn']); try lia.
    by apply elem_of_nil in Hn'. }
  rewrite (with_kickers_of_weight _ _ n) in Hcheck |- * by (done || lia).
  unfold wcount in Hcount.
  assert (take n (of_weight (wnum k) s ++ take (5 - n) (reverse (not_of_weight (wnum k) s)))
          = of_weight (wnum k) s) as Htake.
  { rewrite take_app_le by lia. by rewrite take_ge by lia. }
  destruct (of_weight (wnum k) s) as [|x G] eqn:EG; [simpl in Hcount; lia|].
  assert (wnum x = wnum k) as Hx.
  { apply (of_weight_wnum _ s). rewrite EG. left. }
  exists x. split; [done|]. cbv zeta.
  assert (of_weight (wnum x) group = x :: G) as Hg.
  { rewrite Hx. unfold s in EG. by rewrite of_weight_psort in EG. }
  rewrite Hg. split; [exact Htake|].
  set (its := (x :: G) ++ take (5 - n) (reverse (not_of_weight (wnum k) s))) in *.
  unfold ComboM.check_nominal_combo in Hcheck.
  cbn [type cards ComboM.set_combo ComboM.new app] in Hcheck.
  repeat (apply elem_of_cons in Hn' as [[= -> ->]|Hn']);
    [| | |by apply elem_of_nil in Hn'];
    repeat (case_bool_decide; try congruence;
            try (exfalso;
                 match goal with
                 | Hd : Some _ = Some _ |- _ => vm_compute in Hd; discriminate Hd
                 end));
    rewrite Htake in Hcheck;
    destruct (ComboM.any_in_hand (x :: G)); injection Hcheck as <-; done.
Qed.

Lemma kicker_in_hand_does_not_count_witness :
  ∃ t h σ c σ',
    deal "Jc/Jd/9h/6s/3d" "Ah/2c" = Ok (t, h, σ) ∧
    ComboM.init None None (Some t) (Some h) true σ = Ok (c, σ') ∧
    type c = Some ONE_PAIR ∧ flags c = (false, false, true).
Proof.
  eexists _, _, _, _, _. split; [by vm_compute|].
  match goal with
  | |- ?i = Ok _ ∧ _ =>
      let r := eval vm_compute in i in
      match r with
      | Ok (?c, ?σ') =>
          assert (i = Ok (c, σ')) as Hinit by (vm_compute; reflexivity)
      end
  end.
  split; [exact Hinit|]. split; [reflexivity|].
  destruct (kicker_in_hand_does_not_count _ _ _ _ _ 2 Hinit) as (x & Hx & _ & Hflags);
    [left|].
  injection Hx as <-. exact Hflags.
Defined.
